(** * Resilient LLM invocation and audit layer: a shallow embedding

    The development follows three source files of the pipeline:

    - [src/triage.py]       the decision parser [_parse_decision] and the
                            stage caller [triage_article];
    - [src/audit_logger.py] the JSONL audit sink [AuditLogger];
    - [src/utils.py]        the provider gateway [_call_provider] and the
                            fallback controller [call_llm].

    Python text is modelled by [string] restricted to 7-bit ASCII: the
    character classes below ([isspace], [is_word_char], [upper]) are the
    ASCII fragment of the Python ones.  Python floats are the kernel's
    binary64 [float].  Module-level state, the file system, the network and
    the clock are threaded explicitly through a state-and-exception monad. *)

From Stdlib Require Import ZArith String Ascii List Bool Lia.
From Stdlib Require Import Floats.PrimFloat.
From Stdlib Require Import DecimalString.
From stdpp Require Import base option list strings gmap.

Set Warnings "-inexact-float".
Local Open Scope bool_scope.
Local Open Scope string_scope.

(* ===================================================================== *)
(** * Python string primitives (ASCII fragment)                           *)
(* ===================================================================== *)

Module PyStr.

Definition code (c : ascii) : nat := nat_of_ascii c.

Definition between (lo hi : nat) (c : ascii) : bool :=
  (lo <=? code c)%nat && (code c <=? hi)%nat.

(** [str.isspace] on ASCII: TAB, LF, VT, FF, CR, the four separators
    FS, GS, RS, US, and the blank.  [str.strip()] and the regex class
    [\s] both use it. *)
Definition isspace (c : ascii) : bool :=
  between 9 13 c || between 28 32 c.

(** The regex class [\w] on ASCII: letters, digits and the underscore. *)
Definition is_word_char (c : ascii) : bool :=
  between 48 57 c || between 65 90 c || between 97 122 c || (code c =? 95)%nat.

Definition upper_char (c : ascii) : ascii :=
  if between 97 122 c then ascii_of_nat (code c - 32) else c.

(** [s.upper()] on ASCII text, where it keeps the length of the string;
    letters beyond ASCII are left as they are, which is not what Python
    does with them. *)
Fixpoint upper (s : string) : string :=
  match s with
  | EmptyString => EmptyString
  | String c s' => String (upper_char c) (upper s')
  end.

(** [s.lstrip()] *)
Fixpoint lstrip (s : string) : string :=
  match s with
  | EmptyString => EmptyString
  | String c s' => if isspace c then lstrip s' else s
  end.

(** [s.rstrip()] *)
Fixpoint rstrip (s : string) : string :=
  match s with
  | EmptyString => EmptyString
  | String c s' =>
      match rstrip s' with
      | EmptyString => if isspace c then EmptyString else String c EmptyString
      | r => String c r
      end
  end.

(** [s.strip()] *)
Definition strip (s : string) : string := rstrip (lstrip s).

(** [s[:n]] *)
Definition slice_to (n : nat) (s : string) : string := substring 0 n s.

(** [s[n:]] *)
Fixpoint slice_from (n : nat) (s : string) : string :=
  match n, s with
  | O, _ => s
  | S n', String _ s' => slice_from n' s'
  | S _, EmptyString => EmptyString
  end.

(** [s.startswith(w)] *)
Fixpoint startswith (w s : string) : bool :=
  match w, s with
  | EmptyString, _ => true
  | String a w', String c s' => Ascii.eqb a c && startswith w' s'
  | String _ _, EmptyString => false
  end.

(** [s.find(w)], counting positions from [i]. *)
Fixpoint find_from (w s : string) (i : nat) : option nat :=
  if startswith w s then Some i
  else match s with
       | EmptyString => None
       | String _ s' => find_from w s' (S i)
       end.

Definition find (w s : string) : option nat := find_from w s 0.

(** [w in s] *)
Definition contains (w s : string) : bool :=
  match find w s with Some _ => true | None => false end.

(** ** The regular expression [\bW\b] for a literal [W]

    [\b] holds between two positions when exactly one of the neighbouring
    characters is a word character; the outside of the string counts as
    a non-word character. *)

Definition opt_word (o : option ascii) : bool :=
  match o with Some c => is_word_char c | None => false end.

Definition word_boundary (prev next : option ascii) : bool :=
  xorb (opt_word prev) (opt_word next).

Definition head (s : string) : option ascii :=
  match s with EmptyString => None | String c _ => Some c end.

(** Consume the literal [w] at the start of [s]; the result carries the
    last character read (or [prev] when [w] is empty) and what follows. *)
Fixpoint match_literal (w s : string) (prev : option ascii)
  : option (option ascii * string) :=
  match w with
  | EmptyString => Some (prev, s)
  | String a w' =>
      match s with
      | String c s' =>
          if Ascii.eqb a c then match_literal w' s' (Some c) else None
      | EmptyString => None
      end
  end.

Definition match_word_here (w : string) (prev : option ascii) (s : string) : bool :=
  word_boundary prev (head s) &&
  match match_literal w s prev with
  | Some (last, rest) => word_boundary last (head rest)
  | None => false
  end.

Fixpoint re_search_from (w : string) (prev : option ascii) (s : string) (i : nat)
  : option nat :=
  if match_word_here w prev s then Some i
  else match s with
       | EmptyString => None
       | String c s' => re_search_from w (Some c) s' (S i)
       end.

(** [re.search(r"\bW\b", s)]: the start of the leftmost match. *)
Definition re_search_word (w s : string) : option nat :=
  re_search_from w None s 0.

(** [bool(re.search(r"\bW\b", s))] *)
Definition has_word (w s : string) : bool :=
  match re_search_word w s with Some _ => true | None => false end.

(** ** [re.sub(r"^(YES|NO|UNCERTAIN)[.,:\-\s]*", "", s, flags=re.IGNORECASE)] *)

Definition is_sep (c : ascii) : bool :=
  Ascii.eqb c "." || Ascii.eqb c "," || Ascii.eqb c ":" || Ascii.eqb c "-"
  || isspace c.

Fixpoint drop_seps (s : string) : string :=
  match s with
  | EmptyString => EmptyString
  | String c s' => if is_sep c then drop_seps s' else s
  end.

(** The alternatives are tried in the order they are written. *)
Definition sub_leading_token (s : string) : string :=
  let u := upper s in
  if startswith "YES" u then drop_seps (slice_from 3 s)
  else if startswith "NO" u then drop_seps (slice_from 2 s)
  else if startswith "UNCERTAIN" u then drop_seps (slice_from 9 s)
  else s.

(** The character just before the end of [s]; [prev] when [s] is empty. *)
Fixpoint last_char (prev : option ascii) (s : string) : option ascii :=
  match s with
  | EmptyString => prev
  | String c s' => last_char (Some c) s'
  end.

(** What the specification means by a token occurring at offset [i] of
    [s], and by its standing alone there: no word character immediately
    before or after it.  Neither refers to the matchers above. *)
Definition OccursAt (w s : string) (i : nat) : Prop :=
  exists pre post, s = pre +:+ w +:+ post /\ String.length pre = i.

Definition Occurs (w s : string) : Prop := exists i, OccursAt w s i.

Definition StandaloneAt (w s : string) (i : nat) : Prop :=
  exists pre post,
    s = pre +:+ w +:+ post /\ String.length pre = i
    /\ opt_word (last_char None pre) = false /\ opt_word (head post) = false.

Definition Standalone (w s : string) : Prop := exists i, StandaloneAt w s i.

(** The same with a character [prev] known to precede [s]. *)
Definition StandaloneIn (prev : option ascii) (w s : string) (i : nat) : Prop :=
  exists pre post,
    s = pre +:+ w +:+ post /\ String.length pre = i
    /\ opt_word (last_char prev pre) = false /\ opt_word (head post) = false.

(** A token that begins and ends with a word character, as YES and NO do. *)
Definition wordy (w : string) : bool :=
  opt_word (head w) && opt_word (last_char None w).

End PyStr.

(* ===================================================================== *)
(** * The Python runtime the three modules share                          *)
(* ===================================================================== *)

Module Runtime.

(** Exception classes that the modelled code raises or catches.
    [Timeout] stands for [requests.exceptions.Timeout] and its
    subclasses, [ConnectionError] for [requests.exceptions.ConnectionError]
    (refused or reset connection, DNS failure), [HTTPError] for what
    [raise_for_status] raises. *)
Inductive exn : Type :=
| RateLimitError
| Timeout
| HTTPError
| ConnectionError
| JSONDecodeError
| KeyError
| IndexError
| ValueError
| FileNotFoundError
| FileExistsError
| NotADirectoryError
| IsADirectoryError.

(** JSON-serialisable values stored in an audit record. *)
Inductive pyval : Type :=
| PyNone
| PyStr (s : string)
| PyInt (z : Z)
| PyFloat (f : float).

(** A [dict] keeps insertion order; assigning to a key that is present
    overwrites the value in place. *)
Definition dict : Type := list (string * pyval).

Fixpoint dict_get (k : string) (d : dict) : option pyval :=
  match d with
  | [] => None
  | (k', v) :: d' => if String.eqb k k' then Some v else dict_get k d'
  end.

Fixpoint dict_set (k : string) (v : pyval) (d : dict) : dict :=
  match d with
  | [] => [(k, v)]
  | (k', v') :: d' =>
      if String.eqb k k' then (k, v) :: d' else (k', v') :: dict_set k v d'
  end.

(** [d.update(e)] *)
Definition dict_update (d e : dict) : dict :=
  fold_left (fun acc kv => dict_set (fst kv) (snd kv) acc) e d.

(** ** File system

    Paths are compared as written: [.], [..] and doubled slashes are not
    normalised.  The empty path names no file; as a parent it is the
    working directory, which exists, and so does the root.  A file holds
    the JSONL lines written to it, one [dict] per line. *)
Record filesystem : Type := {
  dirs : gset string;
  files : gmap string (list dict)
}.

Definition is_sep (c : ascii) : bool := Ascii.eqb c "/".

Fixpoint all_seps (s : string) : bool :=
  match s with
  | EmptyString => true
  | String c s' => is_sep c && all_seps s'
  end.

(** [p.rfind('/') + 1] *)
Fixpoint head_len (p : string) : nat :=
  match p with
  | EmptyString => 0
  | String c p' =>
      match head_len p' with
      | O => if is_sep c then 1 else 0
      | S k => S (S k)
      end
  end.

(** [s.rstrip('/')] *)
Fixpoint rstrip_seps (s : string) : string :=
  match s with
  | EmptyString => EmptyString
  | String c s' =>
      match rstrip_seps s' with
      | EmptyString => if is_sep c then EmptyString else String c EmptyString
      | r => String c r
      end
  end.

(** [posixpath.split(p)] *)
Definition path_split (p : string) : string * string :=
  let i := head_len p in
  let head := PyStr.slice_to i p in
  let tail := PyStr.slice_from i p in
  let head :=
    if negb (String.eqb head "") && negb (all_seps head)
    then rstrip_seps head else head in
  (head, tail).

(** [os.path.dirname(p)] *)
Definition dirname (p : string) : string := fst (path_split p).

Definition is_root (p : string) : bool :=
  negb (String.eqb p "") && all_seps p.

(** [os.path.isdir(p)] *)
Definition isdir (fs : filesystem) (p : string) : bool :=
  negb (String.eqb p "") && (is_root p || bool_decide (p ∈ dirs fs)).

(** [os.path.isfile(p)] *)
Definition isfile (fs : filesystem) (p : string) : bool :=
  negb (String.eqb p "") && bool_decide (is_Some (files fs !! p)).

(** [os.path.exists(p)] *)
Definition path_exists (fs : filesystem) (p : string) : bool :=
  isdir fs p || isfile fs p.

(** The directory an entry of [p] is created in exists. *)
Definition parent_ok (fs : filesystem) (p : string) : exn + unit :=
  let d := dirname p in
  if String.eqb d "" || isdir fs d then inr tt
  else if isfile fs d then inl NotADirectoryError
  else inl FileNotFoundError.

(** [os.mkdir(p)] *)
Definition mkdir (p : string) (fs : filesystem) : exn + filesystem :=
  if String.eqb p "" then inl FileNotFoundError
  else if path_exists fs p then inl FileExistsError
  else match parent_ok fs p with
       | inl e => inl e
       | inr _ => inr {| dirs := {[ p ]} ∪ dirs fs; files := files fs |}
       end.

(** [os.makedirs(name, exist_ok=exist_ok)], as the standard library
    writes it: create the missing ancestors first, then the leaf, and
    forgive an existing leaf only when it is a directory and [exist_ok]
    is set.  The recursion is on the head of the path, which is shorter
    than the path; [fuel] bounds it, and the length of the path is fuel
    enough. *)
Fixpoint makedirs_fuel (fuel : nat) (name : string) (exist_ok : bool)
    (fs : filesystem) : exn + filesystem :=
  let '(head, tail) := path_split name in
  let '(head, tail) :=
    if String.eqb tail "" then path_split head else (head, tail) in
  let leaf (fs : filesystem) : exn + filesystem :=
    match mkdir name fs with
    | inl e => if negb exist_ok || negb (isdir fs name) then inl e else inr fs
    | inr fs' => inr fs'
    end in
  if negb (String.eqb head "") && negb (String.eqb tail "")
     && negb (path_exists fs head)
  then
    match fuel with
    | O => inl FileNotFoundError
    | S fuel' =>
        match makedirs_fuel fuel' head exist_ok fs with
        | inl FileExistsError => if String.eqb tail "." then inr fs else leaf fs
        | inl e => inl e
        | inr fs' => if String.eqb tail "." then inr fs' else leaf fs'
        end
    end
  else leaf fs.

Definition makedirs (name : string) (exist_ok : bool) (fs : filesystem)
  : exn + filesystem :=
  makedirs_fuel (String.length name) name exist_ok fs.

Inductive open_mode : Type := ModeRead | ModeWrite | ModeAppend.

(** A text file object: the path it was opened on and whether it has
    been closed. *)
Record file_object : Type := {
  name : string;
  mode : open_mode;
  closed : bool
}.

(** [open(p, mode)]: reading needs the file; writing truncates or creates
    it; appending creates it when missing and leaves it alone otherwise. *)
Definition py_open (p : string) (m : open_mode) (fs : filesystem)
  : exn + (file_object * filesystem) :=
  if String.eqb p "" then inl FileNotFoundError
  else if isdir fs p then inl IsADirectoryError
  else
    match m with
    | ModeRead =>
        if isfile fs p
        then inr ({| name := p; mode := m; closed := false |}, fs)
        else inl FileNotFoundError
    | ModeWrite =>
        match parent_ok fs p with
        | inl e => inl e
        | inr _ =>
            inr ({| name := p; mode := m; closed := false |},
                 {| dirs := dirs fs; files := <[ p := [] ]> (files fs) |})
        end
    | ModeAppend =>
        match parent_ok fs p with
        | inl e => inl e
        | inr _ =>
            inr ({| name := p; mode := m; closed := false |},
                 {| dirs := dirs fs;
                    files := <[ p := default [] (files fs !! p) ]> (files fs) |})
        end
    end.

(** The lines of the file at [p]; none when there is no such file. *)
Definition read_lines (fs : filesystem) (p : string) : list dict :=
  default [] (files fs !! p).

(** [f.write(line); f.flush()] on a file opened for appending. *)
Definition append_line (f : file_object) (line : dict) (fs : filesystem)
  : exn + filesystem :=
  if closed f then inl ValueError
  else inr {| dirs := dirs fs;
              files := <[ name f := (read_lines fs (name f) ++ [line])%list ]> (files fs) |}.

(** ** The network boundary *)

Record Request : Type := {
  req_url : string;
  req_api_key : string;
  req_model : string;
  req_prompt : string;
  req_temperature : float;
  req_top_p : float;
  req_max_tokens : Z;
  req_timeout : Z
}.

(** The [usage] object of a body: a counter is absent or an integer.  A
    provider that sends another JSON value for one, such as [null], is
    outside this model. *)
Record Usage : Type := {
  prompt_tokens : option Z;
  completion_tokens : option Z
}.

(** The JSON body of a chat completion: the [message.content] of each
    choice and the optional [usage] object. *)
Record Completion : Type := {
  choices : list string;
  usage : option Usage
}.

Inductive Body : Type :=
| NotJson
| Json (c : Completion).

Record Response : Type := {
  status_code : Z;
  body : Body
}.

(** What [requests.post] itself can raise. *)
Inductive transport_error : Type :=
| TransportTimeout
| TransportConnection.

Definition exn_of_transport (e : transport_error) : exn :=
  match e with
  | TransportTimeout => Timeout
  | TransportConnection => ConnectionError
  end.

(** What [requests.post] does: it raises, or it returns a response after
    [elapsed_ms] milliseconds of wall-clock time. *)
Inductive PostOutcome : Type :=
| PostRaises (e : transport_error)
| PostReturns (elapsed_ms : float) (r : Response).

(** ** The environment of a run *)

Record Env : Type := {
  (** the outcome of the [n]-th request of the process *)
  http_post : nat -> Request -> PostOutcome;
  (** [datetime.now(timezone.utc).isoformat()] at the [n]-th reading *)
  utcnow_isoformat : nat -> string;
  (** [hashlib.sha256(s.encode("utf-8")).hexdigest()] *)
  sha256_hexdigest : string -> string;
  (** the builtin [round(x, ndigits)] *)
  round : float -> Z -> float;
  (** [os.getenv(name, "")] *)
  getenv : string -> string;
  (** [load_prompt(name, **kwargs)]: the formatted template, or the
      exception raised when the template is missing or malformed *)
  load_prompt : string -> list (string * string) -> exn + string
}.

(** ** Process state *)

Record World : Type := {
  fs : filesystem;
  clock : nat;
  (** every request sent so far with its outcome, latest first *)
  sent : list (Request * PostOutcome);
  (** every [time.sleep] so far, latest first *)
  slept : list float;
  (** the module-level counter of [src/utils.py] *)
  _groq_consecutive_failures : Z
}.

Definition with_fs (f : filesystem) (w : World) : World :=
  {| fs := f; clock := clock w; sent := sent w; slept := slept w;
     _groq_consecutive_failures := _groq_consecutive_failures w |}.

Definition with_failures (n : Z) (w : World) : World :=
  {| fs := fs w; clock := clock w; sent := sent w; slept := slept w;
     _groq_consecutive_failures := n |}.

(** ** State and exceptions *)

Definition M (A : Type) : Type := World -> (exn + A) * World.

Definition ret {A} (a : A) : M A := fun w => (inr a, w).

Definition raise {A} (e : exn) : M A := fun w => (inl e, w).

Definition bind {A B} (c : M A) (k : A -> M B) : M B :=
  fun w => match c w with
           | (inr a, w') => k a w'
           | (inl e, w') => (inl e, w')
           end.

(** [try: c  except Exception as e: h e] *)
Definition try_except {A} (c : M A) (h : exn -> M A) : M A :=
  fun w => match c w with
           | (inr a, w') => (inr a, w')
           | (inl e, w') => h e w'
           end.

Definition lift {A} (r : exn + A) : M A := fun w => (r, w).

Definition get_failures : M Z :=
  fun w => (inr (_groq_consecutive_failures w), w).

Definition set_failures (n : Z) : M unit :=
  fun w => (inr tt, with_failures n w).

(** [time.sleep(seconds)] *)
Definition sleep (seconds : float) : M unit :=
  fun w => (inr tt,
            {| fs := fs w; clock := clock w; sent := sent w;
               slept := seconds :: slept w;
               _groq_consecutive_failures := _groq_consecutive_failures w |}).

Definition now (env : Env) : M string :=
  fun w => (inr (utcnow_isoformat env (clock w)),
            {| fs := fs w; clock := S (clock w); sent := sent w;
               slept := slept w;
               _groq_consecutive_failures := _groq_consecutive_failures w |}).

(** [requests.post(...)]: the request is recorded with its outcome. *)
Definition post (env : Env) (rq : Request) : M PostOutcome :=
  fun w => let o := http_post env (length (sent w)) rq in
           (inr o,
            {| fs := fs w; clock := clock w; sent := (rq, o) :: sent w;
               slept := slept w;
               _groq_consecutive_failures := _groq_consecutive_failures w |}).

(** An operation of the file system run on the world's. *)
Definition on_fs {A} (op : filesystem -> exn + (A * filesystem)) : M A :=
  fun w => match op (fs w) with
           | inl e => (inl e, w)
           | inr (a, f) => (inr a, with_fs f w)
           end.

End Runtime.

Declare Scope py_scope.
Delimit Scope py_scope with py.
Notation "'let*' x ':=' c 'in' k" := (Runtime.bind c (fun x => k))
  (at level 10, x pattern, c at level 100, k at level 200) : py_scope.
Notation "'do' c 'in' k" := (Runtime.bind c (fun _ => k))
  (at level 10, c at level 100, k at level 200) : py_scope.

Local Open Scope py_scope.

(* ===================================================================== *)
(** * src/audit_logger.py                                                 *)
(* ===================================================================== *)

Module AuditLogger.
Import Runtime.

(** The attributes of an [AuditLogger] instance. *)
Record t : Type := {
  _path : string;
  _file : file_object
}.

(** [AuditLogger(output_path)] *)
Definition __init__ (output_path : string) : M t :=
  do on_fs (fun fs =>
              match makedirs (dirname output_path) true fs with
              | inl e => inl e
              | inr fs' => inr (tt, fs')
              end) in
  let* f := on_fs (py_open output_path ModeAppend) in
  ret {| _path := output_path; _file := f |}.

Section WithEnv.
Variable env : Env.

(** [self.log(...)] *)
Definition log (self : t)
    (module article_id decision : string) (confidence : float)
    (prompt_hash provider : string) (tokens_in tokens_out : Z)
    (latency_ms : float) (raw_response : string) (extra : option dict)
  : M unit :=
  let* timestamp := now env in
  let record : dict :=
    [ ("timestamp", PyStr timestamp);
      ("module", PyStr module);
      ("article_id", PyStr article_id);
      ("decision", PyStr decision);
      ("confidence", PyFloat confidence);
      ("prompt_hash", PyStr prompt_hash);
      ("provider", PyStr provider);
      ("tokens_in", PyInt tokens_in);
      ("tokens_out", PyInt tokens_out);
      ("latency_ms", PyFloat (round env latency_ms 2));
      ("raw_response", PyStr raw_response) ] in
  let record :=
    match extra with
    | Some (kv :: e) => dict_update record (kv :: e)
    | _ => record
    end in
  on_fs (fun fs =>
           match append_line (_file self) record fs with
           | inl e => inl e
           | inr fs' => inr (tt, fs')
           end).

End WithEnv.

(** [self.close()]: the instance afterwards. *)
Definition close (self : t) : t :=
  if negb (closed (_file self))
  then {| _path := _path self;
          _file := {| name := name (_file self); mode := mode (_file self);
                      closed := true |} |}
  else self.

End AuditLogger.

(* ===================================================================== *)
(** * src/utils.py                                                        *)
(* ===================================================================== *)

Module Utils.
Import Runtime.

(** [config["inference"][stage]] *)
Record Params : Type := {
  temperature : float;
  top_p : float;
  max_tokens : Z
}.

Record Config : Type := {
  inference : list (string * Params);
  model_name : string;
  fallback_model : string
}.

Fixpoint assoc {A} (k : string) (l : list (string * A)) : exn + A :=
  match l with
  | [] => inl KeyError
  | (k', v) :: l' => if String.eqb k k' then inr v else assoc k l'
  end.

(** The dictionary [_call_provider] returns. *)
Record ProviderResult : Type := {
  text : string;
  tokens_input : Z;
  tokens_output : Z;
  latency_ms : float
}.

(** The same dictionary once [call_llm] has added the ["provider"] key. *)
Record LlmResult : Type := {
  result :> ProviderResult;
  provider : string
}.

Definition _GROQ_SKIP_THRESHOLD : Z := 3.

Definition groq_url : string := "https://api.groq.com/openai/v1/chat/completions".
Definition together_url : string := "https://api.together.xyz/v1/chat/completions".

(** [decision_label or fallback]: [None] and the empty string are falsy. *)
Definition py_or (label : option string) (fallback : string) : string :=
  match label with
  | Some (String c s) => String c s
  | _ => fallback
  end.

Definition incr_failures : M unit :=
  let* n := get_failures in set_failures (n + 1).

Section WithEnv.
Variable env : Env.

Definition _hash_prompt (prompt : string) : string :=
  PyStr.slice_to 16 (sha256_hexdigest env prompt).

Definition _call_provider (prompt api_url api_key model : string)
    (temperature top_p : float) (max_tokens : Z) (timeout : Z)
  : M ProviderResult :=
  let rq := {| req_url := api_url; req_api_key := api_key;
               req_model := model; req_prompt := prompt;
               req_temperature := temperature; req_top_p := top_p;
               req_max_tokens := max_tokens; req_timeout := timeout |} in
  let* outcome := post env rq in
  match outcome with
  | PostRaises e => raise (exn_of_transport e)
  | PostReturns latency_ms resp =>
      if (status_code resp =? 429)%Z then raise RateLimitError
      else if (400 <=? status_code resp)%Z && (status_code resp <? 600)%Z
      then raise HTTPError
      else
        match body resp with
        | NotJson => raise JSONDecodeError
        | Json data =>
            match choices data with
            | [] => raise IndexError
            | content :: _ =>
                let usage := default {| prompt_tokens := None;
                                        completion_tokens := None |}
                                     (usage data) in
                ret {| text := PyStr.strip content;
                       tokens_input := default 0%Z (prompt_tokens usage);
                       tokens_output := default 0%Z (completion_tokens usage);
                       latency_ms := latency_ms |}
            end
        end
  end.

Definition call_llm (prompt : string) (config : Config) (stage : string)
    (audit_logger : AuditLogger.t) (article_id : string)
    (decision_label : option string) : M LlmResult :=
  let* params := lift (assoc stage (inference config)) in
  let temperature := temperature params in
  let top_p := top_p params in
  let max_tokens := max_tokens params in
  let prompt_hash := _hash_prompt prompt in
  let groq_key := getenv env "GROQ_API_KEY" in
  let together_key := getenv env "TOGETHER_API_KEY" in
  let provider := "groq" in
  let result : option ProviderResult := None in
  let* failures := get_failures in
  let skip_groq := (_GROQ_SKIP_THRESHOLD <=? failures)%Z in
  let* (provider, result) :=
    if skip_groq then ret (provider, result)
    else
      try_except
        (let* r := _call_provider prompt groq_url groq_key
                     (model_name config) temperature top_p max_tokens 30 in
         do set_failures 0 in
         ret ("groq", Some r))
        (fun e =>
           match e with
           | RateLimitError =>
               do incr_failures in
               let* failures := get_failures in
               if (failures <? _GROQ_SKIP_THRESHOLD)%Z then
                 do sleep 60%float in
                 try_except
                   (let* r := _call_provider prompt groq_url groq_key
                                (model_name config) temperature top_p
                                max_tokens 30 in
                    do set_failures 0 in
                    ret ("groq", Some r))
                   (fun _ => do incr_failures in ret (provider, None))
               else ret (provider, None)
           | Timeout | HTTPError => ret (provider, None)
           | _ => raise e
           end) in
  let* (provider, result) :=
    match result with
    | None =>
        let* r := _call_provider prompt together_url together_key
                    (fallback_model config) temperature top_p max_tokens 30 in
        ret ("together", r)
    | Some r => ret (provider, r)
    end in
  do AuditLogger.log env audit_logger stage article_id
       (py_or decision_label (PyStr.slice_to 200 (text result)))
       1.0%float prompt_hash provider
       (tokens_input result) (tokens_output result) (latency_ms result)
       (text result) None in
  let result := {| result := result; provider := provider |} in
  do (if String.eqb provider "groq" then sleep 2.1%float else ret tt) in
  ret result.

End WithEnv.

End Utils.

(* ===================================================================== *)
(** * src/triage.py                                                       *)
(* ===================================================================== *)

Module Triage.
Import Runtime PyStr.

(** [s.index(w)] *)
Definition str_index (w s : string) : exn + nat :=
  match find w s with
  | Some i => inr i
  | None => inl ValueError
  end.

(** [_parse_decision(text)] returns [(decision, justification, confidence)]. *)
Definition _parse_decision (text : string) : exn + (string * string * float) :=
  let clean := strip text in
  let first_part := upper (slice_to 10 clean) in
  let verdict : exn + (string * float) :=
    if contains "YES" first_part then inr ("YES", 1.0%float)
    else if contains "NO" first_part then inr ("NO", 1.0%float)
    else
      let upper := upper clean in
      let has_yes := has_word "YES" upper in
      let has_no := has_word "NO" upper in
      if has_yes && negb has_no then inr ("YES", 0.8%float)
      else if has_no && negb has_yes then inr ("NO", 0.8%float)
      else if has_yes && has_no then
        match str_index "YES" upper with
        | inl e => inl e
        | inr yes_pos =>
            match str_index "NO" upper with
            | inl e => inl e
            | inr no_pos =>
                inr (if (yes_pos <? no_pos)%nat then "YES" else "NO", 0.5%float)
            end
        end
      else inr ("UNCERTAIN", 0.5%float) in
  match verdict with
  | inl e => inl e
  | inr (decision, confidence) =>
      let justification := strip (sub_leading_token clean) in
      inr (decision, justification, confidence)
  end.

Record TriageResult : Type := {
  article_id : string;
  decision : string;
  justification : string;
  confidence : float;
  tokens_used : Z;
  latency_ms : float;
  provider : string;
  timestamp : string
}.

Definition newline : string := String (ascii_of_nat 10) EmptyString.

Section WithEnv.
Variable env : Env.

Definition triage_article (title abstract article_id : string)
    (criteria : list string) (config : Utils.Config)
    (audit_logger : AuditLogger.t) : M TriageResult :=
  let criteria_text :=
    String.concat newline (map (fun c => "- " +:+ c) criteria) in
  let* prompt :=
    lift (load_prompt env "triage"
            [("criteria", criteria_text); ("title", title);
             ("abstract", abstract)]) in
  let* response :=
    Utils.call_llm env prompt config "triage" audit_logger article_id None in
  let* (decision, justification, confidence) :=
    lift (_parse_decision (Utils.text (Utils.result response))) in
  let* timestamp := now env in
  ret {| article_id := article_id;
         decision := decision;
         justification := justification;
         confidence := confidence;
         tokens_used :=
           Utils.tokens_input (Utils.result response)
           + Utils.tokens_output (Utils.result response);
         latency_ms := Utils.latency_ms (Utils.result response);
         provider := Utils.provider response;
         timestamp := timestamp |}.

End WithEnv.

End Triage.

(* ===================================================================== *)
(** * Vocabulary of the statements                                        *)
(* ===================================================================== *)

Module Trace.
Import Runtime Utils.

(** What [_call_provider] makes of the outcome of its request. *)
Definition reply (o : PostOutcome) : exn + ProviderResult :=
  match o with
  | PostRaises e => inl (exn_of_transport e)
  | PostReturns latency_ms resp =>
      if (status_code resp =? 429)%Z then inl RateLimitError
      else if (400 <=? status_code resp)%Z && (status_code resp <? 600)%Z
      then inl HTTPError
      else
        match body resp with
        | NotJson => inl JSONDecodeError
        | Json data =>
            match choices data with
            | [] => inl IndexError
            | content :: _ =>
                let usage := default {| prompt_tokens := None;
                                        completion_tokens := None |}
                                     (usage data) in
                inr {| text := PyStr.strip content;
                       tokens_input := default 0%Z (prompt_tokens usage);
                       tokens_output := default 0%Z (completion_tokens usage);
                       latency_ms := latency_ms |}
            end
        end
  end.

Definition succeeded (o : PostOutcome) : bool :=
  match reply o with inr _ => true | inl _ => false end.

Definition rate_limited (o : PostOutcome) : bool :=
  match reply o with inl RateLimitError => true | _ => false end.

(** The world once request [rq] has been sent and answered by [o]. *)
Definition record_sent (rq : Request) (o : PostOutcome) (w : World) : World :=
  {| fs := fs w; clock := clock w; sent := (rq, o) :: sent w;
     slept := slept w;
     _groq_consecutive_failures := _groq_consecutive_failures w |}.

Definition to_primary (a : Request * PostOutcome) : bool :=
  String.eqb (req_url (fst a)) groq_url.

Definition to_secondary (a : Request * PostOutcome) : bool :=
  String.eqb (req_url (fst a)) together_url.

(** How many of the latest requests to the primary provider were
    rate-limited in a row; requests to the secondary do not interrupt
    the run. *)
Fixpoint rate_limit_streak (tr : list (Request * PostOutcome)) : nat :=
  match tr with
  | [] => 0
  | a :: tr' =>
      if to_primary a
      then if rate_limited (snd a) then S (rate_limit_streak tr') else 0
      else rate_limit_streak tr'
  end.

(** The counter accounts for the latest run of rate-limited requests. *)
Definition streak_ok (w : World) : Prop :=
  (Z.of_nat (rate_limit_streak (sent w)) <= _groq_consecutive_failures w)%Z.

(** The lines of the file an [AuditLogger] writes to. *)
Definition audit_log (l : AuditLogger.t) (w : World) : list dict :=
  read_lines (fs w) (name (AuditLogger._file l)).

(** The request [call_llm] sends to the primary and to the secondary
    provider for a prompt under the parameters of its stage. *)
Definition primary_request (env : Env) (prompt : string) (config : Config)
    (params : Params) : Request :=
  {| req_url := groq_url; req_api_key := getenv env "GROQ_API_KEY";
     req_model := model_name config; req_prompt := prompt;
     req_temperature := temperature params; req_top_p := top_p params;
     req_max_tokens := max_tokens params; req_timeout := 30 |}.

Definition secondary_request (env : Env) (prompt : string) (config : Config)
    (params : Params) : Request :=
  {| req_url := together_url; req_api_key := getenv env "TOGETHER_API_KEY";
     req_model := fallback_model config; req_prompt := prompt;
     req_temperature := temperature params; req_top_p := top_p params;
     req_max_tokens := max_tokens params; req_timeout := 30 |}.

(** The world after [time.sleep(seconds)]. *)
Definition asleep (seconds : float) (w : World) : World :=
  {| fs := fs w; clock := clock w; sent := sent w;
     slept := seconds :: slept w;
     _groq_consecutive_failures := _groq_consecutive_failures w |}.

(** The world after one reading of the clock. *)
Definition ticked (w : World) : World :=
  {| fs := fs w; clock := S (clock w); sent := sent w; slept := slept w;
     _groq_consecutive_failures := _groq_consecutive_failures w |}.

(** The file system with one more line in the file of logger [l]. *)
Definition fs_append (l : AuditLogger.t) (line : dict) (f : filesystem)
  : filesystem :=
  {| dirs := dirs f;
     files := <[ name (AuditLogger._file l) :=
                   (read_lines f (name (AuditLogger._file l)) ++ [line])%list ]>
                (files f) |}.

(** The tail of [call_llm], from the audit record on, once [provider] has
    answered with [result]. *)
Definition finish (env : Env) (prompt stage : string)
    (audit_logger : AuditLogger.t) (article_id : string)
    (decision_label : option string) (provider : string)
    (result : ProviderResult) : M LlmResult :=
  do AuditLogger.log env audit_logger stage article_id
       (py_or decision_label (PyStr.slice_to 200 (text result)))
       1.0%float (_hash_prompt env prompt) provider
       (tokens_input result) (tokens_output result) (latency_ms result)
       (text result) None in
  let result := {| result := result; provider := provider |} in
  do (if String.eqb provider "groq" then sleep 2.1%float else ret tt) in
  ret result.

(** The tail of [call_llm] from the fallback on, when the primary provider
    gave no result. *)
Definition fallback (env : Env) (prompt : string) (config : Config)
    (params : Params) (stage : string) (audit_logger : AuditLogger.t)
    (article_id : string) (decision_label : option string) : M LlmResult :=
  let* r := _call_provider env prompt together_url
              (getenv env "TOGETHER_API_KEY") (fallback_model config)
              (temperature params) (top_p params) (max_tokens params) 30 in
  finish env prompt stage audit_logger article_id decision_label "together" r.

(** The exceptions the first [try] of [call_llm] has a handler for. *)
Definition handled (e : exn) : bool :=
  match e with
  | RateLimitError | Timeout | HTTPError => true
  | _ => false
  end.

(** The ways through [call_llm] for a configured stage, each with what is
    left to run and the world it runs in.  [o1] and [o2] are the outcomes
    of the first attempt and of the retry at the primary provider. *)
Inductive path (env : Env) (prompt : string) (config : Config)
    (params : Params) (stage : string) (audit_logger : AuditLogger.t)
    (article_id : string) (decision_label : option string) (w : World)
  : (exn + LlmResult) * World -> Prop :=
| path_skip :
    (_GROQ_SKIP_THRESHOLD <= _groq_consecutive_failures w)%Z ->
    path env prompt config params stage audit_logger article_id
      decision_label w
      (fallback env prompt config params stage audit_logger article_id
         decision_label w)
| path_first_ok r :
    let pr := primary_request env prompt config params in
    let o1 := http_post env (length (sent w)) pr in
    (_groq_consecutive_failures w < _GROQ_SKIP_THRESHOLD)%Z ->
    reply o1 = inr r ->
    path env prompt config params stage audit_logger article_id
      decision_label w
      (finish env prompt stage audit_logger article_id decision_label
         "groq" r (with_failures 0 (record_sent pr o1 w)))
| path_first_soft e :
    let pr := primary_request env prompt config params in
    let o1 := http_post env (length (sent w)) pr in
    (_groq_consecutive_failures w < _GROQ_SKIP_THRESHOLD)%Z ->
    reply o1 = inl e -> e = Timeout \/ e = HTTPError ->
    path env prompt config params stage audit_logger article_id
      decision_label w
      (fallback env prompt config params stage audit_logger article_id
         decision_label (record_sent pr o1 w))
| path_first_escapes e :
    let pr := primary_request env prompt config params in
    let o1 := http_post env (length (sent w)) pr in
    (_groq_consecutive_failures w < _GROQ_SKIP_THRESHOLD)%Z ->
    reply o1 = inl e -> handled e = false ->
    path env prompt config params stage audit_logger article_id
      decision_label w (inl e, record_sent pr o1 w)
| path_limited_no_retry :
    let pr := primary_request env prompt config params in
    let o1 := http_post env (length (sent w)) pr in
    let n := _groq_consecutive_failures w in
    (n < _GROQ_SKIP_THRESHOLD)%Z ->
    reply o1 = inl RateLimitError ->
    (_GROQ_SKIP_THRESHOLD <= n + 1)%Z ->
    path env prompt config params stage audit_logger article_id
      decision_label w
      (fallback env prompt config params stage audit_logger article_id
         decision_label (with_failures (n + 1) (record_sent pr o1 w)))
| path_retry_ok r :
    let pr := primary_request env prompt config params in
    let o1 := http_post env (length (sent w)) pr in
    let n := _groq_consecutive_failures w in
    let w1 := asleep 60%float (with_failures (n + 1) (record_sent pr o1 w)) in
    let o2 := http_post env (S (length (sent w))) pr in
    reply o1 = inl RateLimitError ->
    (n + 1 < _GROQ_SKIP_THRESHOLD)%Z ->
    reply o2 = inr r ->
    path env prompt config params stage audit_logger article_id
      decision_label w
      (finish env prompt stage audit_logger article_id decision_label
         "groq" r (with_failures 0 (record_sent pr o2 w1)))
| path_retry_fails e :
    let pr := primary_request env prompt config params in
    let o1 := http_post env (length (sent w)) pr in
    let n := _groq_consecutive_failures w in
    let w1 := asleep 60%float (with_failures (n + 1) (record_sent pr o1 w)) in
    let o2 := http_post env (S (length (sent w))) pr in
    reply o1 = inl RateLimitError ->
    (n + 1 < _GROQ_SKIP_THRESHOLD)%Z ->
    reply o2 = inl e ->
    path env prompt config params stage audit_logger article_id
      decision_label w
      (fallback env prompt config params stage audit_logger article_id
         decision_label (with_failures (n + 1 + 1) (record_sent pr o2 w1))).

(** The audit record of a call that returned [r] for a caller that passed
    [label]. *)
Definition call_record (env : Env) (label : option string) (r : LlmResult)
    (line : dict) : Prop :=
  dict_get "confidence" line = Some (PyFloat 1.0%float)
  /\ dict_get "decision" line
     = Some (PyStr (py_or label (PyStr.slice_to 200 (text r))))
  /\ dict_get "raw_response" line = Some (PyStr (text r))
  /\ dict_get "provider" line = Some (PyStr (provider r))
  /\ dict_get "tokens_in" line = Some (PyInt (tokens_input r))
  /\ dict_get "tokens_out" line = Some (PyInt (tokens_output r))
  /\ dict_get "latency_ms" line = Some (PyFloat (round env (latency_ms r) 2)).

(** A process starts with the counter at zero and nothing sent. *)
Definition initial (w : World) : Prop :=
  _groq_consecutive_failures w = 0%Z /\ sent w = [].

(** [later env w w']: [w'] is a state of the process after [w].  Between
    the two, [call_llm] ran any number of times, whatever its arguments
    and whether it returned or raised; the rest of the program leaves the
    counter and the network alone. *)
Inductive later (env : Env) : World -> World -> Prop :=
| later_refl w : later env w w
| later_call w w' prompt config stage audit_logger article_id decision_label :
    later env w w' ->
    later env w
      (snd (call_llm env prompt config stage audit_logger article_id
              decision_label w'))
| later_other w w' w'' :
    later env w w' ->
    _groq_consecutive_failures w'' = _groq_consecutive_failures w' ->
    sent w'' = sent w' ->
    later env w w''.

Definition reachable (env : Env) (w : World) : Prop :=
  exists w0, initial w0 /\ later env w0 w.

End Trace.

(* ===================================================================== *)
(** * Concrete runs                                                       *)
(* ===================================================================== *)

Module Scenario.
Import Runtime Utils.

Definition completion (content : string) (tin tout : Z) : Response :=
  {| status_code := 200;
     body := Json {| choices := [content];
                     usage := Some {| prompt_tokens := Some tin;
                                      completion_tokens := Some tout |} |} |}.

Definition http_status (code : Z) : Response :=
  {| status_code := code; body := NotJson |}.

(** A network that answers the [n]-th request of the process with the
    [n]-th entry of a script, and with a completion once the script is
    exhausted. *)
Definition scripted (script : list PostOutcome) (n : nat) (_ : Request)
  : PostOutcome :=
  nth n script (PostReturns 250%float (completion "YES. Relevant." 120 4)).

(** The latencies of these runs are whole milliseconds, which
    [round(x, 2)] returns unchanged. *)
Definition env_of (script : list PostOutcome) : Env :=
  {| http_post := scripted script;
     utcnow_isoformat := fun _ => "2026-01-01T00:00:00+00:00";
     sha256_hexdigest :=
       fun _ => "9f86d081884c7d659a2feaa0c55ad015a3bf4f1b2b0b822cd15d6c15b0f00a08";
     round := fun x _ => x;
     getenv := fun _ => "";
     load_prompt := fun _ kwargs => inr (String.concat " " (map snd kwargs)) |}.

Definition config : Config :=
  {| inference :=
       [ ("triage", {| temperature := 0%float; top_p := 1%float;
                       max_tokens := 256 |});
         ("extraction", {| temperature := 0%float; top_p := 1%float;
                           max_tokens := 1024 |});
         ("summarization", {| temperature := 0.3%float; top_p := 0.9%float;
                              max_tokens := 512 |}) ];
     model_name := "llama-3.1-8b-instant";
     fallback_model := "meta-llama/Llama-3.1-8B-Instruct-Turbo" |}.

Definition triage_params : Params :=
  {| temperature := 0%float; top_p := 1%float; max_tokens := 256 |}.

Definition empty_fs : filesystem := {| dirs := ∅; files := ∅ |}.

(** The process at start, with the counter at [n]. *)
Definition world_at (n : Z) : World :=
  {| fs := empty_fs; clock := 0; sent := []; slept := [];
     _groq_consecutive_failures := n |}.

(** An open logger on the default path. *)
Definition logger : AuditLogger.t :=
  {| AuditLogger._path := "outputs/audit_log.jsonl";
     AuditLogger._file := {| name := "outputs/audit_log.jsonl";
                             mode := ModeAppend; closed := false |} |}.

Definition rate_limit : PostOutcome := PostReturns 80%float (http_status 429).
Definition server_error : PostOutcome := PostReturns 80%float (http_status 500).
Definition answer (content : string) : PostOutcome :=
  PostReturns 250%float (completion content 120 4).

(** Two rate-limited attempts in the first call and one in the second,
    each call answered by the secondary provider in the end. *)
Definition three_strikes : list PostOutcome :=
  [rate_limit; rate_limit; answer "NO."; rate_limit; answer "NO."].

(** One call of the triage stage for article ["A1"] on a scripted network. *)
Definition call (script : list PostOutcome) (label : option string) (w : World)
  : (exn + LlmResult) * World :=
  call_llm (env_of script) "Is the study relevant?" config "triage" logger
    "A1" label w.

(** The process after two calls on the [three_strikes] network. *)
Definition after_three_strikes : World :=
  snd (call three_strikes None (snd (call three_strikes None (world_at 0)))).

End Scenario.

(* ===================================================================== *)
(** * More vocabulary                                                     *)
(* ===================================================================== *)

Module Text.
Import PyStr.

(** A string of whitespace only. *)
Fixpoint all_space (s : string) : bool :=
  match s with
  | EmptyString => true
  | String c s' => isspace c && all_space s'
  end.

(** The window [_parse_decision] looks at first, and the text it scans. *)
Definition first_part (text : string) : string :=
  upper (slice_to 10 (strip text)).

Definition scanned (text : string) : string := upper (strip text).

(** The character [c] occurs in [s]. *)
Fixpoint mentions (c : ascii) (s : string) : bool :=
  match s with
  | EmptyString => false
  | String a s' => Ascii.eqb a c || mentions c s'
  end.

(** Text of ASCII characters only.  On such text [str.upper],
    [str.strip] and the classes [\s], [\w] and [\d] of [re] are the
    functions of [PyStr]; beyond it Python follows Unicode, where
    upper-casing can change the length of a string. *)
Fixpoint is_ascii (s : string) : bool :=
  match s with
  | EmptyString => true
  | String c s' => (code c <? 128)%nat && is_ascii s'
  end.

(** The name of one entry of a directory: not empty, without slash and
    without the character NUL, which no path may hold, and neither [.]
    nor [..], which name other directories. *)
Definition proper_name (s : string) : bool :=
  negb (String.eqb s "") && negb (mentions "/" s)
  && negb (mentions (ascii_of_nat 0) s)
  && negb (String.eqb s ".") && negb (String.eqb s "..").

End Text.

(** Vocabulary for the records of the audit log. *)
Module Records.
Import Runtime.

(** The value the [extra] argument of [AuditLogger.log] gives to key [k]:
    the one of its last binding of [k], if it has any. *)
Definition overriding (k : string) (extra : option dict) : option pyval :=
  match extra with
  | Some e => dict_get k (rev e)
  | None => None
  end.

(** The keys of the record that [AuditLogger.log] builds. *)
Definition standard_keys : list string :=
  [ "timestamp"; "module"; "article_id"; "decision"; "confidence";
    "prompt_hash"; "provider"; "tokens_in"; "tokens_out"; "latency_ms";
    "raw_response" ].

(** The record names the call it was written for. *)
Definition identifies (env : Env) (prompt stage article_id : string)
    (line : dict) : Prop :=
  map fst line = standard_keys
  /\ dict_get "module" line = Some (PyStr stage)
  /\ dict_get "article_id" line = Some (PyStr article_id)
  /\ dict_get "prompt_hash" line
     = Some (PyStr (Utils._hash_prompt env prompt)).

End Records.



(* ===================================================================== *)
(** * What the callers of [call_llm] share                                *)
(* ===================================================================== *)

Module Callers.
Import Runtime.

(** The exceptions of the callers: those of the modules above and the two
    that Python raises itself, when a call does not fit the signature of
    the function called and when a value has not the attribute asked for. *)
Inductive failure : Type :=
| Raised (e : exn)
| TypeError
| AttributeError.

Definition R (A : Type) : Type := World -> (failure + A) * World.

Definition rret {A} (a : A) : R A := fun w => (inr a, w).


Definition rbind {A B} (c : R A) (k : A -> R B) : R B :=
  fun w => match c w with
           | (inr a, w') => k a w'
           | (inl f, w') => (inl f, w')
           end.

(** A computation of the modules above, as a caller runs it. *)
Definition run {A} (c : M A) : R A :=
  fun w => match c w with
           | (inr a, w') => (inr a, w')
           | (inl e, w') => (inl (Raised e), w')
           end.

Definition rlift {A} (r : failure + A) : R A := fun w => (r, w).

(** A value of an id column of a data frame: a string or an integer.
    (Other values, such as floats, are not modelled.) *)
Inductive cell : Type :=
| CellStr (s : string)
| CellInt (z : Z).

(** [str(v)] *)
Definition str (v : cell) : string :=
  match v with
  | CellStr s => s
  | CellInt z => NilZero.string_of_int (Z.to_int z)
  end.

(** [v == s] for a string [s]: an integer equals no string. *)
Definition cell_eq_str (v : cell) (s : string) : bool :=
  match v with
  | CellStr s' => String.eqb s' s
  | CellInt _ => false
  end.

(** A row of the corpus, as the loops read it: [row["title"]],
    [row.get("abstract", "")] and [row["id"]]. *)
Record Row : Type := {
  title : string;
  abstract : option string;
  id : cell
}.

(** Ctrl-C.  [KeyboardInterrupt] is no [Exception]: [call_llm] has no
    handler for it, the loops have one, which ends the loop and lets the
    function return what it has.  The user is a parameter of a loop: for
    the row with index [n] of the loop, an oracle says whether the
    interrupt arrives while that row is worked on, and where: before the
    work on the row begins, or between the result and its line in the
    file.  An interrupt in the middle of a call or of a write leaves the
    process somewhere between these two states and is not modelled. *)
Inductive interrupt : Type :=
| AtStart
| AtWrite.

(** The entries of the configuration that the loops read besides those of
    [call_llm]: [config["gold_standard"]["criteria"]] and
    [config["paths"]["outputs"]].  The loops are modelled for a
    configuration that has them; without them they raise [KeyError]
    before anything else happens. *)
Record Settings : Type := {
  llm : Utils.Config;
  criteria : list string;
  outputs : string
}.

(** [with open(path, "a") as f: f.write(json.dumps(line) + "\n")] *)
Definition append_to (path : string) (line : dict) : M unit :=
  let* f := on_fs (py_open path ModeAppend) in
  on_fs (fun fs =>
           match append_line f line fs with
           | inl e => inl e
           | inr fs' => inr (tt, fs')
           end).

(** Python binds the keywords of a call to the parameters of the function
    before the body runs; a keyword that names no parameter raises
    [TypeError]. *)
Definition bind_keywords (parameters keywords : list string)
  : failure + unit :=
  if forallb (fun k => existsb (String.eqb k) parameters) keywords
  then inr tt else inl TypeError.

(** The parameters of [call_llm]. *)
Definition call_llm_parameters : list string :=
  [ "prompt"; "config"; "stage"; "audit_logger"; "article_id";
    "decision_label" ].

End Callers.

Declare Scope caller_scope.
Delimit Scope caller_scope with caller.
Notation "'let*' x ':=' c 'in' k" := (Callers.rbind c (fun x => k))
  (at level 10, x pattern, c at level 100, k at level 200) : caller_scope.
Notation "'do' c 'in' k" := (Callers.rbind c (fun _ => k))
  (at level 10, c at level 100, k at level 200) : caller_scope.

(* ===================================================================== *)
(** * src/triage.py: the corpus loop                                      *)
(* ===================================================================== *)

Module TriageCorpus.
Import Runtime Callers.

(** [json.dumps(result)]: the line of a result. *)
Definition line_of (r : Triage.TriageResult) : dict :=
  [ ("article_id", PyStr (Triage.article_id r));
    ("decision", PyStr (Triage.decision r));
    ("justification", PyStr (Triage.justification r));
    ("confidence", PyFloat (Triage.confidence r));
    ("tokens_used", PyInt (Triage.tokens_used r));
    ("latency_ms", PyFloat (Triage.latency_ms r));
    ("provider", PyStr (Triage.provider r));
    ("timestamp", PyStr (Triage.timestamp r)) ].

Section WithEnv.
Variable env : Env.

Variable interrupts : nat -> option interrupt.

(** The [for] loop of [triage_corpus] inside its [try], from the row with
    index [n] on, over the rows that are left and with the results so
    far.  On [KeyboardInterrupt] the handler logs a warning and the
    function goes on to return the results it has. *)
Fixpoint triage_rows (n : nat) (rows : list Row) (criteria : list string)
    (config : Utils.Config) (audit : AuditLogger.t) (output_path : string)
    (results : list Triage.TriageResult) : M (list Triage.TriageResult) :=
  match rows with
  | [] => ret results
  | row :: rows' =>
      match interrupts n with
      | Some AtStart => ret results
      | Some AtWrite =>
          let* result :=
            Triage.triage_article env (title row) (default "" (abstract row))
              (str (id row)) criteria config audit in
          ret (results ++ [result])%list
      | None =>
          let* result :=
            Triage.triage_article env (title row) (default "" (abstract row))
              (str (id row)) criteria config audit in
          let results := (results ++ [result])%list in
          do append_to output_path (line_of result) in
          triage_rows (S n) rows' criteria config audit output_path results
      end
  end.

(** [triage_corpus(corpus_df, config)]: the rows of the data frame in
    their order, and the records of the data frame returned.  The
    [finally] clause closes the logger, which nothing refers to
    afterwards; the summary that follows is written to the console. *)
Definition triage_corpus (corpus_df : list Row) (config : Settings)
  : M (list Triage.TriageResult) :=
  let criteria := criteria config in
  let output_path := outputs config +:+ "triage_results.jsonl" in
  let results := [] in
  let* audit := AuditLogger.__init__ "outputs/audit_log.jsonl" in
  triage_rows 0 corpus_df criteria (llm config) audit output_path results.

End WithEnv.

End TriageCorpus.

(* ===================================================================== *)
(** * src/summarization.py                                                *)
(* ===================================================================== *)

Module Summarization.
Import Runtime PyStr.

(** The regex class [\d] on ASCII. *)
Definition isdigit (c : ascii) : bool := between 48 57 c.

Fixpoint count_while (p : ascii -> bool) (s : string) : nat :=
  match s with
  | EmptyString => 0
  | String c s' => if p c then S (count_while p s') else 0
  end.

(** The length of the match of [\d+\.\s*] at the start of [s], if there
    is one: all the digits, the dot, all the whitespace.  With fewer
    digits the dot would not follow, so the first try is the only one. *)
Definition match_marker (s : string) : option nat :=
  match count_while isdigit s with
  | O => None
  | S d =>
      match slice_from (S d) s with
      | String c rest =>
          if Ascii.eqb c "." then Some (S d + 1 + count_while isspace rest)
          else None
      | EmptyString => None
      end
  end.

(** [re.split(r"\d+\.\s*", s)], from a position that is [skip] characters
    before the end of the last match. *)
Fixpoint re_split_from (s : string) (skip : nat) : list string :=
  match s with
  | EmptyString => [EmptyString]
  | String c s' =>
      match skip with
      | S k => re_split_from s' k
      | O =>
          match match_marker s with
          | Some n => EmptyString :: re_split_from s' (n - 1)
          | None =>
              match re_split_from s' 0 with
              | piece :: pieces => String c piece :: pieces
              | [] => [String c EmptyString]
              end
          end
      end
  end.

Definition re_split_markers (s : string) : list string := re_split_from s 0.

(** [s.split(sep)] for a separator of one character *)
Fixpoint split_on (sep : ascii) (s : string) : list string :=
  match s with
  | EmptyString => [EmptyString]
  | String c s' =>
      if Ascii.eqb c sep then EmptyString :: split_on sep s'
      else match split_on sep s' with
           | piece :: pieces => String c piece :: pieces
           | [] => [String c EmptyString]
           end
  end.

(** [[s.strip() for s in l if s.strip()]] *)
Definition stripped_nonblank (l : list string) : list string :=
  List.filter (fun s => negb (String.eqb s "")) (map strip l).

(** Vocabulary of the statements: a digit directly followed by a dot
    somewhere in [s], a digit at the end of [s], digits only. *)
Fixpoint digit_dot (s : string) : bool :=
  match s with
  | String a (String b _ as s') =>
      (isdigit a && Ascii.eqb b ".") || digit_dot s'
  | _ => false
  end.

Fixpoint ends_digit (s : string) : bool :=
  match s with
  | EmptyString => false
  | String c EmptyString => isdigit c
  | String _ s' => ends_digit s'
  end.

Fixpoint all_digits (s : string) : bool :=
  match s with
  | EmptyString => true
  | String c s' => isdigit c && all_digits s'
  end.

Record Summary : Type := {
  problem : string;
  solution : string;
  findings : string
}.

(** [_parse_summary(text)] *)
Definition _parse_summary (text : string) : Summary :=
  let numbered := re_split_markers (strip text) in
  let numbered := stripped_nonblank numbered in
  match numbered with
  | a :: b :: c :: _ => {| problem := a; solution := b; findings := c |}
  | _ =>
      let lines := stripped_nonblank (split_on (ascii_of_nat 10) (strip text)) in
      match lines with
      | a :: b :: c :: _ => {| problem := a; solution := b; findings := c |}
      | _ => {| problem := strip text; solution := ""; findings := "" |}
      end
  end.

Record SummaryResult : Type := {
  article_id : string;
  summary : Summary;
  raw_response : string;
  tokens_used : Z;
  latency_ms : float;
  provider : string;
  timestamp : string
}.

Section WithEnv.
Variable env : Env.

(** [summarize_article(title, abstract, article_id, config, audit_logger)] *)
Definition summarize_article (title abstract article_id : string)
    (config : Utils.Config) (audit_logger : AuditLogger.t)
  : M SummaryResult :=
  let* prompt :=
    lift (load_prompt env "summarization"
            [("title", title); ("abstract", abstract)]) in
  let* response :=
    Utils.call_llm env prompt config "summarization" audit_logger article_id
      None in
  let parsed := _parse_summary (Utils.text (Utils.result response)) in
  let* timestamp := now env in
  ret {| article_id := article_id;
         summary := parsed;
         raw_response := Utils.text (Utils.result response);
         tokens_used :=
           Utils.tokens_input (Utils.result response)
           + Utils.tokens_output (Utils.result response);
         latency_ms := Utils.latency_ms (Utils.result response);
         provider := Utils.provider response;
         timestamp := timestamp |}.

End WithEnv.

End Summarization.

(* ===================================================================== *)
(** * src/summarization.py: the corpus loop                               *)
(* ===================================================================== *)

Module SummarizeCorpus.
Import Runtime Callers Summarization.

(** A row of the triage results, as the loop reads it:
    [row["article_id"]] and [row["decision"]]. *)
Record Decided : Type := {
  decided_id : cell;
  decided : string
}.

(** [json.dumps(result)] *)
Definition line_of (r : SummaryResult) : dict :=
  [ ("article_id", PyStr (article_id r));
    ("problem", PyStr (problem (summary r)));
    ("solution", PyStr (solution (summary r)));
    ("findings", PyStr (findings (summary r)));
    ("raw_response", PyStr (raw_response r));
    ("tokens_used", PyInt (tokens_used r));
    ("latency_ms", PyFloat (latency_ms r));
    ("provider", PyStr (provider r));
    ("timestamp", PyStr (timestamp r)) ].

(** [corpus_df[corpus_df["id"] == art_id]]: the id column as it is
    against the string [art_id]. *)
Definition rows_with_id (corpus_df : list Row) (art_id : string) : list Row :=
  List.filter (fun cr => cell_eq_str (id cr) art_id) corpus_df.

(** The articles the loop has something to do for: decided YES and, under
    the string of their id, in the corpus. *)
Definition eligible (triage_results : list Decided) (corpus_df : list Row)
  : list string :=
  map (fun r => str (decided_id r))
    (List.filter
       (fun r => String.eqb (decided r) "YES"
                 && existsb (fun cr => cell_eq_str (id cr) (str (decided_id r)))
                      corpus_df)
       triage_results).

Section WithEnv.
Variable env : Env.
Variable interrupts : nat -> option interrupt.

(** The [for] loop of [summarize_corpus] inside its [try], from the row
    with index [n] of the included rows on. *)
Fixpoint summarize_rows (n : nat) (included : list Decided)
    (corpus_df : list Row) (config : Utils.Config) (audit : AuditLogger.t)
    (output_path : string) (results : list SummaryResult)
  : M (list SummaryResult) :=
  match included with
  | [] => ret results
  | row :: included' =>
      match interrupts n with
      | Some AtStart => ret results
      | at_write =>
          let art_id := str (decided_id row) in
          match rows_with_id corpus_df art_id with
          | [] =>
              summarize_rows (S n) included' corpus_df config audit
                output_path results
          | cr :: _ =>
              let* result :=
                summarize_article env (title cr) (default "" (abstract cr))
                  art_id config audit in
              let results := (results ++ [result])%list in
              match at_write with
              | Some _ => ret results
              | None =>
                  do append_to output_path (line_of result) in
                  summarize_rows (S n) included' corpus_df config audit
                    output_path results
              end
          end
      end
  end.

(** [summarize_corpus(triage_results, corpus_df, config)] *)
Definition summarize_corpus (triage_results : list Decided)
    (corpus_df : list Row) (config : Settings) : M (list SummaryResult) :=
  let included :=
    List.filter (fun r => String.eqb (decided r) "YES") triage_results in
  let output_path := outputs config +:+ "summaries.jsonl" in
  let results := [] in
  let* audit := AuditLogger.__init__ "outputs/audit_log.jsonl" in
  summarize_rows 0 included corpus_df (llm config) audit output_path results.

End WithEnv.

End SummarizeCorpus.

(* ===================================================================== *)
(** * src/extraction.py                                                   *)
(* ===================================================================== *)

Module Json.

Set Warnings "-register-all".

(** What [json.loads] returns. *)
Inductive json : Type :=
| JNull
| JBool (b : bool)
| JInt (z : Z)
| JFloat (f : float)
| JStr (s : string)
| JArr (l : list json)
| JObj (o : list (string * json)).

(** A [dict] with string keys, in insertion order. *)
Definition object : Type := list (string * json).


(** [o[k] = v] *)
Fixpoint set (k : string) (v : json) (o : object) : object :=
  match o with
  | [] => [(k, v)]
  | (k', v') :: o' =>
      if String.eqb k k' then (k, v) :: o' else (k', v') :: set k v o'
  end.


End Json.

Module Extraction.
Import Runtime PyStr Json Callers.
Local Open Scope caller_scope.


(** The longest prefix of [s] that ends with [c]. *)
Fixpoint through_last (c : ascii) (s : string) : option string :=
  match s with
  | EmptyString => None
  | String a s' =>
      match through_last c s' with
      | Some r => Some (String a r)
      | None => if Ascii.eqb a c then Some (String a EmptyString) else None
      end
  end.

(** [re.search(r"\{.*\}", s, re.DOTALL).group()]: at the leftmost brace
    that a closing brace follows, everything up to the last closing
    brace. *)
Fixpoint re_search_braces (s : string) : option string :=
  match s with
  | EmptyString => None
  | String a s' =>
      if Ascii.eqb a "{" then
        match through_last "}" s' with
        | Some r => Some (String a r)
        | None => re_search_braces s'
        end
      else re_search_braces s'
  end.

Section WithJson.
(** [json.loads(s)], [None] when it raises [json.JSONDecodeError]. *)
Variable loads : string -> option json.

(** [_parse_json_response(text)] *)
Definition _parse_json_response (text : string) : json :=
  let failed := JObj [("parse_error", JBool true); ("raw", JStr text)] in
  match loads text with
  | Some v => v
  | None =>
      match re_search_braces text with
      | Some m =>
          match loads m with
          | Some v => v
          | None => failed
          end
      | None => failed
      end
  end.


Variable env : Env.


End WithJson.

End Extraction.

(* ===================================================================== *)
(** * src/cross_validation.py                                             *)
(* ===================================================================== *)

Module CrossValidation.
Import Runtime PyStr Callers.
Local Open Scope caller_scope.

Definition SYNONYM_CRITERIA : list string :=
  [ "Presents an AI-powered educational tool or adaptive learning system";
    "Uses a large language model as a core element of the system";
    "Reports experimental assessment or working prototype" ].

(** ["\n".join(f"- {c}" for c in criteria)] *)
Definition criteria_text (criteria : list string) : string :=
  String.concat Triage.newline (map (fun c => "- " +:+ c) criteria).

Definition quote : string := String (ascii_of_nat 34) EmptyString.

Record CrossResult : Type := {
  article_id : string;
  decision : string;
  justification : string;
  confidence : float;
  run_name : string
}.

(** [json.dumps(result)] *)
Definition line_of (r : CrossResult) : dict :=
  [ ("article_id", PyStr (article_id r));
    ("decision", PyStr (decision r));
    ("justification", PyStr (justification r));
    ("confidence", PyFloat (confidence r));
    ("run", PyStr (run_name r)) ].

(** [_build_prompt_run3(criteria, title, abstract)]: the template has the
    three fields and no other brace, so [format] puts the values between
    its pieces. *)
Definition _build_prompt_run3 (criteria : list string) (title abstract : string)
  : string :=
  let nl := Triage.newline in
  "You are an expert in systematic literature reviews." +:+ nl +:+ nl
  +:+ "Inclusion criteria:" +:+ nl +:+ criteria_text criteria +:+ nl +:+ nl
  +:+ "Article:" +:+ nl
  +:+ "Abstract: " +:+ abstract +:+ nl
  +:+ "Title: " +:+ title +:+ nl +:+ nl
  +:+ "Question: Should this article be included in the systematic review?"
  +:+ nl
  +:+ "Answer ONLY " +:+ quote +:+ "YES" +:+ quote +:+ " or " +:+ quote
  +:+ "NO" +:+ quote +:+ " and justify in one sentence.".

Section WithEnv.
Variable env : Env.

(** [_build_prompt_run1(criteria, title, abstract)] *)
Definition _build_prompt_run1 (criteria : list string) (title abstract : string)
  : exn + string :=
  load_prompt env "triage"
    [("criteria", criteria_text criteria); ("title", title);
     ("abstract", abstract)].

(** [_build_prompt_run2(title, abstract)] *)
Definition _build_prompt_run2 (title abstract : string) : exn + string :=
  load_prompt env "triage"
    [("criteria", criteria_text SYNONYM_CRITERIA); ("title", title);
     ("abstract", abstract)].

Variable interrupts : nat -> option interrupt.

(** The [for] loop of [_run_triage] inside its [try], from the row with
    index [n] on.  The call names the keywords as the source does. *)
Fixpoint run_rows (n : nat) (rows : list Row) (config : Utils.Config)
    (prompt_builder : string -> string -> exn + string) (name : string)
    (output_path : string) (force_together : bool) (audit : AuditLogger.t)
    (results : list CrossResult) : R (list CrossResult) :=
  match rows with
  | [] => rret results
  | row :: rows' =>
      match interrupts n with
      | Some AtStart => rret results
      | at_write =>
          let* prompt :=
            run (lift (prompt_builder (title row)
                         (default "" (abstract row)))) in
          do rlift (bind_keywords call_llm_parameters
                      [ "prompt"; "config"; "stage"; "audit_logger";
                        "article_id"; "use_cache"; "force_together" ]) in
          let* response :=
            run (Utils.call_llm env prompt config "triage" audit
                   (str (id row)) None) in
          let* (decision, justification, confidence) :=
            run (lift (Triage._parse_decision
                         (Utils.text (Utils.result response)))) in
          let result :=
            {| article_id := str (id row); decision := decision;
               justification := justification; confidence := confidence;
               run_name := name |} in
          let results := (results ++ [result])%list in
          match at_write with
          | Some _ => rret results
          | None =>
              do run (append_to output_path (line_of result)) in
              run_rows (S n) rows' config prompt_builder name output_path
                force_together audit results
          end
      end
  end.

(** [_run_triage(corpus_df, config, prompt_builder, run_name, output_path,
    force_together)] *)
Definition _run_triage (corpus_df : list Row) (config : Utils.Config)
    (prompt_builder : string -> string -> exn + string) (name : string)
    (output_path : string) (force_together : bool) : R (list CrossResult) :=
  let results := [] in
  let* audit :=
    run (AuditLogger.__init__
           ("outputs/audit_log_crossval_" +:+ name +:+ ".jsonl")) in
  run_rows 0 corpus_df config prompt_builder name output_path force_together
    audit results.

End WithEnv.

End CrossValidation.

(** More states of the process to run the code in. *)
Module Situations.
Import Runtime Utils Scenario.

(** The process after one call that the primary provider answered: the
    audit log holds one record. *)
Definition after_one_call : World := snd (call [] None (world_at 0)).

(** A working directory where [outputs] is a regular file. *)
Definition outputs_is_a_file : World :=
  {| fs := {| dirs := ∅; files := {[ "outputs" := [] ]} |};
     clock := 0; sent := []; slept := []; _groq_consecutive_failures := 0 |}.

(** One article summarised, on a network that answers in the numbered
    format. *)
Definition summarized
  : (exn + Summarization.SummaryResult) * World :=
  Summarization.summarize_article
    (env_of [answer "1. Tutors lack feedback. 2. An LLM tutor; 3. Gains."])
    "A tutor" "We built one." "A1" config logger (world_at 0).

Definition summarized_result : Summarization.SummaryResult :=
  {| Summarization.article_id := "A1";
     Summarization.summary :=
       {| Summarization.problem := "Tutors lack feedback.";
          Summarization.solution := "An LLM tutor;";
          Summarization.findings := "Gains." |};
     Summarization.raw_response :=
       "1. Tutors lack feedback. 2. An LLM tutor; 3. Gains.";
     Summarization.tokens_used := 124;
     Summarization.latency_ms := 250%float;
     Summarization.provider := "groq";
     Summarization.timestamp := "2026-01-01T00:00:00+00:00" |}.

(** A [json.loads] that knows two documents. *)
Definition loads_two (s : string) : option Json.json :=
  if String.eqb s "{}" then Some (Json.JObj [])
  else if String.eqb s "[]" then Some (Json.JArr [])
  else None.

End Situations.

(* ===================================================================== *)
(** * Facts about the string primitives                                   *)
(* ===================================================================== *)

Module PyStrFacts.
Import PyStr.

Lemma startswith_spec (w s : string) :
  startswith w s = true <-> exists t, s = w +:+ t.
Proof.
  revert s; induction w as [|a w IH]; intros s; simpl.
  - split; [intros _; now exists s | reflexivity].
  - destruct s as [|c s]; simpl.
    + split; [discriminate | intros [t Ht]; discriminate].
    + rewrite andb_true_iff, Ascii.eqb_eq, IH. split.
      * intros [-> [t ->]]. now exists t.
      * intros [t Ht]. injection Ht as -> ->. split; [reflexivity | now exists t].
Qed.

Lemma occurs_here (w s : string) :
  OccursAt w s 0 <-> startswith w s = true.
Proof.
  rewrite startswith_spec. split.
  - intros (pre & post & -> & Hlen). destruct pre; [|discriminate].
    now exists post.
  - intros [t ->]. now exists EmptyString, t.
Qed.

Lemma occurs_shift (w : string) (c : ascii) (s : string) (k : nat) :
  OccursAt w (String c s) (S k) <-> OccursAt w s k.
Proof.
  split.
  - intros (pre & post & Heq & Hlen). destruct pre as [|a pre]; [discriminate|].
    simpl in Heq, Hlen. injection Heq as -> ->. exists pre, post. split; [reflexivity | lia].
  - intros (pre & post & -> & <-). now exists (String c pre), post.
Qed.

Lemma occurs_empty (w : string) (k : nat) : OccursAt w EmptyString (S k) -> False.
Proof. intros (pre & post & Heq & Hlen). destruct pre; discriminate. Qed.

(** [find_from] returns the least offset at which the token occurs. *)
Lemma find_from_some (w s : string) (i j : nat) :
  find_from w s i = Some j ->
  exists k, j = i + k /\ OccursAt w s k /\ forall k', k' < k -> ~ OccursAt w s k'.
Proof.
  revert i; induction s as [|c s IH]; intros i; simpl;
    destruct (startswith w _) eqn:Hsw.
  - intros [= <-]. exists 0. rewrite occurs_here. repeat split; [lia | assumption | lia].
  - discriminate.
  - intros [= <-]. exists 0. rewrite occurs_here. repeat split; [lia | assumption | lia].
  - intros H. destruct (IH _ H) as (k & -> & Hk & Hmin). exists (S k).
    split; [lia|]. split; [now apply occurs_shift|].
    intros [|k'] Hlt.
    + rewrite occurs_here. congruence.
    + rewrite occurs_shift. apply Hmin. lia.
Qed.

Lemma find_from_none (w s : string) (i : nat) :
  find_from w s i = None -> forall k, ~ OccursAt w s k.
Proof.
  revert i; induction s as [|c s IH]; intros i; simpl;
    destruct (startswith w _) eqn:Hsw; try discriminate.
  - intros _ [|k]; [rewrite occurs_here; congruence | exact (occurs_empty w k)].
  - intros H [|k]; [rewrite occurs_here; congruence|].
    rewrite occurs_shift. now apply (IH (S i)).
Qed.

(** [w in s] holds exactly when [w] occurs in [s]. *)
Lemma contains_spec (w s : string) : contains w s = true <-> Occurs w s.
Proof.
  unfold contains, find, Occurs. destruct (find_from w s 0) as [j|] eqn:H.
  - apply find_from_some in H as (k & _ & Hk & _). split; [now exists k | reflexivity].
  - split; [discriminate | intros [k Hk]]. now apply (find_from_none _ _ _ H) in Hk.
Qed.

Lemma match_literal_spec (w s : string) (prev l : option ascii) (rest : string) :
  match_literal w s prev = Some (l, rest) <->
  s = w +:+ rest /\ l = last_char prev w.
Proof.
  revert s prev; induction w as [|a w IH]; intros s prev; simpl.
  - split; [intros [= -> ->]; now split | intros [-> ->]; reflexivity].
  - destruct s as [|c s]; simpl.
    + split; [discriminate | intros [? _]; discriminate].
    + destruct (Ascii.eqb_spec a c) as [->|Hne].
      * rewrite IH. split; intros [H1 H2]; (split; [|exact H2]).
        -- now rewrite H1.
        -- now injection H1.
      * split; [discriminate | intros [[= ? ?] _]; congruence].
Qed.

Lemma head_append (w t : string) :
  w <> EmptyString -> head (w +:+ t) = head w.
Proof. destruct w; [congruence | reflexivity]. Qed.

Lemma last_char_nonempty (prev prev' : option ascii) (w : string) :
  w <> EmptyString -> last_char prev w = last_char prev' w.
Proof. destruct w; [congruence | reflexivity]. Qed.

Lemma wordy_nonempty (w : string) : wordy w = true -> w <> EmptyString.
Proof. destruct w; [discriminate | discriminate]. Qed.

(** At the current position the matcher accepts exactly a standalone
    occurrence. *)
Lemma match_word_here_spec (w : string) (prev : option ascii) (s : string) :
  wordy w = true ->
  match_word_here w prev s = true <-> StandaloneIn prev w s 0.
Proof.
  intros Hw. pose proof (wordy_nonempty _ Hw) as Hne.
  apply andb_true_iff in Hw as [Hfirst Hlast].
  unfold match_word_here, StandaloneIn, word_boundary. split.
  - intros [Hb Hm]%andb_true_iff.
    destruct (match_literal w s prev) as [[l rest]|] eqn:Hlit; [|discriminate].
    apply match_literal_spec in Hlit as [-> ->].
    rewrite (head_append w rest Hne), Hfirst in Hb.
    rewrite (last_char_nonempty prev None w Hne), Hlast in Hm.
    exists EmptyString, rest. simpl. repeat split.
    + now destruct (opt_word prev).
    + now destruct (opt_word (head rest)).
  - intros (pre & post & -> & Hlen & Hpre & Hpost).
    destruct pre; [simpl in *|discriminate].
    change (EmptyString +:+ w +:+ post) with (w +:+ post).
    rewrite (head_append w post Hne), Hfirst, Hpre. simpl.
    assert (H : match_literal w (w +:+ post) prev
                = Some (last_char prev w, post))
      by now apply match_literal_spec.
    rewrite H.
    now rewrite (last_char_nonempty prev None w Hne), Hlast, Hpost.
Qed.

Lemma standalone_shift (prev : option ascii) (w : string) (c : ascii)
    (s : string) (k : nat) :
  StandaloneIn prev w (String c s) (S k) <-> StandaloneIn (Some c) w s k.
Proof.
  split.
  - intros (pre & post & Heq & Hlen & Hpre & Hpost).
    destruct pre as [|a pre]; [discriminate|].
    simpl in Heq, Hlen, Hpre. injection Heq as -> ->.
    exists pre, post. repeat split; [lia | assumption | assumption].
  - intros (pre & post & -> & <- & Hpre & Hpost).
    exists (String c pre), post. now repeat split.
Qed.

Lemma standalone_empty (prev : option ascii) (w : string) (k : nat) :
  StandaloneIn prev w EmptyString (S k) -> False.
Proof. intros (pre & post & Heq & Hlen & _). destruct pre; discriminate. Qed.

(** The search returns the least offset of a standalone occurrence. *)
Lemma re_search_from_some (w : string) (prev : option ascii) (s : string)
    (i j : nat) :
  wordy w = true ->
  re_search_from w prev s i = Some j ->
  exists k, j = i + k /\ StandaloneIn prev w s k
            /\ forall k', k' < k -> ~ StandaloneIn prev w s k'.
Proof.
  intros Hw. revert prev i; induction s as [|c s IH]; intros prev i; simpl;
    destruct (match_word_here w prev _) eqn:Hm.
  - intros [= <-]. exists 0. rewrite <- match_word_here_spec by assumption.
    repeat split; [lia | assumption | lia].
  - discriminate.
  - intros [= <-]. exists 0. rewrite <- match_word_here_spec by assumption.
    repeat split; [lia | assumption | lia].
  - intros H. destruct (IH _ _ H) as (k & -> & Hk & Hmin). exists (S k).
    split; [lia|]. split; [now apply standalone_shift|].
    intros [|k'] Hlt.
    + rewrite <- match_word_here_spec by assumption. congruence.
    + rewrite standalone_shift. apply Hmin. lia.
Qed.

Lemma re_search_from_none (w : string) (prev : option ascii) (s : string)
    (i : nat) :
  wordy w = true ->
  re_search_from w prev s i = None -> forall k, ~ StandaloneIn prev w s k.
Proof.
  intros Hw. revert prev i; induction s as [|c s IH]; intros prev i; simpl;
    destruct (match_word_here w prev _) eqn:Hm; try discriminate.
  - intros _ [|k]; [|exact (standalone_empty prev w k)].
    rewrite <- match_word_here_spec by assumption. congruence.
  - intros H [|k].
    + rewrite <- match_word_here_spec by assumption. congruence.
    + rewrite standalone_shift. now apply (IH (Some c) (S i)).
Qed.

(** [re.search(r"\bW\b", s)] finds the first standalone occurrence of [W]. *)
Lemma re_search_word_first (w s : string) (i : nat) :
  wordy w = true ->
  re_search_word w s = Some i ->
  StandaloneAt w s i /\ forall j, j < i -> ~ StandaloneAt w s j.
Proof.
  intros Hw H. apply re_search_from_some in H as (k & -> & Hk & Hmin); [|assumption].
  split; [exact Hk | exact Hmin].
Qed.

(** [bool(re.search(r"\bW\b", s))] holds exactly when [W] stands alone
    somewhere in [s]. *)
Lemma has_word_spec (w s : string) :
  wordy w = true -> has_word w s = true <-> Standalone w s.
Proof.
  intros Hw. unfold has_word, re_search_word, Standalone.
  destruct (re_search_from w None s 0) as [j|] eqn:H.
  - apply re_search_from_some in H as (k & _ & Hk & _); [|assumption].
    split; [now exists k | reflexivity].
  - split; [discriminate | intros [k Hk]].
    now apply (re_search_from_none _ _ _ _ Hw H) in Hk.
Qed.

(** A standalone occurrence is an occurrence. *)
Lemma standalone_occurs (w s : string) : Standalone w s -> Occurs w s.
Proof.
  intros (i & pre & post & Heq & Hlen & _). exists i, pre, post. now split.
Qed.

End PyStrFacts.

(* ===================================================================== *)
(** * The decision parser                                                 *)
(* ===================================================================== *)

Module TriageFacts.
Import Runtime PyStr PyStrFacts Triage.

Lemma wordy_yes : wordy "YES" = true.
Proof. reflexivity. Qed.

Lemma wordy_no : wordy "NO" = true.
Proof. reflexivity. Qed.

(** A token found by the regular expression is found by [index] too. *)
Lemma has_word_index (w s : string) :
  wordy w = true -> has_word w s = true -> exists i, str_index w s = inr i.
Proof.
  intros Hw H. apply has_word_spec in H; [|assumption].
  apply standalone_occurs, contains_spec in H.
  unfold contains in H. unfold str_index.
  destruct (find w s) as [i|]; [now exists i | discriminate].
Qed.

(** The parser is total: the two calls of [index] never raise. *)
Lemma _parse_decision_total (text : string) :
  exists d j c, _parse_decision text = inr (d, j, c).
Proof.
  unfold _parse_decision.
  destruct (contains "YES" _); [now eexists _, _, _|].
  destruct (contains "NO" _); [now eexists _, _, _|].
  destruct (has_word "YES" _) eqn:Hy, (has_word "NO" _) eqn:Hn; simpl;
    try now eexists _, _, _.
  destruct (has_word_index _ _ wordy_yes Hy) as [y ->].
  destruct (has_word_index _ _ wordy_no Hn) as [n ->].
  now eexists _, _, _.
Qed.

(** With both tokens standing alone and neither within the first ten
    characters, the confidence is 0.5 and the decision goes to the token
    whose first occurrence as a substring comes first. *)
Lemma _parse_decision_both (text : string) :
  let clean := strip text in
  ~ Occurs "YES" (upper (slice_to 10 clean)) ->
  ~ Occurs "NO" (upper (slice_to 10 clean)) ->
  Standalone "YES" (upper clean) ->
  Standalone "NO" (upper clean) ->
  exists y n j,
    find "YES" (upper clean) = Some y /\ find "NO" (upper clean) = Some n
    /\ _parse_decision text
       = inr (if (y <? n)%nat then "YES" else "NO", j, 0.5%float).
Proof.
  intros clean Hpy Hpn Hy Hn. subst clean.
  rewrite <- contains_spec in Hpy, Hpn.
  apply not_true_is_false in Hpy, Hpn.
  apply (has_word_spec _ _ wordy_yes) in Hy.
  apply (has_word_spec _ _ wordy_no) in Hn.
  unfold _parse_decision. rewrite Hpy, Hpn, Hy, Hn. simpl.
  destruct (has_word_index _ _ wordy_yes Hy) as [y Ey].
  destruct (has_word_index _ _ wordy_no Hn) as [n En].
  rewrite Ey, En. unfold str_index in Ey, En.
  destruct (find "YES" _) as [y'|]; [|discriminate].
  destruct (find "NO" _) as [n'|]; [|discriminate].
  injection Ey as ->. injection En as ->.
  now eexists _, _, _.
Qed.

(** C3, at a response where the claim and the code part ways.  The first
    ten characters hold neither token; YES stands alone at offset 20 and
    the first standalone NO comes later, at offset 36; yet the parser
    answers NO, because [index] finds the letters NO inside KNOW at
    offset 15. *)
Theorem parse_decision_substring_before_token :
  let text := "It is hard to know: YES rather than NO" in
  let clean := strip text in
  ~ Occurs "YES" (upper (slice_to 10 clean))
  /\ ~ Occurs "NO" (upper (slice_to 10 clean))
  /\ StandaloneAt "YES" (upper clean) 20
  /\ StandaloneAt "NO" (upper clean) 36
  /\ (forall j, j < 36 -> ~ StandaloneAt "NO" (upper clean) j)
  /\ find "NO" (upper clean) = Some 15
  /\ _parse_decision text = inr ("NO", text, 0.5%float).
Proof.
  intros text clean.
  assert (Hy : re_search_word "YES" (upper clean) = Some 20) by reflexivity.
  assert (Hn : re_search_word "NO" (upper clean) = Some 36) by reflexivity.
  apply (re_search_word_first _ _ _ wordy_yes) in Hy as [Hy _].
  apply (re_search_word_first _ _ _ wordy_no) in Hn as [Hn Hfirst].
  refine (conj _ (conj _ (conj Hy (conj Hn (conj Hfirst (conj _ _)))))).
  - rewrite <- contains_spec. now vm_compute.
  - rewrite <- contains_spec. now vm_compute.
  - reflexivity.
  - now vm_compute.
Qed.

(** C7 as stated fails on the specification's own example: NO stands alone
    and YES does not occur, yet the confidence is 1.0, because the token
    lies within the first ten characters. *)
Lemma parse_decision_no_in_prefix :
  let text := "NO. The study lacks a working prototype." in
  Standalone "NO" (upper (strip text))
  /\ ~ Standalone "YES" (upper (strip text))
  /\ _parse_decision text
     = inr ("NO", "The study lacks a working prototype.", 1.0%float)
  /\ 1.0%float <> 0.8%float.
Proof.
  intros text. refine (conj _ (conj _ (conj _ _))).
  - apply (has_word_spec _ _ wordy_no). reflexivity.
  - rewrite <- (has_word_spec _ _ wordy_yes). now vm_compute.
  - now vm_compute.
  - intros H. apply (f_equal (fun x => PrimFloat.eqb x 1.0%float)) in H.
    vm_compute in H. discriminate.
Qed.

(** C7, amended: when neither token occurs within the first ten characters
    of the trimmed, upper-cased response, NO standing alone somewhere and
    YES standing alone nowhere give the decision NO with confidence 0.8. *)
Theorem parse_decision_only_no (text : string) :
  let clean := strip text in
  ~ Occurs "YES" (upper (slice_to 10 clean)) ->
  ~ Occurs "NO" (upper (slice_to 10 clean)) ->
  Standalone "NO" (upper clean) ->
  ~ Standalone "YES" (upper clean) ->
  exists justification,
    _parse_decision text = inr ("NO", justification, 0.8%float).
Proof.
  intros clean Hpy Hpn Hn Hy. subst clean.
  rewrite <- contains_spec in Hpy, Hpn.
  apply not_true_is_false in Hpy, Hpn.
  apply (has_word_spec _ _ wordy_no) in Hn.
  rewrite <- (has_word_spec _ _ wordy_yes) in Hy.
  apply not_true_is_false in Hy.
  unfold _parse_decision. rewrite Hpy, Hpn, Hy, Hn. simpl.
  now eexists.
Qed.

Lemma parse_decision_only_no_witness :
  exists justification,
    _parse_decision "The prototype is missing, so: no."
    = inr ("NO", justification, 0.8%float).
Proof.
  apply (parse_decision_only_no "The prototype is missing, so: no.").
  - rewrite <- contains_spec. now vm_compute.
  - rewrite <- contains_spec. now vm_compute.
  - apply (has_word_spec _ _ wordy_no). reflexivity.
  - rewrite <- (has_word_spec _ _ wordy_yes). now vm_compute.
Defined.

End TriageFacts.

(* ===================================================================== *)
(** * The fallback controller                                             *)
(* ===================================================================== *)

Module UtilsFacts.
Import Runtime Utils Trace.

Section WithEnv.
Variable env : Env.

(** The gateway sends one request and answers with [reply] of its outcome;
    nothing else of the world changes. *)
Lemma _call_provider_eq (prompt url key model : string) (t p : float)
    (m timeout : Z) (w : World) :
  let rq := {| req_url := url; req_api_key := key; req_model := model;
               req_prompt := prompt; req_temperature := t; req_top_p := p;
               req_max_tokens := m; req_timeout := timeout |} in
  let o := http_post env (length (sent w)) rq in
  _call_provider env prompt url key model t p m timeout w
  = (reply o, record_sent rq o w).
Proof.
  intros rq o. unfold _call_provider, bind, post, reply, record_sent.
  fold rq. fold o. destruct o as [e|lat resp]; [reflexivity|].
  destruct (status_code resp =? 429)%Z; [reflexivity|].
  destruct ((400 <=? status_code resp)%Z && (status_code resp <? 600)%Z);
    [reflexivity|].
  destruct (body resp) as [|data]; [reflexivity|].
  destruct (choices data); reflexivity.
Qed.

Section OneCall.
Variables (prompt : string) (config : Config) (params : Params)
  (stage : string) (audit_logger : AuditLogger.t) (article_id : string)
  (decision_label : option string).

Local Abbreviation pr := (primary_request env prompt config params).
Local Abbreviation sr := (secondary_request env prompt config params).
Local Abbreviation run_finish :=
  (finish env prompt stage audit_logger article_id decision_label).
Local Abbreviation run_fallback :=
  (fallback env prompt config params stage audit_logger article_id
     decision_label).
Local Abbreviation run_call :=
  (call_llm env prompt config stage audit_logger article_id decision_label).

(** A closed logger makes the tail raise before anything is written. *)
Lemma finish_closed (provider : string) (r : ProviderResult) (w : World) :
  closed (AuditLogger._file audit_logger) = true ->
  run_finish provider r w = (inl ValueError, ticked w).
Proof.
  intros Hc. unfold finish, AuditLogger.log, bind, now, on_fs, append_line.
  rewrite Hc. reflexivity.
Qed.

(** With an open logger the tail returns, having appended one record. *)
Lemma finish_open (provider : string) (r : ProviderResult) (w : World) :
  closed (AuditLogger._file audit_logger) = false ->
  exists line w',
    run_finish provider r w = (inr {| result := r; provider := provider |}, w')
    /\ call_record env decision_label {| result := r; provider := provider |} line
    /\ fs w' = fs_append audit_logger line (fs w)
    /\ _groq_consecutive_failures w' = _groq_consecutive_failures w
    /\ sent w' = sent w.
Proof.
  intros Hc. unfold finish, AuditLogger.log, bind, now, on_fs, append_line.
  rewrite Hc. cbn beta iota zeta.
  destruct (String.eqb provider "groq"); eexists _, _;
    (split; [reflexivity|]); unfold call_record; simpl;
    repeat split; reflexivity.
Qed.

(** Either way the tail leaves the counter and the network alone. *)
Lemma finish_frame (provider : string) (r : ProviderResult) (w : World) :
  let w' := snd (run_finish provider r w) in
  _groq_consecutive_failures w' = _groq_consecutive_failures w
  /\ sent w' = sent w.
Proof.
  destruct (closed (AuditLogger._file audit_logger)) eqn:Hc.
  - rewrite finish_closed by assumption. now split.
  - destruct (finish_open provider r w Hc) as (line & w' & -> & _ & _ & Hf & Hs).
    now split.
Qed.

(** The fallback sends one request, to the secondary provider. *)
Lemma fallback_eq (w : World) :
  let o := http_post env (length (sent w)) sr in
  run_fallback w
  = match reply o with
    | inl e => (inl e, record_sent sr o w)
    | inr r => run_finish "together" r (record_sent sr o w)
    end.
Proof.
  intros o. unfold fallback, bind. rewrite _call_provider_eq.
  fold sr. fold o. destruct (reply o); reflexivity.
Qed.

Lemma fallback_frame (w : World) :
  let w' := snd (run_fallback w) in
  _groq_consecutive_failures w' = _groq_consecutive_failures w
  /\ sent w' = (sr, http_post env (length (sent w)) sr) :: sent w.
Proof.
  rewrite fallback_eq. destruct (reply _) as [e|r]; [now split|].
  apply (finish_frame "together" r (record_sent sr _ w)).
Qed.

(** A stage missing from the configuration stops the call at once. *)
Lemma call_llm_unconfigured (e : exn) (w : World) :
  assoc stage (inference config) = inl e -> run_call w = (inl e, w).
Proof. intros H. unfold call_llm, bind, lift. now rewrite H. Qed.

Local Opaque _call_provider AuditLogger.log.

Ltac run_monad :=
  unfold call_llm, fallback, finish, incr_failures, bind, lift, try_except,
    ret, raise, get_failures, set_failures, sleep;
  cbn beta iota zeta.

Ltac case_reply :=
  cbn [sent length record_sent with_failures asleep fs clock slept
       _groq_consecutive_failures];
  match goal with |- context [reply ?o] => destruct (reply o) end.

Lemma call_llm_skip (w : World) :
  assoc stage (inference config) = inr params ->
  (_GROQ_SKIP_THRESHOLD <= _groq_consecutive_failures w)%Z ->
  run_call w = run_fallback w.
Proof.
  intros Hcfg Hskip%Z.leb_le. run_monad. rewrite Hcfg, Hskip.
  cbn beta iota zeta. rewrite !_call_provider_eq.
  case_reply; reflexivity.
Qed.

Lemma call_llm_first_ok (w : World) (r : ProviderResult) :
  let o1 := http_post env (length (sent w)) pr in
  assoc stage (inference config) = inr params ->
  (_groq_consecutive_failures w < _GROQ_SKIP_THRESHOLD)%Z ->
  reply o1 = inr r ->
  run_call w = run_finish "groq" r (with_failures 0 (record_sent pr o1 w)).
Proof.
  intros o1 Hcfg Hlow%Z.leb_gt Hr. run_monad. rewrite Hcfg, Hlow.
  cbn beta iota zeta. rewrite _call_provider_eq. fold pr. fold o1. rewrite Hr.
  reflexivity.
Qed.

Lemma call_llm_first_soft (w : World) (e : exn) :
  let o1 := http_post env (length (sent w)) pr in
  assoc stage (inference config) = inr params ->
  (_groq_consecutive_failures w < _GROQ_SKIP_THRESHOLD)%Z ->
  reply o1 = inl e -> e = Timeout \/ e = HTTPError ->
  run_call w = run_fallback (record_sent pr o1 w).
Proof.
  intros o1 Hcfg Hlow%Z.leb_gt Hr He. run_monad. rewrite Hcfg, Hlow.
  cbn beta iota zeta. rewrite _call_provider_eq. fold pr. fold o1. rewrite Hr.
  destruct He as [-> | ->]; cbn beta iota zeta; rewrite !_call_provider_eq;
    case_reply; reflexivity.
Qed.

Lemma call_llm_first_escapes (w : World) (e : exn) :
  let o1 := http_post env (length (sent w)) pr in
  assoc stage (inference config) = inr params ->
  (_groq_consecutive_failures w < _GROQ_SKIP_THRESHOLD)%Z ->
  reply o1 = inl e -> handled e = false ->
  run_call w = (inl e, record_sent pr o1 w).
Proof.
  intros o1 Hcfg Hlow%Z.leb_gt Hr He. run_monad. rewrite Hcfg, Hlow.
  cbn beta iota zeta. rewrite _call_provider_eq. fold pr. fold o1. rewrite Hr.
  destruct e; try discriminate He; reflexivity.
Qed.

Lemma call_llm_limited_no_retry (w : World) :
  let o1 := http_post env (length (sent w)) pr in
  let n := _groq_consecutive_failures w in
  assoc stage (inference config) = inr params ->
  (n < _GROQ_SKIP_THRESHOLD)%Z ->
  reply o1 = inl RateLimitError ->
  (_GROQ_SKIP_THRESHOLD <= n + 1)%Z ->
  run_call w = run_fallback (with_failures (n + 1) (record_sent pr o1 w)).
Proof.
  intros o1 n Hcfg Hlow%Z.leb_gt Hr Hn%Z.ltb_ge. subst n.
  run_monad. rewrite Hcfg, Hlow.
  cbn beta iota zeta. rewrite _call_provider_eq. fold pr. fold o1. rewrite Hr.
  cbn [_groq_consecutive_failures with_failures record_sent].
  rewrite Hn. cbn beta iota zeta. rewrite !_call_provider_eq.
  case_reply; reflexivity.
Qed.

Lemma call_llm_retry_ok (w : World) (r : ProviderResult) :
  let o1 := http_post env (length (sent w)) pr in
  let n := _groq_consecutive_failures w in
  let w1 := asleep 60%float (with_failures (n + 1) (record_sent pr o1 w)) in
  let o2 := http_post env (S (length (sent w))) pr in
  assoc stage (inference config) = inr params ->
  reply o1 = inl RateLimitError ->
  (n + 1 < _GROQ_SKIP_THRESHOLD)%Z ->
  reply o2 = inr r ->
  run_call w = run_finish "groq" r (with_failures 0 (record_sent pr o2 w1)).
Proof.
  intros o1 n w1 o2 Hcfg Hr Hn Hr2. subst w1 n.
  assert (Hlow : (_GROQ_SKIP_THRESHOLD <=? _groq_consecutive_failures w)%Z
                 = false) by (apply Z.leb_gt; lia).
  apply Z.ltb_lt in Hn.
  run_monad. rewrite Hcfg, Hlow.
  cbn beta iota zeta. rewrite _call_provider_eq. fold pr. fold o1. rewrite Hr.
  cbn [_groq_consecutive_failures with_failures record_sent].
  rewrite Hn. cbn beta iota zeta. rewrite _call_provider_eq.
  cbn [sent record_sent with_failures length]. fold pr. fold o2. rewrite Hr2.
  reflexivity.
Qed.

Lemma call_llm_retry_fails (w : World) (e : exn) :
  let o1 := http_post env (length (sent w)) pr in
  let n := _groq_consecutive_failures w in
  let w1 := asleep 60%float (with_failures (n + 1) (record_sent pr o1 w)) in
  let o2 := http_post env (S (length (sent w))) pr in
  assoc stage (inference config) = inr params ->
  reply o1 = inl RateLimitError ->
  (n + 1 < _GROQ_SKIP_THRESHOLD)%Z ->
  reply o2 = inl e ->
  run_call w
  = run_fallback (with_failures (n + 1 + 1) (record_sent pr o2 w1)).
Proof.
  intros o1 n w1 o2 Hcfg Hr Hn Hr2. subst w1 n.
  assert (Hlow : (_GROQ_SKIP_THRESHOLD <=? _groq_consecutive_failures w)%Z
                 = false) by (apply Z.leb_gt; lia).
  apply Z.ltb_lt in Hn.
  run_monad. rewrite Hcfg, Hlow.
  cbn beta iota zeta. rewrite _call_provider_eq. fold pr. fold o1. rewrite Hr.
  cbn [_groq_consecutive_failures with_failures record_sent].
  rewrite Hn. cbn beta iota zeta. rewrite _call_provider_eq.
  cbn [sent record_sent with_failures length]. fold pr. fold o2. rewrite Hr2.
  cbn beta iota zeta. rewrite !_call_provider_eq.
  case_reply; reflexivity.
Qed.

(** For a configured stage the call takes one of the seven paths. *)
Lemma call_llm_path (w : World) :
  assoc stage (inference config) = inr params ->
  path env prompt config params stage audit_logger article_id decision_label
    w (run_call w).
Proof.
  intros Hcfg.
  destruct (Z.le_gt_cases _GROQ_SKIP_THRESHOLD (_groq_consecutive_failures w))
    as [Hskip|Hlow].
  { rewrite call_llm_skip by assumption. eapply path_skip; eassumption. }
  destruct (reply (http_post env (length (sent w)) pr)) as [e|r] eqn:Hr.
  2: { rewrite (call_llm_first_ok w r) by assumption. eapply path_first_ok; eassumption. }
  destruct (handled e) eqn:He.
  2: { rewrite (call_llm_first_escapes w e) by assumption.
       eapply path_first_escapes; eassumption. }
  destruct e; try discriminate He.
  - destruct (Z.le_gt_cases _GROQ_SKIP_THRESHOLD
                (_groq_consecutive_failures w + 1)) as [Hn|Hn].
    { rewrite call_llm_limited_no_retry by assumption.
      eapply path_limited_no_retry; eassumption. }
    destruct (reply (http_post env (S (length (sent w))) pr)) as [e2|r2] eqn:Hr2.
    + rewrite (call_llm_retry_fails w e2) by assumption.
      eapply path_retry_fails; eassumption.
    + rewrite (call_llm_retry_ok w r2) by assumption.
      eapply path_retry_ok; eassumption.
  - rewrite (call_llm_first_soft w Timeout) by (assumption || now left).
    eapply path_first_soft; [eassumption | eassumption | now left].
  - rewrite (call_llm_first_soft w HTTPError) by (assumption || now right).
    eapply path_first_soft; [eassumption | eassumption | now right].
Qed.

(** What the tail does to the file system: one record more when it
    returns, nothing when it raises. *)
Lemma finish_fs (provider : string) (r : ProviderResult) (w : World) :
  (exists line w',
     run_finish provider r w = (inr {| result := r; provider := provider |}, w')
     /\ call_record env decision_label {| result := r; provider := provider |} line
     /\ fs w' = fs_append audit_logger line (fs w))
  \/ (exists e w', run_finish provider r w = (inl e, w') /\ fs w' = fs w).
Proof.
  destruct (closed (AuditLogger._file audit_logger)) eqn:Hc.
  - right. exists ValueError, (ticked w). now rewrite finish_closed.
  - left. destruct (finish_open provider r w Hc) as (line & w' & H1 & H2 & H3 & _).
    now exists line, w'.
Qed.

Lemma fallback_fs (w : World) :
  (exists r line w',
     run_fallback w = (inr r, w') /\ call_record env decision_label r line
     /\ fs w' = fs_append audit_logger line (fs w))
  \/ (exists e w', run_fallback w = (inl e, w') /\ fs w' = fs w).
Proof.
  rewrite fallback_eq. destruct (reply _) as [e|r].
  - right. now eexists _, _.
  - destruct (finish_fs "together" r (record_sent sr (http_post env (length (sent w)) sr) w))
      as [(line & w' & H1 & H2 & H3) | (e & w' & H1 & H2)].
    + left. now exists {| result := r; provider := "together" |}, line, w'.
    + right. now exists e, w'.
Qed.

(** The call appends one record when it returns and none when it raises. *)
Lemma call_llm_fs_configured (w : World) :
  assoc stage (inference config) = inr params ->
  (exists r line w',
     run_call w = (inr r, w') /\ call_record env decision_label r line
     /\ fs w' = fs_append audit_logger line (fs w))
  \/ (exists e w', run_call w = (inl e, w') /\ fs w' = fs w).
Proof.
  intros Hcfg.
  destruct (call_llm_path w Hcfg);
    try (match goal with
         | |- context [fallback _ _ _ _ _ _ _ _ ?w0] => exact (fallback_fs w0)
         | |- context [finish _ _ _ _ _ _ ?p ?r ?w0] =>
             destruct (finish_fs p r w0)
               as [(line & w' & E1 & E2 & E3) | (e' & w' & E1 & E2)];
             [left; exists {| result := r; provider := p |}, line, w';
              exact (conj E1 (conj E2 E3))
             |right; exists e', w'; exact (conj E1 E2)]
         end).
  right. now eexists _, _.
Qed.

(** The counter and the requests after a call that skips the primary. *)
Lemma call_llm_skip_trace (w : World) :
  assoc stage (inference config) = inr params ->
  (_GROQ_SKIP_THRESHOLD <= _groq_consecutive_failures w)%Z ->
  let w' := snd (run_call w) in
  _groq_consecutive_failures w' = _groq_consecutive_failures w
  /\ sent w' = (sr, http_post env (length (sent w)) sr) :: sent w.
Proof.
  intros Hcfg Hskip. rewrite call_llm_skip by assumption. apply fallback_frame.
Qed.

(** Below the threshold the first request of the call goes to the primary
    provider. *)
Lemma call_llm_attempts_primary (w : World) :
  assoc stage (inference config) = inr params ->
  (_groq_consecutive_failures w < _GROQ_SKIP_THRESHOLD)%Z ->
  exists after,
    sent (snd (run_call w))
    = (after ++ (pr, http_post env (length (sent w)) pr) :: sent w)%list.
Proof.
  intros Hcfg Hlow.
  destruct (call_llm_path w Hcfg);
    try (unfold _GROQ_SKIP_THRESHOLD in *; lia);
    repeat match goal with
      | |- context [snd (fallback _ ?p ?c ?pa ?s ?l ?a ?d ?w0)] =>
          destruct (fallback_frame w0) as [_ ->]
      | |- context [snd (finish _ ?p ?s ?l ?a ?d ?pv ?r ?w0)] =>
          destruct (finish_frame pv r w0) as [_ ->]
      end;
    cbn [sent record_sent with_failures asleep snd].
  - now exists [].
  - now eexists [_].
  - now exists [].
  - now eexists [_].
  - now eexists [_].
  - now eexists [_; _].
Qed.

End OneCall.

Lemma to_primary_pr (prompt : string) (config : Config) (params : Params)
    (o : PostOutcome) :
  to_primary (primary_request env prompt config params, o) = true.
Proof. reflexivity. Qed.

Lemma to_primary_sr (prompt : string) (config : Config) (params : Params)
    (o : PostOutcome) :
  to_primary (secondary_request env prompt config params, o) = false.
Proof. reflexivity. Qed.

Lemma streak_secondary (rq : Request) (o : PostOutcome)
    (tr : list (Request * PostOutcome)) :
  to_primary (rq, o) = false ->
  rate_limit_streak ((rq, o) :: tr) = rate_limit_streak tr.
Proof. intros H. cbn [rate_limit_streak]. now rewrite H. Qed.

Lemma streak_primary (rq : Request) (o : PostOutcome)
    (tr : list (Request * PostOutcome)) :
  to_primary (rq, o) = true ->
  rate_limit_streak ((rq, o) :: tr)
  = if rate_limited o then S (rate_limit_streak tr) else 0.
Proof. intros H. cbn [rate_limit_streak snd]. now rewrite H. Qed.

Lemma rate_limited_reply (o : PostOutcome) :
  rate_limited o = true <-> reply o = inl RateLimitError.
Proof.
  unfold rate_limited. destruct (reply o) as [[]|]; split; congruence.
Qed.

Lemma succeeded_reply (o : PostOutcome) :
  succeeded o = true <-> exists r, reply o = inr r.
Proof.
  unfold succeeded. destruct (reply o) as [e|r]; split;
    try congruence; try (intros [? ?]; congruence). now exists r.
Qed.

(** What one call does to the counter and to the requests sent, whatever
    its arguments and whether it returns or raises. *)
Lemma call_llm_step (prompt : string) (config : Config) (stage : string)
    (audit_logger : AuditLogger.t) (article_id : string)
    (decision_label : option string) (w : World) :
  let n := _groq_consecutive_failures w in
  let w' := snd (call_llm env prompt config stage audit_logger article_id
                   decision_label w) in
  let n' := _groq_consecutive_failures w' in
  exists new,
    sent w' = (new ++ sent w)%list
    /\ ((_GROQ_SKIP_THRESHOLD <= n)%Z ->
        n' = n /\ Forall (fun a => to_primary a = false) new)
    /\ ((0 <= n <= 3)%Z -> (0 <= n' <= 3)%Z /\ (n' <= n + 2)%Z)
    /\ (streak_ok w -> streak_ok w')
    /\ (Exists (fun a => to_primary a = true /\ succeeded (snd a) = true) new ->
        n' = 0%Z).
Proof.
  intros n w' n'. subst n n' w'. unfold streak_ok.
  destruct (assoc stage (inference config)) as [e|params] eqn:Hcfg.
  { rewrite (call_llm_unconfigured prompt config stage audit_logger article_id
               decision_label e w Hcfg). exists [].
    cbn [snd app]. repeat split; try assumption; try lia.
    - constructor.
    - now intros H%Exists_nil. }
  destruct (call_llm_path prompt config params stage audit_logger article_id
              decision_label w Hcfg);
    unfold _GROQ_SKIP_THRESHOLD in *;
    repeat match goal with
      | |- context [snd (fallback _ ?p ?c ?pa ?s ?l ?a ?d ?w0)] =>
          destruct (fallback_frame p c pa s l a d w0) as [-> ->]
      | |- context [snd (finish _ ?p ?s ?l ?a ?d ?pv ?r ?w0)] =>
          destruct (finish_frame p s l a d pv r w0) as [-> ->]
      end;
    cbn [sent record_sent with_failures asleep snd length
         _groq_consecutive_failures].
  all: repeat match goal with
         | o := _ |- _ => subst o
         end.
  all: repeat first
         [ rewrite streak_secondary by apply to_primary_sr
         | rewrite streak_primary by apply to_primary_pr
         | progress cbn [sent record_sent with_failures asleep snd length
                         _groq_consecutive_failures] ].
  all: repeat match goal with
         | H : reply ?o = inl RateLimitError |- _ =>
             rewrite (proj2 (rate_limited_reply o) H)
         end.
  - (* skipped *)
    eexists [_]. split; [reflexivity|]. repeat split; try lia.
    + repeat constructor.
    + rewrite Exists_cons, Exists_nil. intros [[H1 _]|[]]. discriminate H1.
  - (* first attempt answered *)
    eexists [_]. split; [reflexivity|].
    assert (rate_limited (http_post env (length (sent w))
              (primary_request env prompt config params)) = false) as ->
      by (unfold rate_limited; now rewrite H0).
    repeat split; try lia.
  - (* first attempt timed out or got an HTTP error *)
    eexists [_; _]. split; [reflexivity|].
    assert (rate_limited (http_post env (length (sent w))
              (primary_request env prompt config params)) = false) as ->
      by (unfold rate_limited; rewrite H0; now destruct H1 as [-> | ->]).
    repeat split; try lia.
    rewrite !Exists_cons, Exists_nil. intros [[E _]|[[_ E]|[]]].
    + discriminate E.
    + apply succeeded_reply in E as [r E]. cbn [snd] in E. congruence.
  - (* first attempt raised something else *)
    eexists [_]. split; [reflexivity|].
    assert (rate_limited (http_post env (length (sent w))
              (primary_request env prompt config params)) = false) as ->
      by (unfold rate_limited; rewrite H0; now destruct e).
    repeat split; try lia.
    rewrite !Exists_cons, Exists_nil. intros [[_ E]|[]].
    apply succeeded_reply in E as [r E]. cbn [snd] in E. congruence.
  - (* rate-limited at the threshold *)
    eexists [_; _]. split; [reflexivity|]. repeat split; try lia.
    rewrite !Exists_cons, Exists_nil. intros [[E _]|[[_ E]|[]]].
    + discriminate E.
    + apply succeeded_reply in E as [r E]. cbn [snd] in E. congruence.
  - (* rate-limited, retry answered *)
    eexists [_; _]. split; [reflexivity|].
    assert (rate_limited (http_post env (S (length (sent w)))
              (primary_request env prompt config params)) = false) as ->
      by (unfold rate_limited; now rewrite H1).
    repeat split; try lia.
  - (* rate-limited, retry failed *)
    eexists [_; _; _]. split; [reflexivity|].
    destruct (rate_limited (http_post env (S (length (sent w))) _));
      repeat split; try lia.
    all: rewrite !Exists_cons, Exists_nil; intros [[E _]|[[_ E]|[[_ E]|[]]]];
      [discriminate E | | ];
      apply succeeded_reply in E as [r E]; cbn [snd] in E; congruence.
Qed.

(** ** Across calls *)

Lemma later_invariants (w w' : World) :
  later env w w' ->
  (streak_ok w -> streak_ok w')
  /\ ((0 <= _groq_consecutive_failures w <= 3)%Z ->
      (0 <= _groq_consecutive_failures w' <= 3)%Z).
Proof.
  induction 1 as [w | w w' prompt config stage l aid label _ [IHs IHb]
                 | w w' w'' _ [IHs IHb] Hn Hs].
  - now split.
  - destruct (call_llm_step prompt config stage l aid label w')
      as (new & _ & _ & Hb & Hk & _).
    split; [now auto | intros Hw; now apply Hb, IHb].
  - unfold streak_ok in *. rewrite Hn, Hs. now split.
Qed.

Lemma reachable_invariants (w : World) :
  reachable env w ->
  streak_ok w /\ (0 <= _groq_consecutive_failures w <= 3)%Z.
Proof.
  intros (w0 & [Hn Hs] & Hl). apply later_invariants in Hl as [IHs IHb].
  split; [apply IHs | apply IHb].
  - unfold streak_ok. rewrite Hn, Hs. simpl. lia.
  - lia.
Qed.

(** Once the counter is at the threshold it stays there, and no later
    request goes to the primary provider. *)
Lemma later_saturated (w w' : World) :
  later env w w' ->
  (_GROQ_SKIP_THRESHOLD <= _groq_consecutive_failures w)%Z ->
  _groq_consecutive_failures w' = _groq_consecutive_failures w
  /\ exists new, sent w' = (new ++ sent w)%list
                 /\ Forall (fun a => to_primary a = false) new.
Proof.
  induction 1 as [w | w w' prompt config stage l aid label _ IH
                 | w w' w'' _ IH Hn Hs]; intros Hw.
  - split; [reflexivity | exists []; now split].
  - destruct (IH Hw) as (Hn & new & Hs & Hnew).
    destruct (call_llm_step prompt config stage l aid label w')
      as (new' & Hs' & Hskip & _).
    destruct Hskip as [Hn' Hnew']; [lia|].
    split; [lia|]. exists (new' ++ new)%list.
    split; [now rewrite Hs', Hs, app_assoc | now apply Forall_app].
  - destruct (IH Hw) as (Hn' & new & Hs' & Hnew).
    split; [lia|]. exists new. split; [congruence | assumption].
Qed.

(** ** The claims *)

(** C2.  A call made while the counter is at least 3 sends nothing to the
    primary provider, and for a configured stage it sends exactly one
    request, to the secondary provider with the fallback model.  The
    counter is at least 3 whenever the last three requests to the primary
    provider were all rate-limited. *)
Theorem call_llm_skips_primary (prompt : string) (config : Config)
    (stage : string) (audit_logger : AuditLogger.t) (article_id : string)
    (decision_label : option string) (w : World) :
  (_GROQ_SKIP_THRESHOLD <= _groq_consecutive_failures w)%Z
  \/ (reachable env w /\ 3 <= rate_limit_streak (sent w)) ->
  let w' := snd (call_llm env prompt config stage audit_logger article_id
                   decision_label w) in
  exists new,
    sent w' = (new ++ sent w)%list
    /\ Forall (fun a => to_primary a = false) new
    /\ forall params,
         assoc stage (inference config) = inr params ->
         let sr := secondary_request env prompt config params in
         new = [(sr, http_post env (length (sent w)) sr)].
Proof.
  intros Hpre w'. subst w'.
  assert (Hskip : (_GROQ_SKIP_THRESHOLD <= _groq_consecutive_failures w)%Z).
  { destruct Hpre as [H | [Hr Hk]]; [exact H|].
    apply reachable_invariants in Hr as [Hok _].
    unfold streak_ok in Hok. unfold _GROQ_SKIP_THRESHOLD. lia. }
  destruct (call_llm_step prompt config stage audit_logger article_id
              decision_label w) as (new & Hs & Hno & _).
  destruct (Hno Hskip) as [_ Hnew].
  exists new. split; [exact Hs|]. split; [exact Hnew|].
  intros params Hcfg sr.
  destruct (call_llm_skip_trace prompt config params stage audit_logger
              article_id decision_label w Hcfg Hskip) as [_ Hs'].
  rewrite Hs in Hs'.
  exact (app_inv_tail (sent w) new [(sr, http_post env (length (sent w)) sr)]
           Hs').
Qed.

(** C5, amended.  When the first attempt at the primary provider, not
    skipped, fails with a timeout or an HTTP error, the counter is left as
    it was and the next request goes to the secondary provider. *)
Theorem soft_failure_leaves_counter (prompt : string) (config : Config)
    (stage : string) (audit_logger : AuditLogger.t) (article_id : string)
    (decision_label : option string) (params : Params) (e : exn) (w : World) :
  let pr := primary_request env prompt config params in
  let sr := secondary_request env prompt config params in
  let w' := snd (call_llm env prompt config stage audit_logger article_id
                   decision_label w) in
  assoc stage (inference config) = inr params ->
  (_groq_consecutive_failures w < _GROQ_SKIP_THRESHOLD)%Z ->
  reply (http_post env (length (sent w)) pr) = inl e ->
  e = Timeout \/ e = HTTPError ->
  _groq_consecutive_failures w' = _groq_consecutive_failures w
  /\ sent w' = (sr, http_post env (S (length (sent w))) sr)
               :: (pr, http_post env (length (sent w)) pr) :: sent w.
Proof.
  intros pr sr w' Hcfg Hlow Hr He. subst w'.
  rewrite (call_llm_first_soft prompt config params stage audit_logger
             article_id decision_label w e Hcfg Hlow Hr He).
  exact (fallback_frame prompt config params stage audit_logger article_id
           decision_label
           (record_sent pr (http_post env (length (sent w)) pr) w)).
Qed.

(** C6.  When a request to the primary provider succeeds during a call,
    be it the first attempt or the retry, the counter is 0 afterwards, and
    the next call for a configured stage sends its first request to the
    primary provider. *)
Theorem primary_success_resets_counter (prompt : string) (config : Config)
    (stage : string) (audit_logger : AuditLogger.t) (article_id : string)
    (decision_label : option string) (w : World)
    (new : list (Request * PostOutcome)) :
  let w' := snd (call_llm env prompt config stage audit_logger article_id
                   decision_label w) in
  sent w' = (new ++ sent w)%list ->
  Exists (fun a => to_primary a = true /\ succeeded (snd a) = true) new ->
  _groq_consecutive_failures w' = 0%Z
  /\ forall prompt2 config2 stage2 audit_logger2 article_id2 decision_label2
            params2 w2,
       _groq_consecutive_failures w2 = _groq_consecutive_failures w' ->
       assoc stage2 (inference config2) = inr params2 ->
       let pr := primary_request env prompt2 config2 params2 in
       exists after,
         sent (snd (call_llm env prompt2 config2 stage2 audit_logger2
                      article_id2 decision_label2 w2))
         = (after ++ (pr, http_post env (length (sent w2)) pr) :: sent w2)%list.
Proof.
  intros w' Hs Hok. subst w'.
  destruct (call_llm_step prompt config stage audit_logger article_id
              decision_label w) as (new' & Hs' & _ & _ & _ & Hreset).
  rewrite Hs in Hs'. apply app_inv_tail in Hs' as <-.
  specialize (Hreset Hok). split; [exact Hreset|].
  intros prompt2 config2 stage2 l2 aid2 label2 params2 w2 Hn Hcfg pr.
  apply call_llm_attempts_primary; [exact Hcfg|].
  unfold _GROQ_SKIP_THRESHOLD. lia.
Qed.

(** C9.  In a process that started with the counter at 0, the counter
    stays between 0 and 3; one call raises it by at most 2 and leaves it
    alone at 3; and once it is 3 it is 3 in every later state, with no
    request to the primary provider from then on. *)
Theorem failure_counter_saturates (w : World) :
  reachable env w ->
  (0 <= _groq_consecutive_failures w <= 3)%Z
  /\ (forall prompt config stage audit_logger article_id decision_label,
        let w' := snd (call_llm env prompt config stage audit_logger
                         article_id decision_label w) in
        (_groq_consecutive_failures w'
         <= _groq_consecutive_failures w + 2)%Z
        /\ (_groq_consecutive_failures w = 3%Z ->
            _groq_consecutive_failures w' = 3%Z))
  /\ (_groq_consecutive_failures w = 3%Z ->
      forall w', later env w w' ->
        _groq_consecutive_failures w' = 3%Z
        /\ exists new, sent w' = (new ++ sent w)%list
                       /\ Forall (fun a => to_primary a = false) new).
Proof.
  intros Hr. apply reachable_invariants in Hr as [_ Hb].
  split; [exact Hb|]. split.
  - intros prompt config stage l aid label w'. subst w'.
    destruct (call_llm_step prompt config stage l aid label w)
      as (new & _ & Hskip & Hbound & _).
    split; [now apply Hbound|].
    intros H3. destruct Hskip as [Hn _]; [unfold _GROQ_SKIP_THRESHOLD; lia|].
    lia.
  - intros H3 w' Hl.
    destruct (later_saturated w w' Hl) as [Hn Hnew];
      [unfold _GROQ_SKIP_THRESHOLD; lia|].
    split; [lia | exact Hnew].
Qed.

(** C4.  A call that returns has appended exactly one record to the file
    of its logger and changed nothing else of the file system; the record
    carries the usage counters returned to the caller and the returned
    latency rounded to two decimals. *)
Theorem successful_call_appends_one_record (prompt : string)
    (config : Config) (stage : string) (audit_logger : AuditLogger.t)
    (article_id : string) (decision_label : option string) (w w' : World)
    (r : LlmResult) :
  call_llm env prompt config stage audit_logger article_id decision_label w
  = (inr r, w') ->
  exists line,
    fs w' = fs_append audit_logger line (fs w)
    /\ audit_log audit_logger w' = (audit_log audit_logger w ++ [line])%list
    /\ dict_get "tokens_in" line = Some (PyInt (tokens_input r))
    /\ dict_get "tokens_out" line = Some (PyInt (tokens_output r))
    /\ dict_get "latency_ms" line = Some (PyFloat (round env (latency_ms r) 2)).
Proof.
  intros Hrun.
  destruct (assoc stage (inference config)) as [e|params] eqn:Hcfg.
  { rewrite (call_llm_unconfigured prompt config stage audit_logger article_id
               decision_label e w Hcfg) in Hrun. discriminate Hrun. }
  destruct (call_llm_fs_configured prompt config params stage audit_logger
              article_id decision_label w Hcfg)
    as [(r0 & line & w0 & E & Hrec & Hfs) | (e & w0 & E & _)];
    rewrite E in Hrun; [|discriminate Hrun].
  injection Hrun as -> ->.
  destruct Hrec as (_ & _ & _ & _ & Hin & Hout & Hlat).
  exists line. split; [exact Hfs|]. split; [|now repeat split].
  unfold audit_log. rewrite Hfs. unfold fs_append, read_lines at 1.
  cbn [files]. now rewrite lookup_insert_eq.
Qed.

(** C10, amended.  A call writes a record only when it returns, and that
    record has confidence exactly 1.0; its decision is the label the
    caller passed when that is a non-empty string, and the first 200
    characters of the response when the caller passed no label or an empty
    one.  In [triage_article] the file system is the one [call_llm] left:
    the parsed decision and confidence come later and reach no record. *)
Theorem audit_record_decision_and_confidence (prompt : string)
    (config : Config) (stage : string) (audit_logger : AuditLogger.t)
    (article_id : string) (decision_label : option string) (w : World) :
  let run := call_llm env prompt config stage audit_logger article_id
               decision_label w in
  ((exists e, fst run = inl e) /\ fs (snd run) = fs w
   \/ exists r line,
        fst run = inr r
        /\ fs (snd run) = fs_append audit_logger line (fs w)
        /\ dict_get "confidence" line = Some (PyFloat 1.0%float)
        /\ dict_get "raw_response" line = Some (PyStr (text r))
        /\ (forall l, decision_label = Some l -> l <> EmptyString ->
            dict_get "decision" line = Some (PyStr l))
        /\ (decision_label = None \/ decision_label = Some EmptyString ->
            dict_get "decision" line
            = Some (PyStr (PyStr.slice_to 200 (text r)))))
  /\ forall title abstract criteria,
       let criteria_text :=
         String.concat Triage.newline (map (fun c => "- " +:+ c) criteria) in
       let triage := Triage.triage_article env title abstract article_id
                       criteria config audit_logger w in
       match load_prompt env "triage"
               [("criteria", criteria_text); ("title", title);
                ("abstract", abstract)] with
       | inl _ => fs (snd triage) = fs w
       | inr p =>
           fs (snd triage)
           = fs (snd (call_llm env p config "triage" audit_logger article_id
                        None w))
       end.
Proof.
  intros run. split.
  - subst run.
    destruct (assoc stage (inference config)) as [e|params] eqn:Hcfg.
    { rewrite (call_llm_unconfigured prompt config stage audit_logger
                 article_id decision_label e w Hcfg).
      left. split; [now exists e | reflexivity]. }
    destruct (call_llm_fs_configured prompt config params stage audit_logger
                article_id decision_label w Hcfg)
      as [(r & line & w' & -> & Hrec & Hfs) | (e & w' & -> & Hfs)].
    + right. exists r, line.
      destruct Hrec as (Hconf & Hdec & Hraw & _).
      repeat split; try assumption.
      * intros l -> Hl. rewrite Hdec. destruct l; [congruence | reflexivity].
      * intros [-> | ->]; exact Hdec.
    + left. split; [now exists e | exact Hfs].
  - intros title abstract criteria criteria_text triage. subst triage.
    unfold Triage.triage_article, bind, lift. fold criteria_text.
    destruct (load_prompt env "triage" _) as [e|p]; [reflexivity|].
    destruct (call_llm env p config "triage" audit_logger article_id None w)
      as [[e|r] w']; [reflexivity|].
    destruct (Triage._parse_decision _) as [e|[[d j] c]]; reflexivity.
Qed.

End WithEnv.
End UtilsFacts.

(* ===================================================================== *)
(** * Concrete runs of the controller                                     *)
(* ===================================================================== *)

Module Runs.
Import Runtime Utils Trace Scenario UtilsFacts.

Lemma triage_configured :
  assoc "triage" (inference config) = inr triage_params.
Proof. reflexivity. Qed.

Lemma after_three_strikes_reachable :
  reachable (env_of three_strikes) after_three_strikes.
Proof.
  exists (world_at 0). split; [now split|].
  unfold after_three_strikes, call. apply later_call, later_call, later_refl.
Qed.

Lemma call_llm_skips_primary_witness :
  exists new,
    sent (snd (call three_strikes None after_three_strikes))
    = (new ++ sent after_three_strikes)%list
    /\ Forall (fun a => to_primary a = false) new
    /\ forall params,
         assoc "triage" (inference config) = inr params ->
         let sr := secondary_request (env_of three_strikes)
                     "Is the study relevant?" config params in
         new = [(sr, http_post (env_of three_strikes)
                       (length (sent after_three_strikes)) sr)].
Proof.
  apply (call_llm_skips_primary (env_of three_strikes)
           "Is the study relevant?" config "triage" logger "A1" None
           after_three_strikes).
  right. split; [exact after_three_strikes_reachable|].
  vm_compute. apply le_n.
Defined.

Lemma soft_failure_leaves_counter_witness :
  let env := env_of [server_error] in
  let pr := primary_request env "Is the study relevant?" config triage_params in
  let sr := secondary_request env "Is the study relevant?" config triage_params in
  let w' := snd (call [server_error] None (world_at 2)) in
  _groq_consecutive_failures w' = 2%Z
  /\ sent w' = [(sr, http_post env 1 sr); (pr, http_post env 0 pr)].
Proof.
  apply (soft_failure_leaves_counter (env_of [server_error])
           "Is the study relevant?" config "triage" logger "A1" None
           triage_params HTTPError (world_at 2)).
  - exact triage_configured.
  - reflexivity.
  - reflexivity.
  - now right.
Defined.

(** C5 as stated fails: from a counter at 2, an HTTP 500 or a timeout on
    the first attempt leaves the counter at 2, where a rate limit takes it
    to 3. *)
Lemma soft_failure_not_counted :
  _groq_consecutive_failures (snd (call [server_error] None (world_at 2)))
  = 2%Z
  /\ _groq_consecutive_failures
       (snd (call [PostRaises TransportTimeout] None (world_at 2))) = 2%Z
  /\ _groq_consecutive_failures (snd (call [rate_limit] None (world_at 2)))
     = 3%Z.
Proof. vm_compute. now repeat split. Qed.

Lemma primary_success_resets_counter_witness :
  let env := env_of [] in
  let w' := snd (call [] None (world_at 2)) in
  _groq_consecutive_failures w' = 0%Z
  /\ forall prompt2 config2 stage2 audit_logger2 article_id2 decision_label2
            params2 w2,
       _groq_consecutive_failures w2 = _groq_consecutive_failures w' ->
       assoc stage2 (inference config2) = inr params2 ->
       let pr := primary_request env prompt2 config2 params2 in
       exists after,
         sent (snd (call_llm env prompt2 config2 stage2 audit_logger2
                      article_id2 decision_label2 w2))
         = (after ++ (pr, http_post env (length (sent w2)) pr) :: sent w2)%list.
Proof.
  apply (primary_success_resets_counter (env_of [])
           "Is the study relevant?" config "triage" logger "A1" None
           (world_at 2)
           [(primary_request (env_of []) "Is the study relevant?" config
               triage_params,
             answer "YES. Relevant.")]).
  - now vm_compute.
  - apply Exists_cons_hd. now split.
Defined.

Lemma failure_counter_saturates_witness :
  _groq_consecutive_failures (snd (call three_strikes None (world_at 0))) = 2%Z
  /\ _groq_consecutive_failures after_three_strikes = 3%Z
  /\ (0 <= _groq_consecutive_failures after_three_strikes <= 3)%Z
  /\ (let w' := snd (call three_strikes None after_three_strikes) in
      (_groq_consecutive_failures w'
       <= _groq_consecutive_failures after_three_strikes + 2)%Z
      /\ _groq_consecutive_failures w' = 3%Z
      /\ exists new,
           sent w' = (new ++ sent after_three_strikes)%list
           /\ Forall (fun a => to_primary a = false) new).
Proof.
  destruct (failure_counter_saturates (env_of three_strikes)
              after_three_strikes after_three_strikes_reachable)
    as (Hbounds & Hstep & Hlater).
  assert (H3 : _groq_consecutive_failures after_three_strikes = 3%Z)
    by reflexivity.
  split; [reflexivity|]. split; [exact H3|]. split; [exact Hbounds|].
  split; [exact (proj1 (Hstep "Is the study relevant?" config "triage" logger
                          "A1" None))|].
  apply (Hlater H3). unfold call. apply later_call, later_refl.
Defined.

Lemma successful_call_appends_one_record_witness :
  let w' := snd (call [] None (world_at 0)) in
  exists line,
    fs w' = fs_append logger line (fs (world_at 0))
    /\ audit_log logger w' = (audit_log logger (world_at 0) ++ [line])%list
    /\ dict_get "tokens_in" line = Some (PyInt 120)
    /\ dict_get "tokens_out" line = Some (PyInt 4)
    /\ dict_get "latency_ms" line = Some (PyFloat 250%float).
Proof.
  apply (successful_call_appends_one_record (env_of [])
           "Is the study relevant?" config "triage" logger "A1" None
           (world_at 0) (snd (call [] None (world_at 0)))
           {| result := {| text := "YES. Relevant."; tokens_input := 120;
                           tokens_output := 4; latency_ms := 250%float |};
              provider := "groq" |}).
  now vm_compute.
Defined.

(** C1, at a failure of the primary provider that reaches the caller.  A
    refused connection on the first attempt is raised out of [call_llm]
    with no request sent to the secondary provider; the same failure on
    the retry after a rate limit is absorbed and the secondary provider
    answers. *)
Theorem connection_error_reaches_caller :
  let first := call [PostRaises TransportConnection] None (world_at 0) in
  let retry :=
    call [rate_limit; PostRaises TransportConnection] None (world_at 0) in
  fst first = inl ConnectionError
  /\ map (fun a => req_url (fst a)) (sent (snd first)) = [groq_url]
  /\ fst retry
     = inr {| result := {| text := "YES. Relevant."; tokens_input := 120;
                           tokens_output := 4; latency_ms := 250%float |};
              provider := "together" |}
  /\ map (fun a => req_url (fst a)) (sent (snd retry))
     = [together_url; groq_url; groq_url].
Proof. vm_compute. now repeat split. Qed.

(** C10 as stated fails for a caller that passes the empty label: the
    record holds the start of the response, not the label. *)
Lemma empty_label_is_replaced :
  let run := call [] (Some EmptyString) (world_at 0) in
  exists line,
    audit_log logger (snd run) = [line]
    /\ dict_get "decision" line = Some (PyStr "YES. Relevant.")
    /\ PyStr "YES. Relevant." <> PyStr EmptyString.
Proof.
  eexists. split; [now vm_compute|]. split; [reflexivity | discriminate].
Qed.

End Runs.

(* ===================================================================== *)
(** * The audit sink                                                      *)
(* ===================================================================== *)

Module AuditLoggerFacts.
Import Runtime Scenario.

Lemma mkdir_files (p : string) (f f' : filesystem) :
  mkdir p f = inr f' -> files f' = files f.
Proof.
  unfold mkdir. destruct (String.eqb p ""); [discriminate|].
  destruct (path_exists f p); [discriminate|].
  destruct (parent_ok f p); [discriminate|]. now intros [= <-].
Qed.

(** Creating directories leaves every file as it was. *)
Lemma makedirs_fuel_files (fuel : nat) (p : string) (ok : bool)
    (f f' : filesystem) :
  makedirs_fuel fuel p ok f = inr f' -> files f' = files f.
Proof.
  revert p f f'. induction fuel as [|fuel IH]; intros p f f';
    cbn [makedirs_fuel];
    destruct (path_split p) as [h t];
    destruct (if String.eqb t "" then path_split h else (h, t)) as [h' t'];
    destruct (negb (String.eqb h' "") && negb (String.eqb t' "")
              && negb (path_exists f h')).
  - discriminate.
  - destruct (mkdir p f) as [e|f1] eqn:Hm.
    + destruct (negb ok || negb (isdir f p)); [discriminate | now intros [= <-]].
    + intros [= <-]. now apply mkdir_files in Hm.
  - destruct (makedirs_fuel fuel h' ok f) as [e|f1] eqn:Hrec.
    + destruct e; try discriminate.
      destruct (String.eqb t' "."); [now intros [= <-]|].
      destruct (mkdir p f) as [e|f2] eqn:Hm.
      * destruct (negb ok || negb (isdir f p));
          [discriminate | now intros [= <-]].
      * intros [= <-]. now apply mkdir_files in Hm.
    + apply IH in Hrec. destruct (String.eqb t' "."); [now intros [= <-]|].
      destruct (mkdir p f1) as [e|f2] eqn:Hm.
      * destruct (negb ok || negb (isdir f1 p));
          [discriminate | now intros [= <-]].
      * intros [= <-]. apply mkdir_files in Hm. congruence.
  - destruct (mkdir p f) as [e|f1] eqn:Hm.
    + destruct (negb ok || negb (isdir f p)); [discriminate | now intros [= <-]].
    + intros [= <-]. now apply mkdir_files in Hm.
Qed.

Lemma slice_lengths (i : nat) (p : string) :
  String.length (PyStr.slice_to i p) + String.length (PyStr.slice_from i p)
  = String.length p.
Proof.
  unfold PyStr.slice_to. revert p; induction i as [|i IH]; intros [|c p]; simpl;
    try reflexivity.
  specialize (IH p). lia.
Qed.

Lemma rstrip_seps_length (s : string) :
  String.length (rstrip_seps s) <= String.length s.
Proof.
  induction s as [|c s IH]; simpl; [lia|].
  destruct (rstrip_seps s); simpl in *; [destruct (is_sep c); simpl; lia | lia].
Qed.

Lemma path_split_lengths (p h t : string) :
  path_split p = (h, t) ->
  String.length h + String.length t <= String.length p.
Proof.
  unfold path_split. intros [= <- <-].
  pose proof (slice_lengths (head_len p) p).
  destruct (negb _ && negb _); [|lia].
  pose proof (rstrip_seps_length (PyStr.slice_to (head_len p) p)). lia.
Qed.

Lemma nonempty_length (s : string) :
  String.eqb s "" = false -> 1 <= String.length s.
Proof. destruct s; [discriminate | simpl; lia]. Qed.

Lemma makedirs_fuel_S (fuel : nat) (p : string) (ok : bool) (f : filesystem) :
  makedirs_fuel (S fuel) p ok f
  = let '(head, tail) := path_split p in
    let '(head, tail) :=
      if String.eqb tail "" then path_split head else (head, tail) in
    let leaf (fs : filesystem) : exn + filesystem :=
      match mkdir p fs with
      | inl e => if negb ok || negb (isdir fs p) then inl e else inr fs
      | inr fs' => inr fs'
      end in
    if negb (String.eqb head "") && negb (String.eqb tail "")
       && negb (path_exists f head)
    then
      match makedirs_fuel fuel head ok f with
      | inl FileExistsError => if String.eqb tail "." then inr f else leaf f
      | inl e => inl e
      | inr fs' => if String.eqb tail "." then inr fs' else leaf fs'
      end
    else leaf f.
Proof. reflexivity. Qed.

(** More fuel than the length of the path changes nothing: the recursion
    of [makedirs_fuel] never runs out within [makedirs]. *)
Lemma makedirs_fuel_stable (fuel : nat) (p : string) (ok : bool)
    (f : filesystem) :
  String.length p <= fuel ->
  makedirs_fuel (S fuel) p ok f = makedirs_fuel fuel p ok f.
Proof.
  revert p f. induction fuel as [|fuel IH]; intros p f Hlen.
  - destruct p; [reflexivity | simpl in Hlen; lia].
  - rewrite (makedirs_fuel_S (S fuel)), (makedirs_fuel_S fuel).
    destruct (path_split p) as [h t] eqn:Hsplit.
    destruct (if String.eqb t "" then path_split h else (h, t))
      as [h' t'] eqn:Hsplit'.
    destruct (String.eqb h' "") eqn:Hh; [reflexivity|].
    destruct (String.eqb t' "") eqn:Ht; [reflexivity|].
    destruct (path_exists f h'); [reflexivity|]. cbn [negb andb].
    rewrite IH; [reflexivity|].
    apply path_split_lengths in Hsplit. apply nonempty_length in Ht.
    destruct (String.eqb t ""); [|injection Hsplit' as <- <-; lia].
    apply path_split_lengths in Hsplit'. lia.
Qed.

Lemma makedirs_enough_fuel (k : nat) (p : string) (ok : bool) (f : filesystem) :
  makedirs_fuel (String.length p + k) p ok f = makedirs p ok f.
Proof.
  unfold makedirs. induction k as [|k IH]; [now rewrite Nat.add_0_r|].
  rewrite Nat.add_succ_r, makedirs_fuel_stable by lia. exact IH.
Qed.

(** [os.makedirs("")] raises whatever the file system holds. *)
Lemma makedirs_empty (ok : bool) (f : filesystem) :
  makedirs "" ok f = inl FileNotFoundError.
Proof. unfold makedirs. simpl. now destruct ok. Qed.

(** Opening for appending keeps the lines of every file. *)
Lemma py_open_append_lines (p : string) (f f' : filesystem) (h : file_object) :
  py_open p ModeAppend f = inr (h, f') ->
  h = {| name := p; mode := ModeAppend; closed := false |}
  /\ dirs f' = dirs f
  /\ (String.eqb (dirname p) "" || isdir f (dirname p)) = true
  /\ forall q, read_lines f' q = read_lines f q.
Proof.
  unfold py_open. destruct (String.eqb p ""); [discriminate|].
  destruct (isdir f p); [discriminate|].
  unfold parent_ok.
  destruct (String.eqb (dirname p) "" || isdir f (dirname p)) eqn:Hpar.
  - intros [= <- <-]. repeat split. intros q. unfold read_lines. cbn [files].
    destruct (decide (p = q)) as [->|Hne].
    + rewrite lookup_insert_eq. now destruct (files f !! q).
    + now rewrite lookup_insert_ne.
  - destruct (isfile f (dirname p)); discriminate.
Qed.

(** When the constructor returns, the logger appends to the path it was
    given, the parent directory exists, and every file holds the lines it
    held before. *)
Lemma init_preserves_lines (p : string) (w w' : World) (l : AuditLogger.t) :
  AuditLogger.__init__ p w = (inr l, w') ->
  AuditLogger._path l = p
  /\ AuditLogger._file l = {| name := p; mode := ModeAppend; closed := false |}
  /\ isdir (fs w') (dirname p) = true
  /\ (forall q, read_lines (fs w') q = read_lines (fs w) q)
  /\ _groq_consecutive_failures w' = _groq_consecutive_failures w
  /\ sent w' = sent w.
Proof.
  unfold AuditLogger.__init__, bind, on_fs, ret.
  destruct (makedirs (dirname p) true (fs w)) as [e|f1] eqn:Hmk;
    [discriminate|].
  cbn [fs with_fs].
  destruct (py_open p ModeAppend f1) as [e|[h f2]] eqn:Hop; [discriminate|].
  intros [= <- <-]. cbn [AuditLogger._path AuditLogger._file fs with_fs
                         _groq_consecutive_failures sent].
  apply py_open_append_lines in Hop as (-> & Hd & Hpar & Hlines).
  apply makedirs_fuel_files in Hmk as Hfiles.
  assert (Hne : String.eqb (dirname p) "" = false).
  { destruct (String.eqb_spec (dirname p) "") as [E|]; [|reflexivity].
    rewrite E, makedirs_empty in Hmk. discriminate. }
  rewrite Hne in Hpar. cbn [orb] in Hpar.
  repeat split.
  - unfold isdir in *. now rewrite Hd.
  - intros q. rewrite Hlines. unfold read_lines. now rewrite Hfiles.
Qed.

(** The constructor raises for every path without a directory part. *)
Lemma init_without_directory (p : string) (w : World) :
  dirname p = "" ->
  AuditLogger.__init__ p w = (inl FileNotFoundError, w).
Proof.
  intros Hd. unfold AuditLogger.__init__, bind, on_fs.
  now rewrite Hd, makedirs_empty.
Qed.

(** C8, at a target path the constructor cannot open.  A bare file name
    has the empty string for its directory; [os.makedirs] raises on it and
    the file is never opened, whatever the file system holds.  With a
    directory in front the same name is opened for appending. *)
Theorem init_bare_filename_raises (w : World) :
  dirname "audit_log.jsonl" = ""
  /\ AuditLogger.__init__ "audit_log.jsonl" w = (inl FileNotFoundError, w)
  /\ fst (AuditLogger.__init__ "outputs/audit_log.jsonl" (world_at 0))
     = inr logger.
Proof.
  split; [reflexivity|]. split; [now apply init_without_directory|].
  now vm_compute.
Qed.

End AuditLoggerFacts.

(* ===================================================================== *)
(** * More about the string primitives                                    *)
(* ===================================================================== *)

Module TextFacts.
Import PyStr PyStrFacts Text.

Lemma rstrip_cons (c : ascii) (s : string) :
  rstrip (String c s)
  = match rstrip s with
    | EmptyString => if isspace c then EmptyString else String c EmptyString
    | r => String c r
    end.
Proof. reflexivity. Qed.

Lemma rstrip_idempotent (s : string) : rstrip (rstrip s) = rstrip s.
Proof.
  induction s as [|c s IH]; [reflexivity|]. rewrite rstrip_cons.
  destruct (rstrip s) as [|a r] eqn:Hr.
  - destruct (isspace c) eqn:Hc; [reflexivity|].
    rewrite rstrip_cons. cbn [rstrip]. now rewrite Hc.
  - rewrite rstrip_cons, IH. reflexivity.
Qed.

Lemma lstrip_head (s : string) (c : ascii) (t : string) :
  lstrip s = String c t -> isspace c = false.
Proof.
  induction s as [|a s IH]; [discriminate|]. cbn [lstrip].
  destruct (isspace a) eqn:Ha; [exact IH|]. now intros [= <- <-].
Qed.

Lemma rstrip_head (s : string) (c : ascii) (t : string) :
  rstrip s = String c t -> exists t', s = String c t'.
Proof.
  destruct s as [|a s]; [discriminate|]. cbn [rstrip].
  destruct (rstrip s); [destruct (isspace a); [discriminate|]|];
    intros [= <- <-]; now eexists.
Qed.

Lemma lstrip_fixed (s : string) :
  (forall c t, s = String c t -> isspace c = false) -> lstrip s = s.
Proof.
  destruct s as [|c s]; [reflexivity|]. intros H. cbn [lstrip].
  now rewrite (H c s eq_refl).
Qed.

(** [strip] removes all there is to remove. *)
Lemma strip_idempotent (s : string) : strip (strip s) = strip s.
Proof.
  unfold strip. rewrite (lstrip_fixed (rstrip (lstrip s))).
  - apply rstrip_idempotent.
  - intros c t H. apply rstrip_head in H as [t' H].
    now apply lstrip_head in H.
Qed.

Lemma lstrip_spaces (ws s : string) :
  all_space ws = true -> lstrip (ws +:+ s) = lstrip s.
Proof.
  induction ws as [|c ws IH]; [reflexivity|]. cbn [all_space].
  intros [Hc Hws]%andb_true_iff.
  change (String c ws +:+ s) with (String c (ws +:+ s)).
  cbn [lstrip]. rewrite Hc. now apply IH.
Qed.

Lemma rstrip_all_space (ws : string) :
  all_space ws = true -> rstrip ws = EmptyString.
Proof.
  induction ws as [|c ws IH]; [reflexivity|]. cbn [all_space rstrip].
  intros [Hc Hws]%andb_true_iff. now rewrite IH, Hc.
Qed.

Lemma rstrip_spaces (s ws : string) :
  all_space ws = true -> rstrip (s +:+ ws) = rstrip s.
Proof.
  intros Hws. induction s as [|c s IH].
  - change (EmptyString +:+ ws) with ws. now apply rstrip_all_space.
  - change (String c s +:+ ws) with (String c (s +:+ ws)).
    cbn [rstrip]. now rewrite IH.
Qed.

Lemma lstrip_append (s ws : string) :
  lstrip s <> EmptyString -> lstrip (s +:+ ws) = lstrip s +:+ ws.
Proof.
  induction s as [|c s IH]; [intros H; now contradiction H|].
  change (String c s +:+ ws) with (String c (s +:+ ws)). cbn [lstrip].
  destruct (isspace c); [exact IH | reflexivity].
Qed.

Lemma lstrip_all_space (s : string) :
  lstrip s = EmptyString -> all_space s = true.
Proof.
  induction s as [|c s IH]; [reflexivity|]. cbn [lstrip all_space].
  destruct (isspace c); [exact IH | discriminate].
Qed.

Lemma all_space_append (s t : string) :
  all_space s = true -> all_space t = true -> all_space (s +:+ t) = true.
Proof.
  induction s as [|c s IH]; [now intros _ H|].
  change (String c s +:+ t) with (String c (s +:+ t)). cbn [all_space].
  intros [Hc Hs]%andb_true_iff Ht. rewrite Hc. now apply IH.
Qed.

Lemma lstrip_of_spaces (s : string) :
  all_space s = true -> lstrip s = EmptyString.
Proof.
  induction s as [|c s IH]; [reflexivity|]. cbn [all_space lstrip].
  intros [Hc Hs]%andb_true_iff. rewrite Hc. now apply IH.
Qed.

(** Whitespace around a text does not survive [strip]. *)
Lemma strip_padding (ws1 s ws2 : string) :
  all_space ws1 = true -> all_space ws2 = true ->
  strip (ws1 +:+ s +:+ ws2) = strip s.
Proof.
  intros H1 H2. unfold strip. rewrite lstrip_spaces by assumption.
  destruct (lstrip s) as [|c t] eqn:Hl.
  - apply lstrip_all_space in Hl.
    now rewrite lstrip_of_spaces by now apply all_space_append.
  - rewrite lstrip_append by congruence. rewrite Hl.
    now apply rstrip_spaces.
Qed.

Lemma isspace_upper_char (c : ascii) : isspace (upper_char c) = isspace c.
Proof. destruct c as [[] [] [] [] [] [] [] []]; reflexivity. Qed.

Lemma upper_char_idempotent (c : ascii) :
  upper_char (upper_char c) = upper_char c.
Proof. destruct c as [[] [] [] [] [] [] [] []]; reflexivity. Qed.

Lemma upper_idempotent (s : string) : upper (upper s) = upper s.
Proof.
  induction s as [|c s IH]; [reflexivity|]. cbn [upper].
  now rewrite upper_char_idempotent, IH.
Qed.

Lemma upper_lstrip (s : string) : upper (lstrip s) = lstrip (upper s).
Proof.
  induction s as [|c s IH]; [reflexivity|]. cbn [lstrip upper].
  rewrite isspace_upper_char. now destruct (isspace c).
Qed.

Lemma upper_rstrip (s : string) : upper (rstrip s) = rstrip (upper s).
Proof.
  induction s as [|c s IH]; [reflexivity|]. cbn [rstrip upper].
  rewrite <- IH, isspace_upper_char.
  destruct (rstrip s); [now destruct (isspace c) | reflexivity].
Qed.

Lemma upper_strip (s : string) : upper (strip s) = strip (upper s).
Proof. unfold strip. now rewrite upper_rstrip, upper_lstrip. Qed.

Lemma upper_slice_to (n : nat) (s : string) :
  upper (slice_to n s) = slice_to n (upper s).
Proof.
  unfold slice_to. revert s; induction n as [|n IH]; intros [|c s];
    cbn [substring upper]; try reflexivity.
  now rewrite IH.
Qed.

End TextFacts.

(* ===================================================================== *)
(** * More about the decision parser                                      *)
(* ===================================================================== *)

Module TriageMore.
Import Runtime PyStr PyStrFacts Text TextFacts Triage TriageFacts.

(** The decision and the confidence are read off two strings only: the
    upper-cased window and the upper-cased text. *)
Lemma parse_decision_depends (t1 t2 : string) :
  first_part t1 = first_part t2 -> scanned t1 = scanned t2 ->
  exists d c j1 j2,
    _parse_decision t1 = inr (d, j1, c) /\ _parse_decision t2 = inr (d, j2, c).
Proof.
  intros Hp Hs. unfold _parse_decision.
  change (upper (slice_to 10 (strip t1))) with (first_part t1).
  change (upper (slice_to 10 (strip t2))) with (first_part t2).
  change (upper (strip t1)) with (scanned t1).
  change (upper (strip t2)) with (scanned t2).
  rewrite Hp, Hs.
  destruct (contains "YES" (first_part t2)); [now eexists _, _, _, _|].
  destruct (contains "NO" (first_part t2)); [now eexists _, _, _, _|].
  destruct (has_word "YES" (scanned t2)) eqn:Hy,
           (has_word "NO" (scanned t2)) eqn:Hn;
    cbn [andb negb]; try now eexists _, _, _, _.
  destruct (has_word_index _ _ wordy_yes Hy) as [y ->].
  destruct (has_word_index _ _ wordy_no Hn) as [n ->].
  now eexists _, _, _, _.
Qed.

(** X1.  A token within the first ten characters settles the answer with
    confidence 1.0 whatever follows, and YES is looked for first: when both
    YES and NO occur in the window the decision is YES, also when NO comes
    first. *)
Theorem parse_decision_prefix_rule (text : string) :
  Occurs "YES" (first_part text) \/ Occurs "NO" (first_part text) ->
  exists d j,
    _parse_decision text = inr (d, j, 1.0%float)
    /\ (Occurs "YES" (first_part text) -> d = "YES")
    /\ (~ Occurs "YES" (first_part text) -> d = "NO").
Proof.
  intros H. unfold _parse_decision.
  change (upper (slice_to 10 (strip text))) with (first_part text).
  destruct (contains "YES" (first_part text)) eqn:Hy.
  - eexists _, _. split; [reflexivity|]. split; [reflexivity|].
    intros Hno. now apply contains_spec in Hy.
  - assert (Hny : ~ Occurs "YES" (first_part text))
      by (rewrite <- contains_spec; congruence).
    destruct H as [H|H]; [contradiction|].
    apply contains_spec in H. rewrite H.
    eexists _, _. split; [reflexivity|]. split; [contradiction | reflexivity].
Qed.

Lemma parse_decision_prefix_rule_witness :
  exists d j,
    _parse_decision "No - yes, include it" = inr (d, j, 1.0%float)
    /\ (Occurs "YES" (first_part "No - yes, include it") -> d = "YES")
    /\ (~ Occurs "YES" (first_part "No - yes, include it") -> d = "NO").
Proof.
  apply (parse_decision_prefix_rule "No - yes, include it").
  left. apply contains_spec. reflexivity.
Defined.

(** X2.  The parser always answers YES, NO or UNCERTAIN with confidence
    1.0, 0.8 or 0.5.  It answers UNCERTAIN exactly when neither token
    occurs in the first ten characters and neither stands alone anywhere
    in the text, and then with confidence 0.5. *)
Theorem parse_decision_uncertain_iff (text : string) :
  exists d j c,
    _parse_decision text = inr (d, j, c)
    /\ (d = "YES" \/ d = "NO" \/ d = "UNCERTAIN")
    /\ (c = 1.0%float \/ c = 0.8%float \/ c = 0.5%float)
    /\ (d = "UNCERTAIN" -> c = 0.5%float)
    /\ (d = "UNCERTAIN" <->
        ~ Occurs "YES" (first_part text) /\ ~ Occurs "NO" (first_part text)
        /\ ~ Standalone "YES" (scanned text)
        /\ ~ Standalone "NO" (scanned text)).
Proof.
  unfold _parse_decision.
  change (upper (slice_to 10 (strip text))) with (first_part text).
  change (upper (strip text)) with (scanned text).
  setoid_rewrite <- contains_spec.
  setoid_rewrite <- (has_word_spec "YES" _ wordy_yes).
  setoid_rewrite <- (has_word_spec "NO" _ wordy_no).
  destruct (contains "YES" (first_part text)).
  { eexists _, _, _. split; [reflexivity|].
    repeat split; auto; try discriminate. intros (H & _); congruence. }
  destruct (contains "NO" (first_part text)).
  { eexists _, _, _. split; [reflexivity|].
    repeat split; auto; try discriminate. intros (_ & H & _); congruence. }
  destruct (has_word "YES" (scanned text)) eqn:Hy,
           (has_word "NO" (scanned text)) eqn:Hn; cbn [andb negb].
  - destruct (has_word_index _ _ wordy_yes Hy) as [y ->].
    destruct (has_word_index _ _ wordy_no Hn) as [n ->].
    eexists _, _, _. split; [reflexivity|].
    destruct (y <? n)%nat; repeat split; auto; try discriminate;
      intros (_ & _ & H & _); congruence.
  - eexists _, _, _. split; [reflexivity|].
    repeat split; auto; try discriminate. intros (_ & _ & H & _); congruence.
  - eexists _, _, _. split; [reflexivity|].
    repeat split; auto; try discriminate. intros (_ & _ & _ & H); congruence.
  - eexists _, _, _. split; [reflexivity|].
    repeat split; auto; congruence.
Qed.

(** X3.  Whitespace before and after the response changes nothing of what
    the parser returns. *)
Theorem parse_decision_ignores_padding (ws1 text ws2 : string) :
  all_space ws1 = true -> all_space ws2 = true ->
  _parse_decision (ws1 +:+ text +:+ ws2) = _parse_decision text.
Proof.
  intros H1 H2. unfold _parse_decision.
  now rewrite (strip_padding ws1 text ws2 H1 H2).
Qed.

Lemma parse_decision_ignores_padding_witness :
  _parse_decision ("  " +:+ "no. Off topic." +:+ " " +:+ newline)
  = _parse_decision "no. Off topic.".
Proof.
  apply (parse_decision_ignores_padding "  " "no. Off topic."
           (" " +:+ newline)); reflexivity.
Defined.

(** X4.  On ASCII text the decision and the confidence do not depend on
    letter case: two responses that agree once upper-cased get the same
    decision and the same confidence (their justifications keep their own
    case).  Beyond ASCII upper-casing can lengthen a text and move a token
    into the window of ten characters. *)
Theorem parse_decision_ignores_case (t1 t2 : string) :
  is_ascii t1 = true -> is_ascii t2 = true ->
  upper t1 = upper t2 ->
  exists d c j1 j2,
    _parse_decision t1 = inr (d, j1, c) /\ _parse_decision t2 = inr (d, j2, c).
Proof.
  intros _ _ H. apply parse_decision_depends.
  - unfold first_part. now rewrite !upper_slice_to, !upper_strip, H.
  - unfold scanned. now rewrite !upper_strip, H.
Qed.

Lemma parse_decision_ignores_case_witness :
  exists d c j1 j2,
    _parse_decision "The answer is Yes, clearly" = inr (d, j1, c)
    /\ _parse_decision "THE ANSWER IS yes, CLEARLY" = inr (d, j2, c).
Proof.
  apply (parse_decision_ignores_case "The answer is Yes, clearly"
           "THE ANSWER IS yes, CLEARLY"); reflexivity.
Defined.

End TriageMore.

(* ===================================================================== *)
(** * More about the fallback controller                                  *)
(* ===================================================================== *)

Module CallMore.
Import Runtime Utils Trace Records UtilsFacts Scenario.

Section WithEnv.
Variable env : Env.

Lemma to_secondary_sr (prompt : string) (config : Config) (params : Params)
    (o : PostOutcome) :
  to_secondary (secondary_request env prompt config params, o) = true.
Proof. reflexivity. Qed.

(** A result of the gateway has no whitespace left at either end. *)
Lemma reply_text_stripped (o : PostOutcome) (r : ProviderResult) :
  reply o = inr r -> PyStr.strip (text r) = text r.
Proof.
  unfold reply. destruct o as [e|lat resp]; [discriminate|].
  destruct (status_code resp =? 429)%Z; [discriminate|].
  destruct ((400 <=? status_code resp)%Z && (status_code resp <? 600)%Z);
    [discriminate|].
  destruct (body resp) as [|data]; [discriminate|].
  destruct (choices data) as [|content rest]; [discriminate|].
  intros [= <-]. cbn [text]. apply TextFacts.strip_idempotent.
Qed.

Lemma assoc_error {A} (k : string) (l : list (string * A)) (e : exn) :
  assoc k l = inl e -> e = KeyError.
Proof.
  induction l as [|[k' v] l IH]; cbn [assoc]; [now intros [= <-]|].
  destruct (String.eqb k k'); [discriminate | exact IH].
Qed.

Section OneCall.
Variables (prompt : string) (config : Config) (params : Params)
  (stage : string) (audit_logger : AuditLogger.t) (article_id : string)
  (decision_label : option string).

Local Abbreviation pr := (primary_request env prompt config params).
Local Abbreviation sr := (secondary_request env prompt config params).
Local Abbreviation run_finish :=
  (finish env prompt stage audit_logger article_id decision_label).
Local Abbreviation run_fallback :=
  (fallback env prompt config params stage audit_logger article_id
     decision_label).
Local Abbreviation run_call :=
  (call_llm env prompt config stage audit_logger article_id decision_label).

(** The tail in full: what it returns and the world it leaves. *)
Lemma finish_run (provider : string) (r : ProviderResult) (w : World) :
  (closed (AuditLogger._file audit_logger) = true
   /\ run_finish provider r w = (inl ValueError, ticked w))
  \/ (closed (AuditLogger._file audit_logger) = false
      /\ exists w',
          run_finish provider r w
          = (inr {| result := r; provider := provider |}, w')
          /\ sent w' = sent w
          /\ _groq_consecutive_failures w' = _groq_consecutive_failures w
          /\ slept w'
             = if String.eqb provider "groq"
               then 2.1%float :: slept w else slept w).
Proof.
  destruct (closed (AuditLogger._file audit_logger)) eqn:Hc.
  - left. split; [reflexivity | now apply finish_closed].
  - right. split; [reflexivity|].
    unfold finish, AuditLogger.log, bind, now, on_fs, append_line.
    rewrite Hc. cbn beta iota zeta.
    destruct (String.eqb provider "groq"); eexists;
      (split; [reflexivity|]); now repeat split.
Qed.

(** The fallback in full. *)
Lemma fallback_run (w : World) :
  let o := http_post env (length (sent w)) sr in
  let w1 := record_sent sr o w in
  (exists e, reply o = inl e /\ run_fallback w = (inl e, w1))
  \/ (exists r, reply o = inr r
               /\ closed (AuditLogger._file audit_logger) = true
               /\ run_fallback w = (inl ValueError, ticked w1))
  \/ (exists r w',
        reply o = inr r
        /\ closed (AuditLogger._file audit_logger) = false
        /\ run_fallback w = (inr {| result := r; provider := "together" |}, w')
        /\ sent w' = sent w1
        /\ _groq_consecutive_failures w' = _groq_consecutive_failures w
        /\ slept w' = slept w).
Proof.
  intros o w1. rewrite fallback_eq. fold o. fold w1.
  destruct (reply o) as [e|r] eqn:Hr.
  - left. now exists e.
  - right. destruct (finish_run "together" r w1) as [[Hc E] | (Hc & w' & E & Hs & Hn & Hz)].
    + left. now exists r.
    + right. exists r, w'. now repeat split.
Qed.

Ltac tails :=
  repeat match goal with
    | |- context [fallback env prompt config params stage audit_logger
                    article_id decision_label ?w0] =>
        let E := fresh "E" in
        destruct (fallback_run w0)
          as [(? & ? & E) | [(? & ? & ? & E) | (? & ? & ? & ? & E & ? & ? & ?)]];
        rewrite E
    | |- context [finish env prompt stage audit_logger article_id
                    decision_label ?pv ?r ?w0] =>
        let E := fresh "E" in
        destruct (finish_run pv r w0) as [[? E] | (? & ? & E & ? & ? & ?)];
        rewrite E
    end;
  cbn [fst snd sent slept fs clock record_sent with_failures asleep ticked
       length _groq_consecutive_failures provider result] in *.

Lemma request_budget_configured (w : World) :
  assoc stage (inference config) = inr params ->
  let w' := snd (run_call w) in
  exists prim sec,
    sent w' = (sec ++ prim ++ sent w)%list
    /\ length prim <= 2 /\ length sec <= 1
    /\ Forall (fun a => to_primary a = true) prim
    /\ Forall (fun a => to_secondary a = true) sec
    /\ (length prim = 2 ->
        (_groq_consecutive_failures w + 1 < _GROQ_SKIP_THRESHOLD)%Z
        /\ exists a, last prim = Some a /\ rate_limited (snd a) = true).
Proof.
  intros Hcfg w'. subst w'.
  destruct (call_llm_path env prompt config params stage audit_logger
              article_id decision_label w Hcfg);
    repeat match goal with
      | |- context [snd (fallback _ ?p ?c ?pa ?s ?l ?a ?d ?w0)] =>
          destruct (fallback_frame env p c pa s l a d w0) as [_ ->]
      | |- context [snd (finish _ ?p ?s ?l ?a ?d ?pv ?r ?w0)] =>
          destruct (finish_frame env p s l a d pv r w0) as [_ ->]
      end;
    cbn [sent record_sent with_failures asleep snd length].
  - eexists [], [_]. split; [reflexivity|].
    repeat split; cbn in *; try lia; try (exfalso; lia);
      repeat constructor.
  - eexists [_], []. split; [reflexivity|].
    repeat split; cbn in *; try lia; try (exfalso; lia);
      repeat constructor.
  - eexists [_], [_]. split; [reflexivity|].
    repeat split; cbn in *; try lia; try (exfalso; lia);
      repeat constructor.
  - eexists [_], []. split; [reflexivity|].
    repeat split; cbn in *; try lia; try (exfalso; lia);
      repeat constructor.
  - eexists [_], [_]. split; [reflexivity|].
    repeat split; cbn in *; try lia; try (exfalso; lia);
      repeat constructor.
  - eexists [_; _], []. split; [reflexivity|].
    repeat split; cbn in *; try lia; try (exfalso; lia);
      repeat constructor.
    eexists. split; [reflexivity|]. now apply rate_limited_reply.
  - eexists [_; _], [_]. split; [reflexivity|].
    repeat split; cbn in *; try lia; try (exfalso; lia);
      repeat constructor.
    eexists. split; [reflexivity|]. now apply rate_limited_reply.
Qed.

(** A result carries the label of one of the two providers. *)
Lemma call_llm_provider_label (w w' : World) (r : LlmResult) :
  assoc stage (inference config) = inr params ->
  run_call w = (inr r, w') ->
  provider r = "groq" \/ provider r = "together".
Proof.
  intros Hcfg. revert w' r.
  destruct (call_llm_path env prompt config params stage audit_logger
              article_id decision_label w Hcfg);
    repeat match goal with o := _ |- _ => subst o end;
    tails; intros w' r' [= <- <-] || intros w' r' [=];
    cbn [provider]; auto.
Qed.

(** The text of a result has no whitespace at its ends. *)
Lemma call_llm_text_stripped (w w' : World) (r : LlmResult) :
  assoc stage (inference config) = inr params ->
  run_call w = (inr r, w') ->
  PyStr.strip (text r) = text r.
Proof.
  intros Hcfg. revert w' r.
  destruct (call_llm_path env prompt config params stage audit_logger
              article_id decision_label w Hcfg);
    repeat match goal with o := _ |- _ => subst o end;
    tails; intros w' r' [= <- <-] || intros w' r' [=];
    cbn [result text];
    match goal with
    | Hr : reply _ = inr ?r0 |- PyStr.strip (text ?r0) = _ =>
        exact (reply_text_stripped _ _ Hr)
    end.
Qed.

(** X6.  A call sleeps for two reasons only.  It sleeps 60 seconds once,
    before the retry, exactly when the first attempt was rate-limited with
    the counter below 2; and it ends with the 2.1 second pacing sleep
    exactly when it returns a result of the primary provider.  A result of
    the secondary provider and every raised exception add no pacing. *)
Theorem call_llm_sleeps (w : World) :
  assoc stage (inference config) = inr params ->
  let run := run_call w in
  let o1 := http_post env (length (sent w)) pr in
  let backoff :=
    if (_groq_consecutive_failures w + 1 <? _GROQ_SKIP_THRESHOLD)%Z
       && rate_limited o1
    then [60%float] else [] in
  let pace :=
    match fst run with
    | inr r => if String.eqb (provider r) "groq" then [2.1%float] else []
    | inl _ => []
    end in
  slept (snd run) = (pace ++ backoff ++ slept w)%list.
Proof.
  intros Hcfg run o1. subst run o1.
  destruct (call_llm_path env prompt config params stage audit_logger
              article_id decision_label w Hcfg);
    unfold _GROQ_SKIP_THRESHOLD in *;
    repeat match goal with o := _ |- _ => subst o end;
    repeat match goal with
      | H : reply ?o = inl RateLimitError |- _ =>
          rewrite (proj2 (rate_limited_reply o) H)
      end;
    try (assert (rate_limited (http_post env (length (sent w)) pr) = false)
           as -> by (unfold rate_limited;
                     match goal with
                     | H : reply _ = _ |- _ => rewrite H
                     end;
                     first [ reflexivity
                           | match goal with
                             | H : _ = Timeout \/ _ = HTTPError |- _ =>
                                 now destruct H as [-> | ->]
                             end
                           | match goal with
                             | H : handled ?e = false |- _ => now destruct e
                             end ]));
    rewrite ?andb_false_r, ?andb_true_r;
    repeat match goal with
      | |- context [(?a <? 3)%Z] =>
          first [ rewrite (proj2 (Z.ltb_lt a 3)) by lia
                | rewrite (proj2 (Z.ltb_ge a 3)) by lia ]
      end;
    tails; try reflexivity;
    repeat match goal with H : slept _ = _ |- _ => rewrite H end;
    reflexivity.
Qed.


(** X8.  What a call returns is what the last request it sent was answered
    with: the result carries the label of the provider that request went
    to, the text has no whitespace at either end, and a result labelled
    with the primary provider leaves the counter at 0. *)
Theorem call_llm_returns (w w' : World) (r : LlmResult) :
  assoc stage (inference config) = inr params ->
  run_call w = (inr r, w') ->
  exists rq o rest,
    sent w' = (rq, o) :: rest
    /\ reply o = inr (result r)
    /\ PyStr.strip (text r) = text r
    /\ closed (AuditLogger._file audit_logger) = false
    /\ (provider r = "groq" /\ rq = pr
        /\ _groq_consecutive_failures w' = 0%Z
        \/ provider r = "together" /\ rq = sr).
Proof.
  intros Hcfg. revert w' r.
  destruct (call_llm_path env prompt config params stage audit_logger
              article_id decision_label w Hcfg);
    repeat match goal with o := _ |- _ => subst o end;
    tails; intros w' r' [= <- <-] || intros w' r' [=];
    cbn [fst snd sent slept fs clock record_sent with_failures asleep ticked
         result provider text].
  all: match goal with
       | Hs : sent ?x = _ :: _ |- context [sent ?x] =>
           rewrite Hs; eexists _, _, _; split; [reflexivity|]
       end.
  all: match goal with
       | Hr : reply _ = inr ?r0 |- reply _ = inr ?r0 /\ _ =>
           split; [exact Hr|];
           split; [exact (reply_text_stripped _ _ Hr)|];
           split; [assumption|]
       end.
  all: first [ left; repeat split; (reflexivity || assumption)
             | right; split; reflexivity ].
Qed.

(** The tail writes a record that names the call. *)
Lemma finish_line (provider : string) (r : ProviderResult) (w : World) :
  (exists line w',
     run_finish provider r w = (inr {| result := r; provider := provider |}, w')
     /\ fs w' = fs_append audit_logger line (fs w)
     /\ identifies env prompt stage article_id line)
  \/ (exists e w', run_finish provider r w = (inl e, w') /\ fs w' = fs w).
Proof.
  destruct (closed (AuditLogger._file audit_logger)) eqn:Hc.
  - right. exists ValueError, (ticked w). now rewrite finish_closed.
  - left. unfold finish, AuditLogger.log, bind, now, on_fs, append_line.
    rewrite Hc. cbn beta iota zeta.
    destruct (String.eqb provider "groq"); eexists _, _;
      (split; [reflexivity|]); (split; [reflexivity|]);
      now repeat split.
Qed.

Lemma fallback_line (w : World) :
  (exists r line w',
     run_fallback w = (inr r, w')
     /\ fs w' = fs_append audit_logger line (fs w)
     /\ identifies env prompt stage article_id line)
  \/ (exists e w', run_fallback w = (inl e, w') /\ fs w' = fs w).
Proof.
  rewrite fallback_eq. destruct (reply _) as [e|r].
  - right. now eexists _, _.
  - destruct (finish_line "together" r
                (record_sent sr (http_post env (length (sent w)) sr) w))
      as [(line & w' & H1 & H2 & H3) | (e & w' & H1 & H2)].
    + left. now exists {| result := r; provider := "together" |}, line, w'.
    + right. now exists e, w'.
Qed.

Lemma call_llm_line (w : World) :
  assoc stage (inference config) = inr params ->
  (exists r line w',
     run_call w = (inr r, w')
     /\ fs w' = fs_append audit_logger line (fs w)
     /\ identifies env prompt stage article_id line)
  \/ (exists e w', run_call w = (inl e, w') /\ fs w' = fs w).
Proof.
  intros Hcfg.
  destruct (call_llm_path env prompt config params stage audit_logger
              article_id decision_label w Hcfg);
    try (match goal with
         | |- context [fallback _ _ _ _ _ _ _ _ ?w0] => exact (fallback_line w0)
         | |- context [finish _ _ _ _ _ _ ?p ?r ?w0] =>
             destruct (finish_line p r w0)
               as [(line & w' & E1 & E2 & E3) | (e' & w' & E1 & E2)];
             [left; exists {| result := r; provider := p |}, line, w';
              exact (conj E1 (conj E2 E3))
             |right; exists e', w'; exact (conj E1 E2)]
         end).
  right. now eexists _, _.
Qed.

(** X26.  The record of a call names the call: it has the eleven standard
    keys in their order, the stage as its module, the article id it was
    given, and the first sixteen characters of the digest of the prompt. *)
Theorem call_llm_record_identifies (w w' : World) (r : LlmResult) :
  assoc stage (inference config) = inr params ->
  run_call w = (inr r, w') ->
  exists line,
    audit_log audit_logger w' = (audit_log audit_logger w ++ [line])%list
    /\ identifies env prompt stage article_id line.
Proof.
  intros Hcfg Hrun.
  destruct (call_llm_line w Hcfg)
    as [(r' & line & w1 & H1 & H2 & H3) | (e & w1 & H1 & _)];
    rewrite Hrun in H1; [|discriminate].
  injection H1 as <- <-. exists line. split; [|exact H3].
  unfold audit_log. rewrite H2. unfold read_lines, fs_append. cbn [files].
  now rewrite lookup_insert_eq.
Qed.

End OneCall.

(** X5.  A call sends at most three requests: at most two to the primary
    provider, and after them at most one to the secondary provider.  It
    sends two to the primary only when the first was rate-limited with the
    counter below 2. *)
Theorem call_llm_request_budget (prompt : string) (config : Config)
    (stage : string) (audit_logger : AuditLogger.t) (article_id : string)
    (decision_label : option string) (w : World) :
  let w' := snd (call_llm env prompt config stage audit_logger article_id
                   decision_label w) in
  exists prim sec,
    sent w' = (sec ++ prim ++ sent w)%list
    /\ length prim <= 2 /\ length sec <= 1
    /\ Forall (fun a => to_primary a = true) prim
    /\ Forall (fun a => to_secondary a = true) sec
    /\ (length prim = 2 ->
        (_groq_consecutive_failures w + 1 < _GROQ_SKIP_THRESHOLD)%Z
        /\ exists a, last prim = Some a /\ rate_limited (snd a) = true).
Proof.
  destruct (assoc stage (inference config)) as [e|params] eqn:Hcfg.
  - rewrite (call_llm_unconfigured env prompt config stage audit_logger
               article_id decision_label e w Hcfg).
    exists [], []. cbn. repeat split; try lia; try constructor; try discriminate.
  - now apply (request_budget_configured prompt config params).
Qed.

(** X9.  A stage that the configuration has no parameters for makes the
    call raise [KeyError] at once: nothing is sent, logged or counted, and
    the process is in the state it was in. *)
Theorem call_llm_unknown_stage (prompt : string) (config : Config)
    (stage : string) (audit_logger : AuditLogger.t) (article_id : string)
    (decision_label : option string) (w : World) :
  Forall (fun kv => fst kv <> stage) (inference config) ->
  call_llm env prompt config stage audit_logger article_id decision_label w
  = (inl KeyError, w).
Proof.
  intros Hmiss. apply call_llm_unconfigured.
  induction Hmiss as [|[k v] l Hk _ IH]; [reflexivity|]. cbn [assoc].
  destruct (String.eqb_spec stage k) as [->|_]; [now contradiction Hk | exact IH].
Qed.

(** What a call does to the file system, for any stage: one record more
    in the logger's file when it returns, nothing when it raises. *)
Lemma call_llm_outcome (prompt : string) (config : Config) (stage : string)
    (audit_logger : AuditLogger.t) (article_id : string)
    (decision_label : option string) (w : World) :
  (exists r line w',
     call_llm env prompt config stage audit_logger article_id decision_label w
     = (inr r, w')
     /\ (provider r = "groq" \/ provider r = "together")
     /\ PyStr.strip (text r) = text r
     /\ call_record env decision_label r line
     /\ fs w' = fs_append audit_logger line (fs w))
  \/ (exists e w',
        call_llm env prompt config stage audit_logger article_id
          decision_label w = (inl e, w')
        /\ fs w' = fs w).
Proof.
  destruct (assoc stage (inference config)) as [e|params] eqn:Hcfg.
  - right. exists e, w. split; [|reflexivity].
    now apply call_llm_unconfigured.
  - destruct (call_llm_fs_configured env prompt config params stage
                audit_logger article_id decision_label w Hcfg)
      as [(r & line & w' & Hrun & Hrec & Hfs) | (e & w' & Hrun & Hfs)].
    + left. exists r, line, w'. split; [exact Hrun|].
      split; [exact (call_llm_provider_label prompt config params stage
                       audit_logger article_id decision_label w w' r Hcfg
                       Hrun)|].
      split; [exact (call_llm_text_stripped prompt config params stage
                       audit_logger article_id decision_label w w' r Hcfg
                       Hrun)|].
      now split.
    + right. now exists e, w'.
Qed.

(** The same with the record's identity. *)
Lemma call_llm_outcome_line (prompt : string) (config : Config)
    (stage : string) (audit_logger : AuditLogger.t) (article_id : string)
    (decision_label : option string) (w : World) :
  (exists r line w',
     call_llm env prompt config stage audit_logger article_id decision_label w
     = (inr r, w')
     /\ fs w' = fs_append audit_logger line (fs w)
     /\ identifies env prompt stage article_id line)
  \/ (exists e w',
        call_llm env prompt config stage audit_logger article_id
          decision_label w = (inl e, w')
        /\ fs w' = fs w).
Proof.
  destruct (assoc stage (inference config)) as [e|params] eqn:Hcfg.
  - right. exists e, w. split; [|reflexivity].
    now apply call_llm_unconfigured.
  - exact (call_llm_line prompt config params stage audit_logger article_id
             decision_label w Hcfg).
Qed.

End WithEnv.
End CallMore.

(* ===================================================================== *)
(** * More concrete runs                                                  *)
(* ===================================================================== *)

Module MoreRuns.
Import Runtime Utils Trace Scenario UtilsFacts CallMore.

Lemma call_llm_sleeps_witness :
  slept (snd (call [rate_limit] None (world_at 0)))
  = [2.1%float; 60%float].
Proof.
  exact (call_llm_sleeps (env_of [rate_limit]) "Is the study relevant?"
           config triage_params "triage" logger "A1" None (world_at 0)
           Runs.triage_configured).
Defined.


Lemma call_llm_returns_witness :
  exists rq o rest,
    sent (snd (call [server_error; answer " NO. Off topic. "] None (world_at 0)))
    = (rq, o) :: rest
    /\ reply o = inr {| text := "NO. Off topic."; tokens_input := 120;
                        tokens_output := 4; latency_ms := 250%float |}.
Proof.
  destruct (call_llm_returns (env_of [server_error; answer " NO. Off topic. "])
              "Is the study relevant?" config triage_params "triage" logger
              "A1" None (world_at 0)
              (snd (call [server_error; answer " NO. Off topic. "] None
                      (world_at 0)))
              {| result := {| text := "NO. Off topic."; tokens_input := 120;
                              tokens_output := 4; latency_ms := 250%float |};
                 provider := "together" |}
              Runs.triage_configured)
    as (rq & o & rest & Hs & Hr & _); [now vm_compute|].
  now exists rq, o, rest.
Defined.

Lemma call_llm_unknown_stage_witness :
  call_llm (env_of []) "Is the study relevant?" config "screening" logger
    "A1" None (world_at 0)
  = (inl KeyError, world_at 0).
Proof.
  apply (call_llm_unknown_stage (env_of []) "Is the study relevant?" config
           "screening" logger "A1" None (world_at 0)).
  repeat constructor; discriminate.
Defined.

Lemma call_llm_record_identifies_witness :
  exists line,
    audit_log logger (snd (call [] None (world_at 0)))
    = (audit_log logger (world_at 0) ++ [line])%list
    /\ Records.identifies (env_of []) "Is the study relevant?" "triage" "A1"
         line.
Proof.
  apply (call_llm_record_identifies (env_of []) "Is the study relevant?"
           config triage_params "triage" logger "A1" None (world_at 0)
           (snd (call [] None (world_at 0)))
           {| result := {| text := "YES. Relevant."; tokens_input := 120;
                           tokens_output := 4; latency_ms := 250%float |};
              provider := "groq" |}
           Runs.triage_configured).
  now vm_compute.
Defined.

End MoreRuns.

(* ===================================================================== *)
(** * More facts about src/audit_logger.py                                *)
(* ===================================================================== *)

Module AuditMore.
Import Runtime Text Trace Records Scenario Situations AuditLoggerFacts.

(** ** Dictionaries *)

Lemma dict_get_set (k k' : string) (v : pyval) (d : dict) :
  dict_get k (dict_set k' v d)
  = if String.eqb k k' then Some v else dict_get k d.
Proof.
  induction d as [|[k0 v0] d IH]; cbn [dict_set dict_get]; [reflexivity|].
  destruct (String.eqb_spec k' k0) as [->|Hne]; cbn [dict_get].
  - now destruct (String.eqb k k0).
  - rewrite IH. destruct (String.eqb_spec k k0) as [->|]; [|reflexivity].
    destruct (String.eqb_spec k0 k') as [->|]; [now contradiction Hne | reflexivity].
Qed.

Lemma dict_update_snoc (d e : dict) (kv : string * pyval) :
  dict_update d (e ++ [kv])%list = dict_set (fst kv) (snd kv) (dict_update d e).
Proof. unfold dict_update. now rewrite fold_left_app. Qed.

(** After [d.update(e)] a key has the value of its last binding in [e],
    and the value it had in [d] when [e] does not bind it. *)
Lemma dict_get_update (k : string) (d e : dict) :
  dict_get k (dict_update d e)
  = match dict_get k (rev e) with
    | Some v => Some v
    | None => dict_get k d
    end.
Proof.
  induction e as [|[k' v'] e IH] using rev_ind; [reflexivity|].
  rewrite dict_update_snoc, dict_get_set, rev_unit. cbn [fst snd dict_get].
  now destruct (String.eqb k k').
Qed.

Lemma dict_set_keys (k : string) (v : pyval) (d : dict) :
  exists more, map fst (dict_set k v d) = (map fst d ++ more)%list.
Proof.
  induction d as [|[k0 v0] d [more IH]]; cbn [dict_set].
  - now exists [k].
  - destruct (String.eqb_spec k k0) as [->|_].
    + exists []. cbn. now rewrite app_nil_r.
    + exists more. cbn. now rewrite IH.
Qed.

(** [d.update(e)] keeps the keys of [d] in their places and puts the new
    ones after them. *)
Lemma dict_update_keys (d e : dict) :
  exists more, map fst (dict_update d e) = (map fst d ++ more)%list.
Proof.
  induction e as [|kv e [more IH]] using rev_ind.
  - exists []. cbn. now rewrite app_nil_r.
  - rewrite dict_update_snoc.
    destruct (dict_set_keys (fst kv) (snd kv) (dict_update d e)) as [more' ->].
    rewrite IH, <- app_assoc. now eexists.
Qed.

(** ** The file system *)

Lemma read_lines_append (l : AuditLogger.t) (line : dict) (f : filesystem) :
  read_lines (fs_append l line f) (name (AuditLogger._file l))
  = (read_lines f (name (AuditLogger._file l)) ++ [line])%list.
Proof. unfold read_lines, fs_append. cbn [files]. now rewrite lookup_insert_eq. Qed.

Lemma read_lines_append_other (l : AuditLogger.t) (line : dict)
    (f : filesystem) (q : string) :
  q <> name (AuditLogger._file l) ->
  read_lines (fs_append l line f) q = read_lines f q.
Proof.
  intros Hq. unfold read_lines, fs_append. cbn [files].
  now rewrite lookup_insert_ne by congruence.
Qed.

(** A directory of one component is created when it is missing and left
    alone when it is there; a regular file of that name is in the way. *)
Lemma makedirs_single (d : string) (f : filesystem) :
  String.eqb d "" = false -> path_split d = ("", d) ->
  makedirs d true f
  = if isdir f d then inr f
    else if isfile f d then inl FileExistsError
    else inr {| dirs := {[ d ]} ∪ dirs f; files := files f |}.
Proof.
  intros Hne Hsplit. unfold makedirs.
  assert (Hleaf : forall fuel, makedirs_fuel fuel d true f
                  = match mkdir d f with
                    | inl e => if negb true || negb (isdir f d) then inl e else inr f
                    | inr f' => inr f'
                    end).
  { intros [|fuel]; cbn [makedirs_fuel]; rewrite Hsplit, Hne; reflexivity. }
  rewrite Hleaf. unfold mkdir, path_exists, parent_ok, dirname.
  rewrite Hne, Hsplit. cbn [fst].
  destruct (isdir f d) eqn:Hd; [reflexivity|].
  destruct (isfile f d); reflexivity.
Qed.

Section WithEnv.
Variable env : Env.

(** ** [log] *)

(** What an open logger does, in one equation. *)
Lemma log_open_eq (l : AuditLogger.t)
    (module article_id decision : string) (confidence : float)
    (prompt_hash provider : string) (tokens_in tokens_out : Z)
    (latency_ms : float) (raw_response : string) (extra : option dict)
    (w : World) :
  closed (AuditLogger._file l) = false ->
  exists line,
    AuditLogger.log env l module article_id decision confidence prompt_hash
      provider tokens_in tokens_out latency_ms raw_response extra w
    = (inr tt, with_fs (fs_append l line (fs w)) (ticked w)).
Proof.
  intros Hc. unfold AuditLogger.log, bind, now, on_fs, append_line.
  rewrite Hc. now eexists.
Qed.


(** X11.  What [extra] does to the record: a key it binds gets its value,
    also when the key is one of the standard fields; every other key keeps
    the value of the record written without [extra]; and the eleven
    standard keys stay first and in their order, new keys come after. *)
Theorem log_extra_overrides (l : AuditLogger.t)
    (module article_id decision : string) (confidence : float)
    (prompt_hash provider : string) (tokens_in tokens_out : Z)
    (latency_ms : float) (raw_response : string) (extra : option dict)
    (w : World) :
  closed (AuditLogger._file l) = false ->
  let written (x : option dict) :=
    audit_log l (snd (AuditLogger.log env l module article_id decision
                        confidence prompt_hash provider tokens_in tokens_out
                        latency_ms raw_response x w)) in
  exists base line,
    written None = (audit_log l w ++ [base])%list
    /\ written extra = (audit_log l w ++ [line])%list
    /\ map fst base = standard_keys
    /\ (exists more, map fst line = (standard_keys ++ more)%list)
    /\ forall k, dict_get k line
                 = match overriding k extra with
                   | Some v => Some v
                   | None => dict_get k base
                   end.
Proof.
  intros Hc written. subst written.
  unfold AuditLogger.log, bind, now, on_fs, append_line. rewrite Hc.
  cbn [fst snd]. unfold audit_log. cbn [fs with_fs].
  eexists _, _. split; [apply read_lines_append|].
  split; [apply read_lines_append|]. split; [reflexivity|].
  destruct extra as [[|kv e]|]; cbn [overriding].
  - split; [exists []; reflexivity | reflexivity].
  - split; [exact (dict_update_keys _ (kv :: e)) | intros k; apply dict_get_update].
  - split; [exists []; reflexivity | reflexivity].
Qed.

(** X12.  Closing twice is closing once, and a closed logger logs nothing:
    [log] raises [ValueError] and the file system is as it was. *)
Theorem log_after_close (l : AuditLogger.t)
    (module article_id decision : string) (confidence : float)
    (prompt_hash provider : string) (tokens_in tokens_out : Z)
    (latency_ms : float) (raw_response : string) (extra : option dict)
    (w : World) :
  let run := AuditLogger.log env (AuditLogger.close l) module article_id
               decision confidence prompt_hash provider tokens_in tokens_out
               latency_ms raw_response extra w in
  AuditLogger.close (AuditLogger.close l) = AuditLogger.close l
  /\ AuditLogger._path (AuditLogger.close l) = AuditLogger._path l
  /\ fst run = inl ValueError
  /\ fs (snd run) = fs w.
Proof.
  assert (Hc : closed (AuditLogger._file (AuditLogger.close l)) = true).
  { unfold AuditLogger.close. now destruct (closed (AuditLogger._file l)) eqn:E. }
  split.
  { unfold AuditLogger.close at 1. now rewrite Hc. }
  split.
  { unfold AuditLogger.close. now destruct (closed (AuditLogger._file l)). }
  unfold AuditLogger.log, bind, now, on_fs, append_line. rewrite Hc.
  now split.
Qed.

(** ** The constructor *)

(** The constructor on a path as the file system of this model reads it,
    character by character: the directory part has one component, no
    regular file has its name, and the path is not the name of a
    directory. *)
Lemma init_as_written (p : string) (w : World)
    (module article_id decision : string) (confidence : float)
    (prompt_hash provider : string) (tokens_in tokens_out : Z)
    (latency_ms : float) (raw_response : string) (extra : option dict) :
  String.eqb (dirname p) "" = false ->
  path_split (dirname p) = ("", dirname p) ->
  isfile (fs w) (dirname p) = false ->
  isdir (fs w) p = false ->
  exists w',
    AuditLogger.__init__ p w
    = (inr {| AuditLogger._path := p;
              AuditLogger._file := {| name := p; mode := ModeAppend;
                                      closed := false |} |}, w')
    /\ isdir (fs w') (dirname p) = true
    /\ isfile (fs w') p = true
    /\ (forall q, read_lines (fs w') q = read_lines (fs w) q)
    /\ exists line,
         read_lines
           (fs (snd (AuditLogger.log env
                       {| AuditLogger._path := p;
                          AuditLogger._file := {| name := p; mode := ModeAppend;
                                                  closed := false |} |}
                       module article_id decision confidence prompt_hash
                       provider tokens_in tokens_out latency_ms raw_response
                       extra w'))) p
         = (read_lines (fs w) p ++ [line])%list.
Proof.
  intros Hne Hsplit Hfile Hdirp.
  assert (Hp : String.eqb p "" = false).
  { destruct p; [discriminate Hne | reflexivity]. }
  assert (Hpd : p <> dirname p).
  { intros E. rewrite E in Hne. unfold dirname in Hne at 1.
    rewrite Hsplit in Hne. discriminate Hne. }
  unfold AuditLogger.__init__, bind, on_fs, ret.
  rewrite (makedirs_single _ _ Hne Hsplit), Hfile.
  set (f1 := if isdir (fs w) (dirname p) then fs w
             else {| dirs := {[ dirname p ]} ∪ dirs (fs w);
                     files := files (fs w) |}).
  assert (Hmk : (if isdir (fs w) (dirname p) then inr (fs w)
                 else inr {| dirs := {[ dirname p ]} ∪ dirs (fs w);
                             files := files (fs w) |})
                = (inr f1 : exn + filesystem)).
  { subst f1. now destruct (isdir (fs w) (dirname p)). }
  rewrite Hmk. cbn [fs with_fs].
  assert (Hf1 : files f1 = files (fs w)).
  { subst f1. now destruct (isdir (fs w) (dirname p)). }
  assert (Hd1 : isdir f1 (dirname p) = true).
  { subst f1. destruct (isdir (fs w) (dirname p)) eqn:E; [exact E|].
    unfold isdir. rewrite Hne. cbn [negb andb dirs].
    rewrite bool_decide_eq_true_2 by set_solver. now rewrite orb_true_r. }
  assert (Hp1 : isdir f1 p = false).
  { subst f1. destruct (isdir (fs w) (dirname p)); [exact Hdirp|].
    unfold isdir in *. rewrite Hp in *. cbn [negb andb dirs] in *.
    apply orb_false_iff in Hdirp as [-> Hin]. cbn [orb].
    apply bool_decide_eq_false in Hin. apply bool_decide_eq_false.
    rewrite elem_of_union, elem_of_singleton.
    intros [E|E]; [now apply Hpd | now apply Hin]. }
  unfold py_open, parent_ok. rewrite Hp, Hp1, Hd1, orb_true_r.
  cbn [fs with_fs]. eexists. split; [reflexivity|].
  cbn [fs with_fs dirs files]. split.
  { unfold isdir in *. exact Hd1. }
  split.
  { unfold isfile. rewrite Hp. cbn [negb andb files].
    rewrite lookup_insert_eq. now apply bool_decide_eq_true_2. }
  assert (Hlines : forall q,
             default [] (<[p := default [] (files f1 !! p)]> (files f1) !! q)
             = read_lines (fs w) q).
  { intros q. unfold read_lines. rewrite Hf1.
    destruct (decide (p = q)) as [->|Hq].
    - rewrite lookup_insert_eq. now destruct (files (fs w) !! q).
    - now rewrite lookup_insert_ne. }
  split; [exact Hlines|].
  match goal with
  | |- context [AuditLogger.log env ?l0 ?a ?b ?c ?d ?e ?f ?g ?h ?i ?j ?x ?w0] =>
      destruct (log_open_eq l0 a b c d e f g h i j x w0 eq_refl) as [line ->]
  end.
  exists line. cbn [snd fs with_fs].
  match goal with
  | |- context [fs_append ?l0 line ?f0] =>
      pose proof (read_lines_append l0 line f0) as Hr;
      cbn [AuditLogger._file name] in Hr; rewrite Hr
  end.
  f_equal. unfold read_lines at 1. cbn [files].
  apply Hlines.
Qed.

(** ** Paths of two proper names *)

Lemma head_len_name (s : string) :
  mentions "/" s = false -> head_len s = 0.
Proof.
  induction s as [|c s IH]; [reflexivity|]. cbn [mentions].
  intros [Hc Hs]%orb_false_iff. cbn [head_len]. rewrite (IH Hs).
  unfold is_sep. now rewrite Hc.
Qed.

Lemma head_len_in (d f : string) :
  mentions "/" f = false ->
  head_len (d +:+ String "/" f) = S (String.length d).
Proof.
  intros Hf. induction d as [|c d IH].
  - change (EmptyString +:+ String "/" f) with (String "/" f).
    cbn [head_len]. now rewrite (head_len_name f Hf).
  - change (String c d +:+ String "/" f) with (String c (d +:+ String "/" f)).
    cbn [head_len String.length]. now rewrite IH.
Qed.

Lemma slice_to_in (d f : string) :
  PyStr.slice_to (S (String.length d)) (d +:+ String "/" f)
  = d +:+ String "/" EmptyString.
Proof.
  unfold PyStr.slice_to. induction d as [|c d IH].
  - change (EmptyString +:+ ?x) with x. cbn. now destruct f.
  - change (String c d +:+ ?x) with (String c (d +:+ x)).
    cbn [String.length substring]. now rewrite IH.
Qed.

Lemma slice_from_in (d f : string) :
  PyStr.slice_from (S (String.length d)) (d +:+ String "/" f) = f.
Proof. induction d as [|c d IH]; [reflexivity | exact IH]. Qed.

Lemma rstrip_seps_slash (d : string) :
  mentions "/" d = false ->
  rstrip_seps (d +:+ String "/" EmptyString) = d.
Proof.
  induction d as [|c d IH]; [reflexivity|]. cbn [mentions].
  intros [Hc Hd]%orb_false_iff.
  change (String c d +:+ ?x) with (String c (d +:+ x)).
  cbn [rstrip_seps]. rewrite (IH Hd). unfold is_sep. rewrite Hc.
  now destruct d.
Qed.

Lemma proper_name_parts (s : string) :
  proper_name s = true ->
  String.eqb s "" = false /\ mentions "/" s = false.
Proof.
  unfold proper_name. intros H.
  apply andb_true_iff in H as [H _]. apply andb_true_iff in H as [H _].
  apply andb_true_iff in H as [H _]. apply andb_true_iff in H as [H1 H2].
  now rewrite negb_true_iff in H1, H2.
Qed.

(** [os.path.split] on a proper name and on two of them. *)
Lemma path_split_name (d : string) :
  mentions "/" d = false -> path_split d = (EmptyString, d).
Proof.
  intros Hd. unfold path_split. rewrite (head_len_name d Hd).
  now destruct d.
Qed.

Lemma dirname_in (d f : string) :
  proper_name d = true -> mentions "/" f = false ->
  dirname (d +:+ String "/" f) = d.
Proof.
  intros [Hne Hd]%proper_name_parts Hf. unfold dirname, path_split.
  rewrite (head_len_in d f Hf), slice_to_in. cbn [fst].
  destruct d as [|c d]; [discriminate Hne|].
  change (String c d +:+ ?x) with (String c (d +:+ x)).
  cbn [mentions] in Hd. apply orb_false_iff in Hd as [Hc Hd].
  cbn [String.eqb all_seps negb andb]. unfold is_sep at 1. rewrite Hc.
  cbn [andb negb].
  change (String c (d +:+ String "/" EmptyString))
    with (String c d +:+ String "/" EmptyString).
  apply rstrip_seps_slash. cbn [mentions]. now rewrite Hc, Hd.
Qed.

(** X13.  A file in a directory, both with proper names as in the default
    [outputs/audit_log.jsonl]: unless a regular file has the name of the
    directory or a directory the path of the file, the constructor returns
    an open logger on the path; the directory and the file exist afterwards
    and every file holds the lines it held, so a record logged next comes
    after the records of earlier runs.  (What the operating system may
    refuse on its own account, for want of permission or space, is not
    part of the file system modelled here.) *)
Theorem init_resumes (d f : string) (w : World)
    (module article_id decision : string) (confidence : float)
    (prompt_hash provider : string) (tokens_in tokens_out : Z)
    (latency_ms : float) (raw_response : string) (extra : option dict) :
  proper_name d = true -> proper_name f = true ->
  isfile (fs w) d = false ->
  isdir (fs w) (d +:+ String "/" f) = false ->
  let p := d +:+ String "/" f in
  exists w',
    AuditLogger.__init__ p w
    = (inr {| AuditLogger._path := p;
              AuditLogger._file := {| name := p; mode := ModeAppend;
                                      closed := false |} |}, w')
    /\ isdir (fs w') d = true
    /\ isfile (fs w') p = true
    /\ (forall q, read_lines (fs w') q = read_lines (fs w) q)
    /\ exists line,
         read_lines
           (fs (snd (AuditLogger.log env
                       {| AuditLogger._path := p;
                          AuditLogger._file := {| name := p; mode := ModeAppend;
                                                  closed := false |} |}
                       module article_id decision confidence prompt_hash
                       provider tokens_in tokens_out latency_ms raw_response
                       extra w'))) p
         = (read_lines (fs w) p ++ [line])%list.
Proof.
  intros Hd Hf Hfile Hdir p.
  pose proof (proper_name_parts d Hd) as [Hne Hslash].
  pose proof (proper_name_parts f Hf) as [_ Hfslash].
  pose proof (dirname_in d f Hd Hfslash) as Hdn. fold p in Hdn.
  destruct (init_as_written p w module article_id decision confidence
              prompt_hash provider tokens_in tokens_out latency_ms
              raw_response extra)
    as (w' & Hinit & H1 & H2 & H3 & H4);
    rewrite ?Hdn; try assumption.
  { now apply path_split_name. }
  exists w'. rewrite Hdn in H1. now repeat split.
Qed.

(** X14.  When a regular file has the name of that directory, the
    constructor raises [FileExistsError] and opens nothing. *)
Theorem init_directory_is_file (p : string) (w : World) :
  String.eqb (dirname p) "" = false ->
  path_split (dirname p) = ("", dirname p) ->
  isfile (fs w) (dirname p) = true ->
  isdir (fs w) (dirname p) = false ->
  AuditLogger.__init__ p w = (inl FileExistsError, w).
Proof.
  intros Hne Hsplit Hfile Hdir.
  unfold AuditLogger.__init__, bind, on_fs.
  now rewrite (makedirs_single _ _ Hne Hsplit), Hdir, Hfile.
Qed.

End WithEnv.


Lemma log_extra_overrides_witness :
  let written (x : option dict) :=
    audit_log logger
      (snd (AuditLogger.log (env_of []) logger "triage" "A1" "YES" 1.0%float
              "9f86d081884c7d65" "groq" 120 4 250%float "YES. Relevant." x
              (world_at 0))) in
  exists base line,
    written None = (audit_log logger (world_at 0) ++ [base])%list
    /\ written (Some [("decision", PyStr "NO"); ("run", PyInt 2)])
       = (audit_log logger (world_at 0) ++ [line])%list
    /\ map fst base = standard_keys
    /\ (exists more, map fst line = (standard_keys ++ more)%list)
    /\ forall k, dict_get k line
                 = match overriding k (Some [("decision", PyStr "NO");
                                             ("run", PyInt 2)]) with
                   | Some v => Some v
                   | None => dict_get k base
                   end.
Proof.
  apply (log_extra_overrides (env_of []) logger "triage" "A1" "YES" 1.0%float
           "9f86d081884c7d65" "groq" 120 4 250%float "YES. Relevant."
           (Some [("decision", PyStr "NO"); ("run", PyInt 2)]) (world_at 0)).
  reflexivity.
Defined.

Lemma init_resumes_witness :
  exists w',
    AuditLogger.__init__ "outputs/audit_log.jsonl" after_one_call
    = (inr logger, w')
    /\ forall q, read_lines (fs w') q = read_lines (fs after_one_call) q.
Proof.
  destruct (init_resumes (env_of []) "outputs" "audit_log.jsonl"
              after_one_call "triage" "A2" "NO" 1.0%float "9f86d081884c7d65"
              "groq" 120 4 250%float "NO." None)
    as (w' & Hinit & _ & _ & Hlines & _); try reflexivity.
  now exists w'.
Defined.

Lemma init_directory_is_file_witness :
  AuditLogger.__init__ "outputs/audit_log.jsonl" outputs_is_a_file
  = (inl FileExistsError, outputs_is_a_file).
Proof.
  apply (init_directory_is_file "outputs/audit_log.jsonl" outputs_is_a_file);
    reflexivity.
Defined.

End AuditMore.

(* ===================================================================== *)
(** * Facts about the callers in src/triage.py                            *)
(* ===================================================================== *)

Module TriageArticleFacts.
Import Runtime PyStr Utils Trace Triage TriageFacts.

(** The range of the parser. *)
Lemma parse_decision_range (text d j : string) (c : float) :
  _parse_decision text = inr (d, j, c) ->
  (d = "YES" \/ d = "NO" \/ d = "UNCERTAIN")
  /\ (c = 1.0%float \/ c = 0.8%float \/ c = 0.5%float).
Proof.
  unfold _parse_decision.
  destruct (contains "YES" _); [intros [= <- _ <-]; auto|].
  destruct (contains "NO" _); [intros [= <- _ <-]; auto|].
  destruct (has_word "YES" _) eqn:Hy, (has_word "NO" _) eqn:Hn;
    cbn [andb negb]; try (intros [= <- _ <-]; now auto).
  destruct (has_word_index _ _ wordy_yes Hy) as [y ->].
  destruct (has_word_index _ _ wordy_no Hn) as [n ->].
  destruct (y <? n)%nat; intros [= <- _ <-]; auto.
Qed.

Section WithEnv.
Variable env : Env.

(** X15.  One article, when [triage_article] returns.  The call returned
    and left exactly one record in the audit log; the result carries the
    article id it was given, the parser's reading of the answer (a
    decision YES, NO or UNCERTAIN), the sum of the two token counts and
    the label of the provider that answered. *)
Theorem triage_article_returns (title abstract article_id : string)
    (criteria : list string) (config : Config) (audit_logger : AuditLogger.t)
    (w w' : World) (t : TriageResult) :
  triage_article env title abstract article_id criteria config audit_logger w
  = (inr t, w') ->
  Triage.article_id t = article_id
  /\ (decision t = "YES" \/ decision t = "NO" \/ decision t = "UNCERTAIN")
  /\ (Triage.provider t = "groq" \/ Triage.provider t = "together")
  /\ (exists line, fs w' = fs_append audit_logger line (fs w))
  /\ exists prompt r w1,
       load_prompt env "triage"
         [("criteria",
           String.concat newline (map (fun c => "- " +:+ c) criteria));
          ("title", title); ("abstract", abstract)] = inr prompt
       /\ call_llm env prompt config "triage" audit_logger article_id None w
          = (inr r, w1)
       /\ _parse_decision (text r)
          = inr (decision t, justification t, confidence t)
       /\ tokens_used t = (tokens_input r + tokens_output r)%Z
       /\ Triage.latency_ms t = Utils.latency_ms r
       /\ Triage.provider t = Utils.provider r.
Proof.
  unfold triage_article, bind, lift.
  destruct (load_prompt env "triage" _) as [e|prompt] eqn:Hprompt;
    [discriminate|].
  destruct (CallMore.call_llm_outcome env prompt config "triage" audit_logger
              article_id None w)
    as [(r & line & w1 & Hrun & Hprov & _ & _ & Hfs) | (e & w1 & Hrun & Hfs)];
    rewrite Hrun; [|discriminate].
  destruct (_parse_decision_total (text r)) as (d & j & c & Hp).
  rewrite Hp. cbn [now ret]. intros [= <- <-].
  cbn [fs Triage.article_id Triage.decision Triage.provider
       Triage.justification Triage.confidence Triage.tokens_used
       Triage.latency_ms].
  destruct (parse_decision_range _ _ _ _ Hp) as [Hd _].
  split; [reflexivity|]. split; [exact Hd|]. split; [exact Hprov|].
  split; [now exists line|].
  exists prompt, r, w1. now repeat split.
Qed.

End WithEnv.

Lemma triage_article_returns_witness :
  exists line,
    fs (snd (triage_article (Scenario.env_of []) "A tutor" "We built one."
               "A1" ["uses an LLM"] Scenario.config Scenario.logger
               (Scenario.world_at 0)))
    = fs_append Scenario.logger line (fs (Scenario.world_at 0)).
Proof.
  refine (proj1 (proj2 (proj2 (proj2
            (triage_article_returns (Scenario.env_of []) "A tutor"
               "We built one." "A1" ["uses an LLM"] Scenario.config
               Scenario.logger (Scenario.world_at 0)
               (snd (triage_article (Scenario.env_of []) "A tutor"
                       "We built one." "A1" ["uses an LLM"] Scenario.config
                       Scenario.logger (Scenario.world_at 0)))
               {| Triage.article_id := "A1"; decision := "YES";
                  justification := "Relevant."; confidence := 1.0%float;
                  tokens_used := 124; Triage.latency_ms := 250%float;
                  Triage.provider := "groq";
                  timestamp := "2026-01-01T00:00:00+00:00" |} _))))).
  now vm_compute.
Defined.

End TriageArticleFacts.

(* ===================================================================== *)
(** * Facts about src/summarization.py                                    *)
(* ===================================================================== *)

Module SummarizationFacts.
Import Runtime PyStr Text TextFacts Summarization Situations.

(** ** Stripping *)

Lemma lstrip_rstrip (s : string) : lstrip (rstrip s) = rstrip (lstrip s).
Proof.
  induction s as [|c s IH]; [reflexivity|]. rewrite rstrip_cons.
  cbn [lstrip]. destruct (isspace c) eqn:Hc.
  - rewrite <- IH. destruct (rstrip s); [reflexivity|].
    cbn [lstrip]. now rewrite Hc.
  - rewrite rstrip_cons. destruct (rstrip s); cbn [lstrip]; now rewrite Hc.
Qed.

Lemma strip_rstrip (s : string) : strip (rstrip s) = strip s.
Proof. unfold strip. now rewrite lstrip_rstrip, rstrip_idempotent. Qed.

Lemma lstrip_idempotent (s : string) : lstrip (lstrip s) = lstrip s.
Proof.
  apply lstrip_fixed. intros c t H. now apply lstrip_head in H.
Qed.

Lemma strip_lstrip (s : string) : strip (lstrip s) = strip s.
Proof. unfold strip. now rewrite lstrip_idempotent. Qed.

Lemma all_space_lstrip (s : string) :
  all_space s = false -> lstrip s <> EmptyString.
Proof.
  intros H E. apply lstrip_all_space in E. congruence.
Qed.

Lemma all_space_strip (s : string) :
  all_space s = false -> strip s <> EmptyString.
Proof.
  intros H E. unfold strip in E.
  assert (Hl : all_space (lstrip s) = true).
  { clear H. induction (lstrip s) as [|c t IH]; [reflexivity|].
    rewrite rstrip_cons in E. cbn [all_space].
    destruct (rstrip t); [|discriminate].
    destruct (isspace c); [now rewrite IH | discriminate]. }
  apply lstrip_of_spaces in Hl. rewrite lstrip_idempotent in Hl.
  now apply (all_space_lstrip s).
Qed.

Lemma rstrip_append (a b : string) :
  rstrip b <> EmptyString -> rstrip (a +:+ b) = a +:+ rstrip b.
Proof.
  intros Hb. induction a as [|c a IH]; [reflexivity|].
  change (String c a +:+ b) with (String c (a +:+ b)).
  rewrite rstrip_cons, IH.
  change (String c a +:+ rstrip b) with (String c (a +:+ rstrip b)).
  destruct (a +:+ rstrip b) eqn:E; [|reflexivity].
  destruct a; [now contradiction Hb | discriminate].
Qed.

Lemma rstrip_nonblank (s : string) :
  all_space s = false -> rstrip s <> EmptyString.
Proof.
  intros H E. apply (all_space_strip s H). unfold strip.
  rewrite <- lstrip_rstrip, E. reflexivity.
Qed.

(** The elements of a list made by [stripped_nonblank] are stripped and
    not empty. *)
Lemma stripped_nonblank_elements (l : list string) :
  Forall (fun x => strip x = x /\ x <> EmptyString) (stripped_nonblank l).
Proof.
  unfold stripped_nonblank. induction l as [|y l IH]; [constructor|].
  cbn [map List.filter].
  destruct (String.eqb_spec (strip y) "") as [E|Hne]; cbn [negb]; [exact IH|].
  constructor; [|exact IH]. split; [apply strip_idempotent | exact Hne].
Qed.

(** ** The markers *)

Lemma digit_dot_cons (a b : ascii) (s : string) :
  digit_dot (String a (String b s))
  = (isdigit a && Ascii.eqb b ".") || digit_dot (String b s).
Proof. reflexivity. Qed.

Lemma match_marker_cons (c : ascii) (s : string) :
  match_marker (String c s)
  = if isdigit c then
      match count_while isdigit s with
      | O =>
          match s with
          | String d rest =>
              if Ascii.eqb d "." then Some (2 + count_while isspace rest)
              else None
          | EmptyString => None
          end
      | S _ => option_map S (match_marker s)
      end
    else None.
Proof.
  unfold match_marker. cbn [count_while].
  destruct (isdigit c); [|reflexivity].
  change (slice_from (S (count_while isdigit s)) (String c s))
    with (slice_from (count_while isdigit s) s).
  destruct (count_while isdigit s) as [|d] eqn:Hd.
  - now destruct s.
  - destruct (slice_from (S d) s) as [|a rest]; [reflexivity|].
    now destruct (Ascii.eqb a ".").
Qed.

Lemma count_while_nonempty (p : ascii -> bool) (s : string) (n : nat) :
  count_while p s = S n -> exists c t, s = String c t /\ p c = true.
Proof.
  destruct s as [|c t]; [discriminate|]. cbn [count_while].
  destruct (p c) eqn:Hc; [|discriminate]. intros _. now exists c, t.
Qed.

(** A marker needs a digit directly followed by a dot. *)
Lemma match_marker_none (x m : string) :
  x <> EmptyString -> digit_dot x = false -> ends_digit x = false ->
  match_marker (x +:+ m) = None.
Proof.
  induction x as [|c x IH]; [intros H; now contradiction H|].
  intros _ Hdd Hend.
  change (String c x +:+ m) with (String c (x +:+ m)).
  rewrite match_marker_cons. destruct (isdigit c) eqn:Hc; [|reflexivity].
  destruct x as [|b x].
  { cbn [ends_digit] in Hend. congruence. }
  change (String b x +:+ m) with (String b (x +:+ m)).
  rewrite digit_dot_cons in Hdd. rewrite Hc in Hdd. cbn [andb] in Hdd.
  apply orb_false_iff in Hdd as [Hb Hdd].
  cbn [count_while]. destruct (isdigit b) eqn:Hdb.
  - change (String b (x +:+ m)) with (String b x +:+ m).
    rewrite IH; [reflexivity | discriminate | exact Hdd | exact Hend].
  - now rewrite Hb.
Qed.

Lemma re_split_from_nonempty (s : string) (k : nat) :
  re_split_from s k <> [].
Proof.
  revert k. induction s as [|c s IH]; intros k; cbn [re_split_from];
    [discriminate|].
  destruct k; [|apply IH].
  destruct (match_marker (String c s)); [discriminate|].
  specialize (IH 0). now destruct (re_split_from s 0).
Qed.

Lemma re_split_from_skip (s : string) (k : nat) :
  re_split_from s k = re_split_from (slice_from k s) 0.
Proof.
  revert k. induction s as [|c s IH]; intros [|k]; try reflexivity.
  cbn [re_split_from slice_from]. apply IH.
Qed.

(** Text without a marker inside, and no digit at its end that a dot
    could follow, goes to the piece in front. *)
Lemma re_split_plain (x m : string) :
  digit_dot x = false -> ends_digit x = false ->
  re_split_from (x +:+ m) 0
  = match re_split_from m 0 with
    | piece :: pieces => (x +:+ piece) :: pieces
    | [] => [x]
    end.
Proof.
  induction x as [|c x IH]; intros Hdd Hend.
  - change (EmptyString +:+ m) with m.
    pose proof (re_split_from_nonempty m 0).
    now destruct (re_split_from m 0).
  - assert (Hx : digit_dot x = false /\ ends_digit x = false).
    { destruct x as [|b x]; [now split|]. rewrite digit_dot_cons in Hdd.
      apply orb_false_iff in Hdd as [_ Hdd]. now split. }
    destruct Hx as [Hdd' Hend']. specialize (IH Hdd' Hend').
    pose proof (match_marker_none (String c x) m) as Hm.
    change (String c x +:+ m) with (String c (x +:+ m)) in *.
    cbn [re_split_from]. rewrite Hm by (assumption || discriminate).
    rewrite IH. pose proof (re_split_from_nonempty m 0).
    now destruct (re_split_from m 0).
Qed.

Lemma re_split_unmarked (s : string) :
  digit_dot s = false -> re_split_from s 0 = [s].
Proof.
  induction s as [|c s IH]; [reflexivity|]. intros Hdd.
  assert (Hs : digit_dot s = false).
  { destruct s as [|b s]; [reflexivity|]. rewrite digit_dot_cons in Hdd.
    now apply orb_false_iff in Hdd as [_ Hdd]. }
  cbn [re_split_from]. rewrite (IH Hs).
  destruct (match_marker (String c s)) as [n|] eqn:Hm; [|reflexivity].
  exfalso. clear IH. revert c n Hdd Hm.
  induction s as [|b s IHs]; intros c n Hdd Hm;
    rewrite match_marker_cons in Hm; destruct (isdigit c) eqn:Hc;
    try discriminate.
  - rewrite digit_dot_cons in Hdd. rewrite Hc in Hdd. cbn [andb] in Hdd.
    apply orb_false_iff in Hdd as [Hb Hdd].
    cbn [count_while] in Hm. destruct (isdigit b) eqn:Hdb.
    + destruct (match_marker (String b s)) as [k|] eqn:Hk; [|discriminate].
      assert (Hs' : digit_dot s = false).
      { destruct s as [|a s]; [reflexivity|]. rewrite digit_dot_cons in Hdd.
        now apply orb_false_iff in Hdd as [_ Hdd]. }
      exact (IHs Hs' b k Hdd Hk).
    + rewrite Hb in Hm. discriminate.
Qed.

Lemma count_while_digits (n r : string) :
  all_digits n = true ->
  count_while isdigit (n +:+ String "." r) = String.length n.
Proof.
  induction n as [|c n IH]; [reflexivity|]. cbn [all_digits].
  intros [Hc Hn]%andb_true_iff.
  change (String c n +:+ String "." r) with (String c (n +:+ String "." r)).
  cbn [count_while String.length]. now rewrite Hc, IH.
Qed.

Lemma slice_from_append (a b : string) :
  slice_from (String.length a) (a +:+ b) = b.
Proof. induction a as [|c a IH]; [now destruct b | exact IH]. Qed.

Lemma slice_from_spaces (s : string) :
  slice_from (count_while isspace s) s = lstrip s.
Proof.
  induction s as [|c s IH]; [reflexivity|]. cbn [count_while lstrip].
  destruct (isspace c); [exact IH | reflexivity].
Qed.

Lemma slice_from_add (i j : nat) (s : string) :
  slice_from (i + j) s = slice_from j (slice_from i s).
Proof.
  revert s. induction i as [|i IH]; intros s; [reflexivity|].
  destruct s as [|c s]; [now destruct j | apply IH].
Qed.

(** A marker at the front: an empty piece, then the pieces of what
    follows the marker and its whitespace. *)
Lemma re_split_marker (n r : string) :
  all_digits n = true -> n <> EmptyString ->
  re_split_from (n +:+ String "." r) 0
  = EmptyString :: re_split_from (lstrip r) 0.
Proof.
  intros Hn Hne.
  assert (Hs : forall k, slice_from (String.length n + 1 + k)
                           (n +:+ String "." r) = slice_from k r).
  { intros k. rewrite <- Nat.add_assoc, slice_from_add, slice_from_append.
    reflexivity. }
  assert (Hm : match_marker (n +:+ String "." r)
               = Some (String.length n + 1 + count_while isspace r)).
  { unfold match_marker. rewrite (count_while_digits n r Hn).
    destruct (String.length n) as [|d] eqn:Hlen;
      [destruct n; [now contradiction Hne | discriminate]|].
    rewrite <- Hlen, slice_from_append. reflexivity. }
  specialize (Hs (count_while isspace r)). rewrite slice_from_spaces in Hs.
  destruct n as [|c n]; [now contradiction Hne|].
  change (String c n +:+ String "." r) with (String c (n +:+ String "." r)) in *.
  cbn [re_split_from]. rewrite Hm. f_equal.
  rewrite re_split_from_skip. f_equal. rewrite <- Hs.
  cbn [String.length Nat.add Nat.sub slice_from]. now rewrite Nat.sub_0_r.
Qed.

Lemma append_nil_r (s : string) : s +:+ EmptyString = s.
Proof.
  induction s as [|c s IH]; [reflexivity|].
  change (String c s +:+ EmptyString) with (String c (s +:+ EmptyString)).
  now rewrite IH.
Qed.

Lemma append_assoc (a b c : string) : (a +:+ b) +:+ c = a +:+ b +:+ c.
Proof.
  induction a as [|x a IH]; [reflexivity|].
  change (String x a +:+ b) with (String x (a +:+ b)).
  change (String x (a +:+ b) +:+ c) with (String x ((a +:+ b) +:+ c)).
  now rewrite IH.
Qed.

Lemma digit_dot_tail (c : ascii) (s : string) :
  digit_dot (String c s) = false -> digit_dot s = false.
Proof.
  destruct s as [|b s]; [reflexivity|]. rewrite digit_dot_cons.
  now intros [_ H]%orb_false_iff.
Qed.

Lemma digit_dot_lstrip (s : string) :
  digit_dot s = false -> digit_dot (lstrip s) = false.
Proof.
  induction s as [|c s IH]; [reflexivity|]. intros H. cbn [lstrip].
  destruct (isspace c); [|exact H]. apply IH. now apply digit_dot_tail in H.
Qed.

Lemma digit_dot_rstrip (s : string) :
  digit_dot s = false -> digit_dot (rstrip s) = false.
Proof.
  induction s as [|c s IH]; [reflexivity|]. intros H. rewrite rstrip_cons.
  pose proof (IH (digit_dot_tail c s H)) as IH'.
  destruct (rstrip s) as [|b r] eqn:Hr.
  - now destruct (isspace c).
  - apply rstrip_head in Hr as Hs. destruct Hs as [t ->].
    rewrite digit_dot_cons in H. apply orb_false_iff in H as [Hb _].
    rewrite digit_dot_cons, Hb. exact IH'.
Qed.

Lemma ends_digit_lstrip (s : string) :
  ends_digit s = false -> ends_digit (lstrip s) = false.
Proof.
  induction s as [|c s IH]; [reflexivity|]. intros H. cbn [lstrip].
  destruct (isspace c); [|exact H]. apply IH.
  destruct s; [reflexivity | exact H].
Qed.

(** ** [_parse_summary] *)

(** X16.  Whatever the text, the three fields come without whitespace at
    their ends, and either all three are filled or the whole stripped text
    is the problem and the other two are empty. *)
Theorem parse_summary_fields (text : string) :
  let s := _parse_summary text in
  strip (problem s) = problem s
  /\ strip (solution s) = solution s
  /\ strip (findings s) = findings s
  /\ ((problem s = strip text /\ solution s = "" /\ findings s = "")
      \/ (problem s <> "" /\ solution s <> "" /\ findings s <> "")).
Proof.
  unfold _parse_summary.
  pose proof (stripped_nonblank_elements (re_split_markers (strip text))) as Hn.
  pose proof (stripped_nonblank_elements
                (split_on (ascii_of_nat 10) (strip text))) as Hl.
  destruct (stripped_nonblank (re_split_markers (strip text)))
    as [|a [|b [|c rest]]].
  4: { cbn [problem solution findings].
       inversion Hn as [|? ? [Ha Ha'] Hn1]; subst.
       inversion Hn1 as [|? ? [Hb Hb'] Hn2]; subst.
       inversion Hn2 as [|? ? [Hc Hc'] _]; subst.
       repeat split; try assumption. now right. }
  all: destruct (stripped_nonblank (split_on (ascii_of_nat 10) (strip text)))
         as [|a' [|b' [|c' rest']]];
       cbn [problem solution findings];
       try (repeat split; try apply strip_idempotent; try reflexivity;
            now left).
  all: inversion Hl as [|? ? [Ha Ha'] Hl1]; subst;
       inversion Hl1 as [|? ? [Hb Hb'] Hl2]; subst;
       inversion Hl2 as [|? ? [Hc Hc'] _]; subst;
       repeat split; try assumption; now right.
Qed.

(** X17.  The format the prompt asks for.  Three numbered parts, none
    blank, none with a digit directly before a dot inside, the first two
    not ending with a digit: the fields are the three parts, stripped. *)
Theorem parse_summary_numbered (A B C : string) :
  digit_dot A = false -> ends_digit A = false -> all_space A = false ->
  digit_dot B = false -> ends_digit B = false -> all_space B = false ->
  digit_dot C = false -> all_space C = false ->
  _parse_summary ("1." +:+ A +:+ "2." +:+ B +:+ "3." +:+ C)
  = {| problem := strip A; solution := strip B; findings := strip C |}.
Proof.
  intros HdA HeA HsA HdB HeB HsB HdC HsC.
  assert (Hstrip : strip ("1." +:+ A +:+ "2." +:+ B +:+ "3." +:+ C)
                   = "1" +:+ String "." (A +:+ "2" +:+ String "."
                       (B +:+ "3" +:+ String "." (rstrip C)))).
  { unfold strip.
    change (lstrip ("1." +:+ A +:+ "2." +:+ B +:+ "3." +:+ C))
      with ("1." +:+ A +:+ "2." +:+ B +:+ "3." +:+ C).
    rewrite <- (append_assoc B "3." C), <- (append_assoc "2." _ C),
      <- (append_assoc A _ C), <- (append_assoc "1." _ C).
    rewrite rstrip_append by now apply rstrip_nonblank.
    now rewrite !append_assoc. }
  unfold _parse_summary. rewrite Hstrip. unfold re_split_markers.
  rewrite (re_split_marker "1") by (reflexivity || discriminate).
  rewrite lstrip_append by now apply all_space_lstrip.
  rewrite re_split_plain
    by (now apply digit_dot_lstrip || now apply ends_digit_lstrip).
  rewrite (re_split_marker "2") by (reflexivity || discriminate).
  rewrite lstrip_append by now apply all_space_lstrip.
  rewrite re_split_plain
    by (now apply digit_dot_lstrip || now apply ends_digit_lstrip).
  rewrite (re_split_marker "3") by (reflexivity || discriminate).
  rewrite re_split_unmarked
    by now apply digit_dot_lstrip, digit_dot_rstrip.
  rewrite !append_nil_r. unfold stripped_nonblank. cbn [map List.filter].
  rewrite !strip_lstrip, strip_rstrip.
  change (strip "") with "". cbn [String.eqb negb].
  pose proof (all_space_strip A HsA) as HA.
  pose proof (all_space_strip B HsB) as HB.
  pose proof (all_space_strip C HsC) as HC.
  destruct (String.eqb_spec (strip A) "") as [E|_]; [now contradiction HA|].
  destruct (String.eqb_spec (strip B) "") as [E|_]; [now contradiction HB|].
  destruct (String.eqb_spec (strip C) "") as [E|_]; [now contradiction HC|].
  reflexivity.
Qed.

Lemma parse_summary_numbered_witness :
  _parse_summary
    ("1." +:+ " Tutors lack feedback. " +:+ "2." +:+ " An LLM tutor; "
     +:+ "3." +:+ " Gains in 2 of 3 courses")
  = {| problem := "Tutors lack feedback."; solution := "An LLM tutor;";
       findings := "Gains in 2 of 3 courses" |}.
Proof.
  apply (parse_summary_numbered " Tutors lack feedback. " " An LLM tutor; "
           " Gains in 2 of 3 courses"); reflexivity.
Defined.

Lemma mentions_lstrip (c : ascii) (s : string) :
  mentions c s = false -> mentions c (lstrip s) = false.
Proof.
  induction s as [|a s IH]; [reflexivity|]. intros H. cbn [lstrip].
  destruct (isspace a); [|exact H]. apply IH. cbn [mentions] in H.
  now apply orb_false_iff in H as [_ H].
Qed.

Lemma mentions_rstrip (c : ascii) (s : string) :
  mentions c s = false -> mentions c (rstrip s) = false.
Proof.
  induction s as [|a s IH]; [reflexivity|]. cbn [mentions].
  intros [Ha Hs]%orb_false_iff. rewrite rstrip_cons. specialize (IH Hs).
  destruct (rstrip s); [destruct (isspace a)|]; cbn [mentions];
    rewrite ?Ha; try reflexivity. exact IH.
Qed.

Lemma split_on_none (c : ascii) (s : string) :
  mentions c s = false -> split_on c s = [s].
Proof.
  induction s as [|a s IH]; [reflexivity|]. cbn [mentions split_on].
  intros [Ha Hs]%orb_false_iff. now rewrite Ha, (IH Hs).
Qed.

Lemma split_on_first (c : ascii) (x rest : string) :
  mentions c x = false ->
  split_on c (x +:+ String c rest) = x :: split_on c rest.
Proof.
  induction x as [|a x IH].
  - intros _. change (EmptyString +:+ String c rest) with (String c rest).
    cbn [split_on]. now rewrite Ascii.eqb_refl.
  - cbn [mentions]. intros [Ha Hx]%orb_false_iff.
    change (String a x +:+ String c rest)
      with (String a (x +:+ String c rest)).
    cbn [split_on]. now rewrite Ha, (IH Hx).
Qed.

(** X18.  Three lines without numbering: when no digit stands directly
    before a dot, the fields are the three lines, stripped. *)
Theorem parse_summary_lines (A B C : string) :
  let text := A +:+ Triage.newline +:+ B +:+ Triage.newline +:+ C in
  digit_dot text = false ->
  mentions (ascii_of_nat 10) A = false ->
  mentions (ascii_of_nat 10) B = false ->
  mentions (ascii_of_nat 10) C = false ->
  all_space A = false -> all_space B = false -> all_space C = false ->
  _parse_summary text
  = {| problem := strip A; solution := strip B; findings := strip C |}.
Proof.
  intros text Hdd HnA HnB HnC HsA HsB HsC.
  assert (Hstrip : strip text
                   = lstrip A +:+ String (ascii_of_nat 10)
                       (B +:+ String (ascii_of_nat 10) (rstrip C))).
  { unfold strip, text, Triage.newline.
    rewrite lstrip_append by now apply all_space_lstrip.
    rewrite <- (append_assoc B _ C), <- (append_assoc _ _ C),
      <- (append_assoc (lstrip A) _ C).
    rewrite rstrip_append by now apply rstrip_nonblank.
    now rewrite !append_assoc. }
  assert (Hplain : digit_dot (strip text) = false)
    by now apply digit_dot_rstrip, digit_dot_lstrip.
  unfold _parse_summary, re_split_markers.
  rewrite (re_split_unmarked _ Hplain). unfold stripped_nonblank at 1.
  cbn [map List.filter].
  assert (Hshort : forall l : list string,
             match (if negb (String.eqb (strip (strip text)) "")
                    then [strip (strip text)] else []) with
             | a :: b :: c :: _ =>
                 {| problem := a; solution := b; findings := c |}
             | _ =>
                 match l with
                 | a :: b :: c :: _ =>
                     {| problem := a; solution := b; findings := c |}
                 | _ => {| problem := strip text; solution := "";
                           findings := "" |}
                 end
             end
             = match l with
               | a :: b :: c :: _ =>
                   {| problem := a; solution := b; findings := c |}
               | _ => {| problem := strip text; solution := "";
                         findings := "" |}
               end).
  { intros l. now destruct (negb (String.eqb (strip (strip text)) "")). }
  rewrite Hshort. rewrite Hstrip at 1.
  rewrite split_on_first by now apply mentions_lstrip.
  rewrite split_on_first by assumption.
  rewrite split_on_none by now apply mentions_rstrip.
  unfold stripped_nonblank. cbn [map List.filter].
  rewrite strip_lstrip, strip_rstrip.
  pose proof (all_space_strip A HsA) as HA.
  pose proof (all_space_strip B HsB) as HB.
  pose proof (all_space_strip C HsC) as HC.
  destruct (String.eqb_spec (strip A) "") as [E|_]; [now contradiction HA|].
  destruct (String.eqb_spec (strip B) "") as [E|_]; [now contradiction HB|].
  destruct (String.eqb_spec (strip C) "") as [E|_]; [now contradiction HC|].
  reflexivity.
Qed.

Lemma parse_summary_lines_witness :
  _parse_summary
    ("Tutors lack feedback" +:+ Triage.newline +:+ " An LLM tutor"
     +:+ Triage.newline +:+ "Gains in 2 of 3 courses ")
  = {| problem := "Tutors lack feedback"; solution := "An LLM tutor";
       findings := "Gains in 2 of 3 courses" |}.
Proof.
  apply (parse_summary_lines "Tutors lack feedback" " An LLM tutor"
           "Gains in 2 of 3 courses "); reflexivity.
Defined.

Lemma parse_summary_fallback (text : string) :
  solution (_parse_summary text) = "" ->
  problem (_parse_summary text) = strip text.
Proof.
  unfold _parse_summary.
  pose proof (stripped_nonblank_elements (re_split_markers (strip text))) as Hn.
  pose proof (stripped_nonblank_elements
                (split_on (ascii_of_nat 10) (strip text))) as Hl.
  destruct (stripped_nonblank (re_split_markers (strip text)))
    as [|a [|b [|c rest]]].
  4: { cbn [problem solution]. intros ->.
       inversion Hn as [|? ? _ Hn1]; subst.
       inversion Hn1 as [|? ? [_ Hb] _]; subst. now contradiction Hb. }
  all: destruct (stripped_nonblank (split_on (ascii_of_nat 10) (strip text)))
         as [|a' [|b' [|c' rest']]];
       cbn [problem solution]; try reflexivity.
  all: intros ->; inversion Hl as [|? ? _ Hl1]; subst;
       inversion Hl1 as [|? ? [_ Hb] _]; subst; now contradiction Hb.
Qed.

Section WithEnv.
Variable env : Env.

(** X19.  One article, when [summarize_article] returns.  The call left
    exactly one record in the audit log, with the raw response and the
    provider that the result carries; the response has no whitespace at
    its ends, the three fields are read off it, and when the solution is
    empty the problem is the whole response. *)
Theorem summarize_article_returns (title abstract article_id : string)
    (config : Utils.Config) (audit_logger : AuditLogger.t) (w w' : World)
    (s : SummaryResult) :
  summarize_article env title abstract article_id config audit_logger w
  = (inr s, w') ->
  Summarization.article_id s = article_id
  /\ strip (raw_response s) = raw_response s
  /\ summary s = _parse_summary (raw_response s)
  /\ (solution (summary s) = "" -> problem (summary s) = raw_response s)
  /\ (provider s = "groq" \/ provider s = "together")
  /\ exists line,
       fs w' = Trace.fs_append audit_logger line (fs w)
       /\ dict_get "raw_response" line = Some (PyStr (raw_response s))
       /\ dict_get "provider" line = Some (PyStr (provider s)).
Proof.
  unfold summarize_article, bind, lift.
  destruct (load_prompt env "summarization" _) as [e|prompt]; [discriminate|].
  destruct (CallMore.call_llm_outcome env prompt config "summarization"
              audit_logger article_id None w)
    as [(r & line & w1 & Hrun & Hprov & Hstrip & Hrec & Hfs)
       | (e & w1 & Hrun & Hfs)];
    rewrite Hrun; [|discriminate].
  cbn [now ret]. intros [= <- <-].
  cbn [fs Summarization.article_id raw_response summary provider].
  destruct Hrec as (_ & _ & Hraw & Hp & _).
  split; [reflexivity|]. split; [exact Hstrip|]. split; [reflexivity|].
  split.
  { intros H. apply parse_summary_fallback in H. now rewrite H. }
  split; [exact Hprov|]. now exists line.
Qed.

End WithEnv.

Lemma summarize_article_returns_witness :
  summary summarized_result
  = _parse_summary "1. Tutors lack feedback. 2. An LLM tutor; 3. Gains.".
Proof.
  refine (proj1 (proj2 (proj2
            (summarize_article_returns
               (Scenario.env_of
                  [Scenario.answer
                     "1. Tutors lack feedback. 2. An LLM tutor; 3. Gains."])
               "A tutor" "We built one." "A1" Scenario.config Scenario.logger
               (Scenario.world_at 0) (snd summarized) summarized_result _)))).
  now vm_compute.
Defined.

End SummarizationFacts.

(* ===================================================================== *)
(** * Facts about src/extraction.py                                       *)
(* ===================================================================== *)

Module ExtractionFacts.
Import Runtime PyStr Text Json Callers Extraction Situations.

(** ** The braces *)

Lemma through_last_none (c : ascii) (s : string) :
  mentions c s = false -> through_last c s = None.
Proof.
  induction s as [|a s IH]; [reflexivity|]. cbn [mentions through_last].
  intros [Ha Hs]%orb_false_iff. now rewrite (IH Hs), Ha.
Qed.



Lemma re_search_braces_unclosed (s : string) :
  mentions "}" s = false -> re_search_braces s = None.
Proof.
  induction s as [|a s IH]; [reflexivity|]. cbn [mentions re_search_braces].
  intros [Ha Hs]%orb_false_iff.
  rewrite (through_last_none "}" s Hs), (IH Hs). now destruct (Ascii.eqb a "{").
Qed.

Lemma re_search_braces_split (pre post : string) :
  mentions "{" pre = false -> mentions "}" post = false ->
  re_search_braces (pre +:+ post) = None.
Proof.
  intros Hpre Hpost. induction pre as [|a pre IH].
  - now apply re_search_braces_unclosed.
  - cbn [mentions] in Hpre. apply orb_false_iff in Hpre as [Ha Hpre].
    change (String a pre +:+ post) with (String a (pre +:+ post)).
    cbn [re_search_braces]. rewrite Ha. now apply IH.
Qed.

(** ** Objects *)




Section WithJson.
Variable loads : string -> option json.


(** X21.  Text in which no opening brace comes before a closing brace has
    nothing to retry: when it does not parse as a whole, the result is the
    error record, which holds the response unchanged. *)
Theorem parse_json_failure (pre post : string) :
  loads (pre +:+ post) = None ->
  mentions "{" pre = false -> mentions "}" post = false ->
  _parse_json_response loads (pre +:+ post)
  = JObj [("parse_error", JBool true); ("raw", JStr (pre +:+ post))].
Proof.
  intros Hloads Hpre Hpost. unfold _parse_json_response. rewrite Hloads.
  now rewrite (re_search_braces_split pre post Hpre Hpost).
Qed.

Variable env : Env.


End WithJson.


Lemma parse_json_failure_witness :
  _parse_json_response loads_two ("} not JSON " +:+ "{ at all")
  = JObj [("parse_error", JBool true);
          ("raw", JStr ("} not JSON " +:+ "{ at all"))].
Proof.
  apply (parse_json_failure loads_two "} not JSON " "{ at all"); reflexivity.
Defined.

End ExtractionFacts.

(* ===================================================================== *)
(** * Facts about the corpus loops                                        *)
(* ===================================================================== *)

Module LoopFacts.
Import Runtime PyStr Utils Trace Callers AuditLoggerFacts AuditMore.

(** The constructor of the logger sends nothing and keeps the lines of
    every file, whether it returns or raises. *)
Lemma init_frame (p : string) (w : World) :
  let run := AuditLogger.__init__ p w in
  sent (snd run) = sent w
  /\ _groq_consecutive_failures (snd run) = _groq_consecutive_failures w
  /\ forall q, read_lines (fs (snd run)) q = read_lines (fs w) q.
Proof.
  unfold AuditLogger.__init__, bind, on_fs, ret.
  destruct (makedirs (dirname p) true (fs w)) as [e|f1] eqn:Hmk;
    [now repeat split|].
  apply makedirs_fuel_files in Hmk. cbn [fs with_fs].
  destruct (py_open p ModeAppend f1) as [e|[h f2]] eqn:Hop;
    cbn [fst snd fs with_fs sent _groq_consecutive_failures].
  - repeat split. intros q. unfold read_lines. now rewrite Hmk.
  - apply py_open_append_lines in Hop as (_ & _ & _ & Hlines).
    repeat split. intros q. rewrite Hlines. unfold read_lines.
    now rewrite Hmk.
Qed.

(** Appending a line to a file: the line comes after the lines of the
    file, or the file cannot be opened and nothing changes. *)
Lemma append_to_cases (path : string) (line : dict) (w : World) :
  (exists w',
     append_to path line w = (inr tt, w')
     /\ read_lines (fs w') path = (read_lines (fs w) path ++ [line])%list
     /\ (forall q, q <> path -> read_lines (fs w') q = read_lines (fs w) q)
     /\ sent w' = sent w)
  \/ (exists e, append_to path line w = (inl e, w)).
Proof.
  unfold append_to, bind, on_fs.
  destruct (py_open path ModeAppend (fs w)) as [e|[h f1]] eqn:Hop;
    [right; now exists e|].
  apply py_open_append_lines in Hop as (-> & _ & _ & Hlines).
  left. unfold append_line. cbn [closed name fs with_fs].
  eexists. split; [reflexivity|]. cbn [fs with_fs sent].
  split; [|split; [|reflexivity]].
  - unfold read_lines at 1. cbn [files]. rewrite lookup_insert_eq.
    cbn [default]. now rewrite Hlines.
  - intros q Hq. unfold read_lines at 1. cbn [files].
    rewrite lookup_insert_ne by congruence. apply Hlines.
Qed.

Lemma length_append (a b : string) :
  String.length (a +:+ b) = String.length a + String.length b.
Proof.
  induction a as [|c a IH]; [reflexivity|].
  change (String c a +:+ b) with (String c (a +:+ b)).
  cbn [String.length]. now rewrite IH.
Qed.

(** The results file is not the audit log, whatever the output
    directory. *)
Lemma results_path_differs (dir : string) :
  dir +:+ "triage_results.jsonl" <> "outputs/audit_log.jsonl".
Proof.
  intros H. pose proof (f_equal String.length H) as Hlen.
  rewrite length_append in Hlen. cbn [String.length] in Hlen.
  destruct dir as [|a [|b [|c [|d dir]]]]; cbn [String.length] in Hlen;
    try lia.
  discriminate H.
Qed.

Section WithEnv.
Variable env : Env.
Variable interrupts : nat -> option interrupt.

(** No interrupt arrives. *)
Local Abbreviation undisturbed := (forall k, interrupts k = None).

Ltac disturbed Hi :=
  let H := fresh "H" in intros H; rewrite H in Hi; discriminate.

(** One article, as the loop sees it. *)
Lemma triage_article_step (title abstract article_id : string)
    (criteria : list string) (config : Config) (audit : AuditLogger.t)
    (w : World) :
  (exists t line w',
     Triage.triage_article env title abstract article_id criteria config
       audit w = (inr t, w')
     /\ Triage.article_id t = article_id
     /\ fs w' = fs_append audit line (fs w)
     /\ dict_get "article_id" line = Some (PyStr article_id)
     /\ dict_get "module" line = Some (PyStr "triage"))
  \/ (exists e w',
        Triage.triage_article env title abstract article_id criteria config
          audit w = (inl e, w')
        /\ fs w' = fs w).
Proof.
  unfold Triage.triage_article, bind, lift.
  destruct (load_prompt env "triage" _) as [e|prompt];
    [right; now exists e, w|].
  destruct (CallMore.call_llm_outcome_line env prompt config "triage" audit
              article_id None w)
    as [(r & line & w' & Hrun & Hfs & _ & Hm & Ha & _) | (e & w' & Hrun & Hfs)];
    rewrite Hrun; [|right; now exists e, w'].
  destruct (TriageFacts._parse_decision_total (text r)) as (d & j & c & Hp).
  rewrite Hp. left. eexists _, line, _. split; [reflexivity|].
  now repeat split.
Qed.

(** What one turn of the loop of [triage_corpus] does. *)
Lemma triage_rows_turn (n : nat) (row : Row) (rows : list Row)
    (criteria : list string) (config : Config) (audit : AuditLogger.t)
    (out : string) (results : list Triage.TriageResult) (w : World) :
  TriageCorpus.triage_rows env interrupts n (row :: rows) criteria config
    audit out results w
  = match interrupts n with
    | Some AtStart => (inr results, w)
    | Some AtWrite =>
        match Triage.triage_article env (title row)
                (default "" (abstract row)) (str (id row)) criteria config
                audit w with
        | (inr t, w1) => (inr (results ++ [t])%list, w1)
        | (inl e, w1) => (inl e, w1)
        end
    | None =>
        match Triage.triage_article env (title row)
                (default "" (abstract row)) (str (id row)) criteria config
                audit w with
        | (inr t, w1) =>
            match append_to out (TriageCorpus.line_of t) w1 with
            | (inr _, w2) =>
                TriageCorpus.triage_rows env interrupts (S n) rows criteria
                  config audit out (results ++ [t])%list w2
            | (inl e, w2) => (inl e, w2)
            end
        | (inl e, w1) => (inl e, w1)
        end
    end.
Proof.
  cbn [TriageCorpus.triage_rows]. destruct (interrupts n) as [[|]|];
    reflexivity.
Qed.

(** The loop keeps the results file in step with the articles it has
    been through; only an interrupt between a result and its line lets
    the results run one ahead of the file. *)
Lemma triage_rows_persist (rows : list Row) (criteria : list string)
    (config : Config) (audit : AuditLogger.t) (out : string) (n : nat)
    (results : list Triage.TriageResult) (w : World) :
  out <> name (AuditLogger._file audit) ->
  let run := TriageCorpus.triage_rows env interrupts n rows criteria config
               audit out results w in
  exists done,
    read_lines (fs (snd run)) out
    = (read_lines (fs w) out ++ map TriageCorpus.line_of done)%list
    /\ map Triage.article_id done
       = map (fun row => str (id row)) (firstn (length done) rows)
    /\ match fst run with
       | inr rs =>
           (rs = (results ++ done)%list
            \/ exists t, rs = (results ++ done ++ [t])%list)
           /\ (undisturbed ->
               rs = (results ++ done)%list /\ length done = length rows)
       | inl _ => length done < length rows
       end.
Proof.
  intros Hout. revert n results w.
  induction rows as [|row rows IH]; intros n results w run.
  - exists []. subst run. cbn. rewrite !app_nil_r.
    split; [reflexivity|]. split; [reflexivity|]. split; [now left|].
    now intros _.
  - subst run. rewrite triage_rows_turn.
    destruct (interrupts n) as [[|]|] eqn:Hi.
    + exists []. cbn [fst snd map length firstn]. rewrite !app_nil_r.
      split; [reflexivity|]. split; [reflexivity|].
      split; [now left | disturbed Hi].
    + destruct (triage_article_step (title row) (default "" (abstract row))
                  (str (id row)) criteria config audit w)
        as [(t & line & w1 & Hrun & Hid & Hfs & _) | (e & w1 & Hrun & Hfs)];
        rewrite Hrun; exists []; cbn [fst snd map length firstn];
        rewrite Hfs, ?app_nil_r.
      * rewrite read_lines_append_other by assumption.
        split; [reflexivity|]. split; [reflexivity|].
        split; [right; now exists t | disturbed Hi].
      * repeat split. lia.
    + destruct (triage_article_step (title row) (default "" (abstract row))
                  (str (id row)) criteria config audit w)
        as [(t & line & w1 & Hrun & Hid & Hfs & _) | (e & w1 & Hrun & Hfs)];
        rewrite Hrun.
      2: { exists []. cbn [fst snd map length firstn].
           rewrite Hfs, app_nil_r. repeat split. lia. }
      assert (Hlines1 : read_lines (fs w1) out = read_lines (fs w) out).
      { rewrite Hfs. now apply read_lines_append_other. }
      destruct (append_to_cases out (TriageCorpus.line_of t) w1)
        as [(w2 & Hap & Hl2 & _ & _) | (e & Hap)]; rewrite Hap.
      2: { exists []. cbn [fst snd map length firstn].
           rewrite Hlines1, app_nil_r. repeat split. lia. }
      destruct (IH (S n) (results ++ [t])%list w2)
        as (done & Hl & Hids & Hres).
      exists (t :: done). cbn [map length firstn]. split; [|split].
      * rewrite Hl, Hl2, Hlines1, <- app_assoc. reflexivity.
      * now rewrite Hid, Hids.
      * destruct (fst (TriageCorpus.triage_rows env interrupts (S n) rows
                         criteria config audit out (results ++ [t])%list w2))
          as [e|rs]; [lia|].
        destruct Hres as [Hshape Hall]. split.
        { destruct Hshape as [-> | [t0 ->]]; [left | right; exists t0];
            now rewrite <- !app_assoc. }
        intros H. destruct (Hall H) as [-> Hlen].
        rewrite <- app_assoc. now rewrite Hlen.
Qed.

(** X23.  The results file is written as the loop goes.  Whether
    [triage_corpus] returns or raises, the file holds what it held before
    and then one line for each article it has been through, in the order
    of the corpus and with its id.  When it raises, these are rows before
    the one it failed on (none when the logger could not be opened).  When
    it returns, they are the records returned, but for one more record
    when an interrupt came between a result and its line; and in a run
    that no interrupt disturbs they are all the rows. *)
Theorem triage_corpus_persists (corpus_df : list Row) (config : Settings)
    (w : World) :
  let out := outputs config +:+ "triage_results.jsonl" in
  let run := TriageCorpus.triage_corpus env interrupts corpus_df config w in
  exists done,
    read_lines (fs (snd run)) out
    = (read_lines (fs w) out ++ map TriageCorpus.line_of done)%list
    /\ map Triage.article_id done
       = map (fun row => str (id row)) (firstn (length done) corpus_df)
    /\ match fst run with
       | inr results =>
           (results = done \/ exists t, results = (done ++ [t])%list)
           /\ (undisturbed ->
               results = done /\ length results = length corpus_df)
       | inl e =>
           length done < length corpus_df
           \/ (done = []
               /\ fst (AuditLogger.__init__ "outputs/audit_log.jsonl" w)
                  = inl e)
       end.
Proof.
  intros out run. subst run. unfold TriageCorpus.triage_corpus, bind.
  fold out.
  pose proof (init_frame "outputs/audit_log.jsonl" w) as (_ & _ & Hinit).
  destruct (AuditLogger.__init__ "outputs/audit_log.jsonl" w)
    as [[e|audit] w1] eqn:Hrun; cbn [fst snd] in *.
  - exists []. cbn [map length firstn]. rewrite Hinit, app_nil_r.
    repeat split. right. now split.
  - apply init_preserves_lines in Hrun as (_ & Hfile & _).
    destruct (triage_rows_persist corpus_df (criteria config) (llm config)
                audit out 0 [] w1) as (done & Hl & Hids & Hres).
    { rewrite Hfile. cbn [name]. apply results_path_differs. }
    exists done. rewrite Hl, Hinit. split; [reflexivity|].
    split; [exact Hids|].
    destruct (fst (TriageCorpus.triage_rows env interrupts 0 corpus_df
                     (criteria config) (llm config) audit out [] w1))
      as [e|rs].
    + now left.
    + cbn [app] in Hres. destruct Hres as [Hshape Hall].
      split; [exact Hshape|]. intros H. destruct (Hall H) as [-> Hlen].
      now split.
Qed.

(** The loop leaves one record in the audit log for each article it
    called the model for. *)
Lemma triage_rows_trail (rows : list Row) (criteria : list string)
    (config : Config) (audit : AuditLogger.t) (out : string) (n : nat)
    (results : list Triage.TriageResult) (w : World) :
  out <> name (AuditLogger._file audit) ->
  let run := TriageCorpus.triage_rows env interrupts n rows criteria config
               audit out results w in
  exists lines,
    audit_log audit (snd run) = (audit_log audit w ++ lines)%list
    /\ map (dict_get "article_id") lines
       = map (fun row => Some (PyStr (str (id row))))
           (firstn (length lines) rows)
    /\ Forall (fun line => dict_get "module" line = Some (PyStr "triage"))
         lines
    /\ length lines <= length rows
    /\ match fst run with
       | inr _ => undisturbed -> length lines = length rows
       | inl _ => True
       end.
Proof.
  intros Hout. revert n results w.
  induction rows as [|row rows IH]; intros n results w run.
  - exists []. subst run. cbn. rewrite !app_nil_r.
    split; [reflexivity|]. split; [reflexivity|]. split; [constructor|].
    split; [lia | now intros _].
  - subst run. rewrite triage_rows_turn. unfold audit_log in *.
    destruct (interrupts n) as [[|]|] eqn:Hi.
    + exists []. cbn [fst snd map length firstn]. rewrite !app_nil_r.
      split; [reflexivity|]. split; [reflexivity|]. split; [constructor|].
      split; [lia | disturbed Hi].
    + destruct (triage_article_step (title row) (default "" (abstract row))
                  (str (id row)) criteria config audit w)
        as [(t & line & w1 & Hrun & _ & Hfs & Ha & Hm)
           | (e & w1 & Hrun & Hfs)];
        rewrite Hrun; cbn [fst snd].
      * exists [line]. cbn [map length firstn]. rewrite Hfs, Ha.
        split; [apply read_lines_append|]. split; [reflexivity|].
        split; [now constructor|]. split; [lia | disturbed Hi].
      * exists []. cbn [map length firstn]. rewrite Hfs, app_nil_r.
        split; [reflexivity|]. split; [reflexivity|]. split; [constructor|].
        split; [lia | exact I].
    + destruct (triage_article_step (title row) (default "" (abstract row))
                  (str (id row)) criteria config audit w)
        as [(t & line & w1 & Hrun & _ & Hfs & Ha & Hm)
           | (e & w1 & Hrun & Hfs)];
        rewrite Hrun.
      2: { exists []. cbn [fst snd map length firstn].
           rewrite Hfs, app_nil_r.
           split; [reflexivity|]. split; [reflexivity|].
           split; [constructor|]. split; [lia | exact I]. }
      assert (Hlines1 : read_lines (fs w1) (name (AuditLogger._file audit))
                        = (read_lines (fs w) (name (AuditLogger._file audit))
                           ++ [line])%list).
      { rewrite Hfs. apply read_lines_append. }
      destruct (append_to_cases out (TriageCorpus.line_of t) w1)
        as [(w2 & Hap & _ & Hl2 & _) | (e & Hap)]; rewrite Hap.
      2: { exists [line]. cbn [fst snd map length firstn].
           rewrite Hlines1, Ha.
           split; [reflexivity|]. split; [reflexivity|].
           split; [now constructor|]. split; [lia | exact I]. }
      destruct (IH (S n) (results ++ [t])%list w2)
        as (lines & Hl & Hids & Hmods & Hle & Hres).
      exists (line :: lines). cbn [map length firstn].
      split; [|split; [|split; [|split]]].
      * rewrite Hl, Hl2 by congruence. rewrite Hlines1, <- app_assoc.
        reflexivity.
      * now rewrite Ha, Hids.
      * now constructor.
      * lia.
      * destruct (fst (TriageCorpus.triage_rows env interrupts (S n) rows
                         criteria config audit out (results ++ [t])%list w2));
          [exact I|].
        intros H. now rewrite (Hres H).
Qed.

(** X27.  The audit trail of a triage run.  After [triage_corpus] the
    audit log holds what it held, then one record for each article the
    model answered for, in the order of the corpus, each with the id of
    its article and the module [triage]: never more than there are rows,
    and one for every row when the run returns undisturbed by an
    interrupt. *)
Theorem triage_corpus_audit_trail (corpus_df : list Row) (config : Settings)
    (w : World) :
  let log := "outputs/audit_log.jsonl" in
  let run := TriageCorpus.triage_corpus env interrupts corpus_df config w in
  exists lines,
    read_lines (fs (snd run)) log = (read_lines (fs w) log ++ lines)%list
    /\ map (dict_get "article_id") lines
       = map (fun row => Some (PyStr (str (id row))))
           (firstn (length lines) corpus_df)
    /\ Forall (fun line => dict_get "module" line = Some (PyStr "triage"))
         lines
    /\ length lines <= length corpus_df
    /\ match fst run with
       | inr _ => undisturbed -> length lines = length corpus_df
       | inl _ => True
       end.
Proof.
  intros log run. subst run. unfold TriageCorpus.triage_corpus, bind.
  pose proof (init_frame "outputs/audit_log.jsonl" w) as (_ & _ & Hinit).
  destruct (AuditLogger.__init__ "outputs/audit_log.jsonl" w)
    as [[e|audit] w1] eqn:Hrun; cbn [fst snd] in *.
  - exists []. cbn [map length firstn]. rewrite Hinit, app_nil_r.
    split; [reflexivity|]. split; [reflexivity|]. split; [constructor|].
    split; [lia | exact I].
  - apply init_preserves_lines in Hrun as (_ & Hfile & _).
    destruct (triage_rows_trail corpus_df (criteria config) (llm config)
                audit (outputs config +:+ "triage_results.jsonl") 0 [] w1)
      as (lines & Hl & Hids & Hmods & Hle & Hres).
    { rewrite Hfile. cbn [name]. apply results_path_differs. }
    unfold audit_log in Hl. rewrite Hfile in Hl. cbn [name] in Hl.
    exists lines. fold log in Hl. rewrite Hl, Hinit.
    split; [reflexivity|]. split; [exact Hids|]. split; [exact Hmods|].
    split; [exact Hle | exact Hres].
Qed.

(** One summary, as the loop sees it. *)
Lemma summarize_article_step (title abstract article_id : string)
    (config : Config) (audit : AuditLogger.t) (w : World) :
  (exists s line w',
     Summarization.summarize_article env title abstract article_id config
       audit w = (inr s, w')
     /\ Summarization.article_id s = article_id
     /\ fs w' = fs_append audit line (fs w))
  \/ (exists e w',
        Summarization.summarize_article env title abstract article_id config
          audit w = (inl e, w')
        /\ fs w' = fs w).
Proof.
  unfold Summarization.summarize_article, bind, lift.
  destruct (load_prompt env "summarization" _) as [e|prompt];
    [right; now exists e, w|].
  destruct (CallMore.call_llm_outcome env prompt config "summarization" audit
              article_id None w)
    as [(r & line & w' & Hrun & _ & _ & _ & Hfs) | (e & w' & Hrun & Hfs)];
    rewrite Hrun; [|right; now exists e, w'].
  left. eexists _, line, _. split; [reflexivity|].
  split; [reflexivity | exact Hfs].
Qed.

Lemma rows_with_id_found (corpus_df : list Row) (art_id : string) :
  existsb (fun cr => cell_eq_str (id cr) art_id) corpus_df
  = match SummarizeCorpus.rows_with_id corpus_df art_id with
    | [] => false
    | _ :: _ => true
    end.
Proof.
  unfold SummarizeCorpus.rows_with_id.
  induction corpus_df as [|cr l IH]; [reflexivity|].
  cbn [existsb List.filter]. now destruct (cell_eq_str (id cr) art_id).
Qed.

Lemma filter_filter {A} (p q : A -> bool) (l : list A) :
  List.filter q (List.filter p l) = List.filter (fun x => p x && q x) l.
Proof.
  induction l as [|x l IH]; [reflexivity|]. cbn [List.filter].
  destruct (p x); cbn [List.filter andb]; [|exact IH].
  destruct (q x); now rewrite IH.
Qed.

(** What one turn of the loop of [summarize_corpus] does. *)
Lemma summarize_rows_turn (n : nat) (row : SummarizeCorpus.Decided)
    (included : list SummarizeCorpus.Decided) (corpus_df : list Row)
    (config : Config) (audit : AuditLogger.t) (out : string)
    (results : list Summarization.SummaryResult) (w : World) :
  SummarizeCorpus.summarize_rows env interrupts n (row :: included) corpus_df
    config audit out results w
  = match interrupts n with
    | Some AtStart => (inr results, w)
    | at_write =>
        match SummarizeCorpus.rows_with_id corpus_df
                (str (SummarizeCorpus.decided_id row)) with
        | [] =>
            SummarizeCorpus.summarize_rows env interrupts (S n) included
              corpus_df config audit out results w
        | cr :: _ =>
            match Summarization.summarize_article env (title cr)
                    (default "" (abstract cr))
                    (str (SummarizeCorpus.decided_id row)) config audit w
            with
            | (inr s, w1) =>
                match at_write with
                | Some _ => (inr (results ++ [s])%list, w1)
                | None =>
                    match append_to out (SummarizeCorpus.line_of s) w1 with
                    | (inr _, w2) =>
                        SummarizeCorpus.summarize_rows env interrupts (S n)
                          included corpus_df config audit out
                          (results ++ [s])%list w2
                    | (inl e, w2) => (inl e, w2)
                    end
                end
            | (inl e, w1) => (inl e, w1)
            end
        end
    end.
Proof.
  cbn [SummarizeCorpus.summarize_rows].
  destruct (interrupts n) as [[|]|]; [reflexivity| |];
    destruct (SummarizeCorpus.rows_with_id corpus_df
                (str (SummarizeCorpus.decided_id row)));
    try reflexivity; unfold bind;
    now destruct (Summarization.summarize_article env _ _ _ _ _ w) as [[?|?] ?].
Qed.

(** The loop of [summarize_corpus] keeps its file in step with the
    articles it has found in the corpus. *)
Lemma summarize_rows_persist (included : list SummarizeCorpus.Decided)
    (corpus_df : list Row) (config : Config) (audit : AuditLogger.t)
    (out : string) (n : nat) (results : list Summarization.SummaryResult)
    (w : World) :
  out <> name (AuditLogger._file audit) ->
  let found :=
    map (fun r => str (SummarizeCorpus.decided_id r))
      (List.filter
         (fun r => existsb (fun cr => cell_eq_str (id cr)
                                        (str (SummarizeCorpus.decided_id r)))
                     corpus_df)
         included) in
  let run := SummarizeCorpus.summarize_rows env interrupts n included
               corpus_df config audit out results w in
  exists done,
    read_lines (fs (snd run)) out
    = (read_lines (fs w) out ++ map SummarizeCorpus.line_of done)%list
    /\ map Summarization.article_id done = firstn (length done) found
    /\ match fst run with
       | inr rs =>
           (rs = (results ++ done)%list
            \/ exists s, rs = (results ++ done ++ [s])%list)
           /\ (undisturbed ->
               rs = (results ++ done)%list /\ length done = length found)
       | inl _ => length done < length found
       end.
Proof.
  intros Hout. revert n results w.
  induction included as [|row included IH]; intros n results w found run.
  - exists []. subst run found. cbn. rewrite !app_nil_r.
    split; [reflexivity|]. split; [reflexivity|]. split; [now left|].
    now intros _.
  - subst run found. rewrite summarize_rows_turn. cbn [List.filter].
    rewrite rows_with_id_found.
    destruct (interrupts n) as [[|]|] eqn:Hi.
    + exists []. cbn [fst snd map length firstn]. rewrite !app_nil_r.
      split; [reflexivity|]. split; [reflexivity|].
      split; [now left | disturbed Hi].
    + destruct (SummarizeCorpus.rows_with_id corpus_df
                  (str (SummarizeCorpus.decided_id row))) as [|cr others];
        [exact (IH (S n) results w)|].
      cbn [map length].
      destruct (summarize_article_step (title cr) (default "" (abstract cr))
                  (str (SummarizeCorpus.decided_id row)) config audit w)
        as [(s & line & w1 & Hrun & Hid & Hfs) | (e & w1 & Hrun & Hfs)];
        rewrite Hrun; exists []; cbn [fst snd map length firstn];
        rewrite Hfs, ?app_nil_r.
      * rewrite read_lines_append_other by assumption.
        split; [reflexivity|]. split; [reflexivity|].
        split; [right; now exists s | disturbed Hi].
      * repeat split. lia.
    + destruct (SummarizeCorpus.rows_with_id corpus_df
                  (str (SummarizeCorpus.decided_id row))) as [|cr others];
        [exact (IH (S n) results w)|].
      cbn [map length].
      destruct (summarize_article_step (title cr) (default "" (abstract cr))
                  (str (SummarizeCorpus.decided_id row)) config audit w)
        as [(s & line & w1 & Hrun & Hid & Hfs) | (e & w1 & Hrun & Hfs)];
        rewrite Hrun.
      2: { exists []. cbn [fst snd map length firstn].
           rewrite Hfs, app_nil_r. repeat split. lia. }
      assert (Hlines1 : read_lines (fs w1) out = read_lines (fs w) out).
      { rewrite Hfs. now apply read_lines_append_other. }
      destruct (append_to_cases out (SummarizeCorpus.line_of s) w1)
        as [(w2 & Hap & Hl2 & _ & _) | (e & Hap)]; rewrite Hap.
      2: { exists []. cbn [fst snd map length firstn].
           rewrite Hlines1, app_nil_r. repeat split. lia. }
      destruct (IH (S n) (results ++ [s])%list w2)
        as (done & Hl & Hids & Hres).
      exists (s :: done). cbn [map length firstn]. split; [|split].
      * rewrite Hl, Hl2, Hlines1, <- app_assoc. reflexivity.
      * now rewrite Hid, Hids.
      * destruct (fst (SummarizeCorpus.summarize_rows env interrupts (S n)
                         included corpus_df config audit out
                         (results ++ [s])%list w2)) as [e|rs]; [lia|].
        destruct Hres as [Hshape Hall]. split.
        { destruct Hshape as [-> | [t0 ->]]; [left | right; exists t0];
            now rewrite <- !app_assoc. }
        intros H. destruct (Hall H) as [-> Hlen].
        rewrite <- app_assoc. now rewrite Hlen.
Qed.

Lemma summaries_path_differs (dir : string) :
  dir +:+ "summaries.jsonl" <> "outputs/audit_log.jsonl".
Proof.
  intros H. pose proof (f_equal String.length H) as Hlen.
  rewrite length_append in Hlen. cbn [String.length] in Hlen.
  destruct dir as [|a1 [|a2 [|a3 [|a4 [|a5 [|a6 [|a7 [|a8 [|a9 dir]]]]]]]]];
    cbn [String.length] in Hlen; try lia.
  discriminate H.
Qed.

(** X25.  [summarize_corpus] works on the articles that the triage
    decided YES and that the corpus has under the string of their id, in
    the order of the triage results, and on no other: whether it returns
    or raises, its file holds what it held before and then one line for
    each of the first of these articles.  An article decided NO or
    UNCERTAIN, or missing from the corpus, gets no line; an id that the
    corpus holds as an integer is missing, since it equals no string.
    When the run returns, the lines are those of the records returned,
    but for one more record when an interrupt came between a result and
    its line; in a run that no interrupt disturbs they are all of these
    articles. *)
Theorem summarize_corpus_persists
    (triage_results : list SummarizeCorpus.Decided) (corpus_df : list Row)
    (config : Settings) (w : World) :
  let out := outputs config +:+ "summaries.jsonl" in
  let todo := SummarizeCorpus.eligible triage_results corpus_df in
  let run := SummarizeCorpus.summarize_corpus env interrupts triage_results
               corpus_df config w in
  exists done,
    read_lines (fs (snd run)) out
    = (read_lines (fs w) out ++ map SummarizeCorpus.line_of done)%list
    /\ map Summarization.article_id done = firstn (length done) todo
    /\ match fst run with
       | inr results =>
           (results = done \/ exists s, results = (done ++ [s])%list)
           /\ (undisturbed ->
               results = done /\ length results = length todo)
       | inl e =>
           length done < length todo
           \/ (done = []
               /\ fst (AuditLogger.__init__ "outputs/audit_log.jsonl" w)
                  = inl e)
       end.
Proof.
  intros out todo run. subst run todo.
  unfold SummarizeCorpus.summarize_corpus, SummarizeCorpus.eligible, bind.
  fold out. rewrite <- filter_filter.
  pose proof (init_frame "outputs/audit_log.jsonl" w) as (_ & _ & Hinit).
  destruct (AuditLogger.__init__ "outputs/audit_log.jsonl" w)
    as [[e|audit] w1] eqn:Hrun; cbn [fst snd] in *.
  - exists []. cbn [map length firstn]. rewrite Hinit, app_nil_r.
    repeat split. right. now split.
  - apply init_preserves_lines in Hrun as (_ & Hfile & _).
    destruct (summarize_rows_persist
                (List.filter
                   (fun r => String.eqb (SummarizeCorpus.decided r) "YES")
                   triage_results)
                corpus_df (llm config) audit out 0 [] w1)
      as (done & Hl & Hids & Hres).
    { rewrite Hfile. cbn [name]. apply summaries_path_differs. }
    exists done. rewrite Hl, Hinit. split; [reflexivity|].
    split; [exact Hids|].
    destruct (fst (SummarizeCorpus.summarize_rows env interrupts 0 _
                     corpus_df (llm config) audit out [] w1)) as [e|rs].
    + now left.
    + cbn [app] in Hres. destruct Hres as [Hshape Hall].
      split; [exact Hshape|]. intros H. destruct (Hall H) as [-> Hlen].
      now split.
Qed.

(** X24.  [_run_triage] calls [call_llm] with the keywords [use_cache] and
    [force_together], which are not among its parameters.  So no request
    is ever sent and no line is written to any file.  The run returns
    only an empty list, for an empty corpus or when an interrupt comes
    before the first row is worked on; otherwise, once the logger is open
    and the prompt of the first row is built, it raises [TypeError]. *)
Theorem run_triage_never_calls (corpus_df : list Row) (config : Config)
    (prompt_builder : string -> string -> exn + string) (run_name : string)
    (output_path : string) (force_together : bool) (w : World) :
  let log := "outputs/audit_log_crossval_" +:+ run_name +:+ ".jsonl" in
  let run := CrossValidation._run_triage env interrupts corpus_df config
               prompt_builder run_name output_path force_together w in
  sent (snd run) = sent w
  /\ (forall q, read_lines (fs (snd run)) q = read_lines (fs w) q)
  /\ match fst run with
     | inr results =>
         results = [] /\ (corpus_df = [] \/ interrupts 0 = Some AtStart)
     | inl TypeError =>
         exists row rest prompt,
           corpus_df = row :: rest
           /\ prompt_builder (title row) (default "" (abstract row))
              = inr prompt
     | inl AttributeError => True
     | inl (Raised e) =>
         fst (AuditLogger.__init__ log w) = inl e
         \/ exists row rest,
              corpus_df = row :: rest
              /\ prompt_builder (title row) (default "" (abstract row))
                 = inl e
     end
  /\ (forall row rest audit w1 prompt,
        corpus_df = row :: rest ->
        interrupts 0 <> Some AtStart ->
        AuditLogger.__init__ log w = (inr audit, w1) ->
        prompt_builder (title row) (default "" (abstract row)) = inr prompt ->
        fst run = inl TypeError).
Proof.
  intros log run. subst run.
  unfold CrossValidation._run_triage, rbind, Callers.run. fold log.
  pose proof (init_frame log w) as (Hsent & _ & Hlines).
  destruct (AuditLogger.__init__ log w) as [[e|audit] w1];
    cbn [fst snd] in *.
  - split; [exact Hsent|]. split; [exact Hlines|]. split; [now left|].
    intros row rest audit w1' prompt _ _ [=].
  - destruct corpus_df as [|row rest]; cbn [CrossValidation.run_rows].
    + cbn [rret fst snd]. repeat split; auto. intros ? ? ? ? ? [=].
    + destruct (interrupts 0) as [[|]|] eqn:Hi.
      * cbn [rret fst snd]. repeat split; auto.
        intros ? ? ? ? ? _ Hno. now contradiction Hno.
      * unfold rbind, Callers.run, lift.
        destruct (prompt_builder (title row) (default "" (abstract row)))
          as [e|prompt] eqn:Hb; cbn [fst snd].
        -- split; [exact Hsent|]. split; [exact Hlines|].
           split; [right; now exists row, rest|].
           intros ? ? ? ? ? [= <- <-] _ _ Hp. congruence.
        -- split; [exact Hsent|]. split; [exact Hlines|].
           split; [now exists row, rest, prompt | reflexivity].
      * unfold rbind, Callers.run, lift.
        destruct (prompt_builder (title row) (default "" (abstract row)))
          as [e|prompt] eqn:Hb; cbn [fst snd].
        -- split; [exact Hsent|]. split; [exact Hlines|].
           split; [right; now exists row, rest|].
           intros ? ? ? ? ? [= <- <-] _ _ Hp. congruence.
        -- split; [exact Hsent|]. split; [exact Hlines|].
           split; [now exists row, rest, prompt | reflexivity].
Qed.

End WithEnv.

End LoopFacts.

(* ===================================================================== *)
(** * The justification and the empty answer                              *)
(* ===================================================================== *)

Module JustificationFacts.
Import Runtime PyStr PyStrFacts Text TextFacts Triage TriageFacts
  SummarizationFacts.








(** X29.  An empty answer, or one of whitespace only, is UNCERTAIN with
    confidence 0.5 and no justification. *)
Theorem parse_decision_blank (text : string) :
  all_space text = true ->
  _parse_decision text = inr ("UNCERTAIN", "", 0.5%float).
Proof.
  intros H. unfold _parse_decision.
  assert (Hs : strip text = "").
  { unfold strip. now rewrite (lstrip_of_spaces text H). }
  rewrite Hs. reflexivity.
Qed.

Lemma parse_decision_blank_witness :
  _parse_decision ("  " +:+ newline) = inr ("UNCERTAIN", "", 0.5%float).
Proof.
  apply (parse_decision_blank ("  " +:+ newline)). reflexivity.
Defined.

End JustificationFacts.
